(** * Binned distribution and capacity rescaling (dom-sizing, ssd-endurance)

    A shallow embedding of the pandas/numpy computations of
    [dom-sizing.ipynb] and of the scalar endurance formula of
    [ssd-endurance-requirements.ipynb].

    Numbers.  A float64 cell is a value of [fval]: a finite number, one of
    the two infinities, or NaN.  Finite arithmetic is exact rational
    arithmetic on [Qc] (rounding is abstracted, which is the reading the
    specification takes with "within floating-point tolerance"); the
    special values follow IEEE 754 as numpy applies them: [x / 0] is an
    infinity or NaN and raises nothing, NaN propagates, [Series.sum] and
    [DataFrame.max] skip NaN and [fillna] replaces it.  Zeros are unsigned.
    The int64 arithmetic on the bin index wraps around.  A count column
    that [read_csv] parses from integers is int64 as well, and so are its
    products with the min and max extents and their totals ([int64_mass],
    [int64_sum]); the float64 cells of [mass_dist] hold the same numbers as
    long as none of them leaves the int64 range, and the statements whose
    truth depends on it assume so ([no_overflow], [int64_exact]).  The
    endurance formula is also given in binary64 itself, on primitive
    floats, where a statement is about the exact value of a result.

    Tables.  A [DataFrame] is a finite map from column names to columns;
    every column of the notebook shares the index of [reference_df], so
    element-wise operations pair cells by position.  Looking up a column
    that is absent raises [KeyError], as [df[key]] does.

    Inputs.  The histogram is read from a file or built by
    [fsanalysis.histogram], which is not part of the sources: the model
    takes [reference_df], its bin index included, as an argument.  The
    constants [TARGET_TOTAL_OST_CAPACITY] and [LUSTRE_BYTES_PER_INODE] are
    defined with their values and passed as arguments, so that the
    statements range over every target and every footprint.

    Further cells.  The helpers [humanize_units],
    [humanize_units_generic_base10] and [invalid_minmax_df], the cell that
    sizes the data on the MDT ([new_mdt]), the growth and the required
    capacity of the capacity notebook ([daily_fill_pct],
    [calc_pibs_required]) and the loop of [draw_histo] that sets the ticks
    and the limits of the x axis are embedded the same way; what the
    plotting library draws is not. *)

From Stdlib Require Import QArith Qcanon ZArith Lia PrimFloat.
From stdpp Require Import base numbers option list strings gmap fin_maps.

Local Open Scope Z_scope.
Local Open Scope Qc_scope.

(** ** Float cells *)

Inductive fval : Type :=
| Fin (q : Qc)
| PInf
| NInf
| NaN.

Global Instance fval_eq_dec : EqDecision fval.
Proof. solve_decision. Defined.

Global Instance fval_inhabited : Inhabited fval := populate NaN.

(** The sign of a product or quotient that overflows to an infinity. *)
Definition inf_of (positive : bool) : fval := if positive then PInf else NInf.

Definition is_pos (q : Qc) : bool := bool_decide (0 < q).
Definition is_zero (q : Qc) : bool := bool_decide (q = 0).

Definition fadd (x y : fval) : fval :=
  match x, y with
  | NaN, _ | _, NaN => NaN
  | Fin a, Fin b => Fin (a + b)
  | PInf, NInf | NInf, PInf => NaN
  | PInf, _ | _, PInf => PInf
  | NInf, _ | _, NInf => NInf
  end.

Definition fmul (x y : fval) : fval :=
  match x, y with
  | NaN, _ | _, NaN => NaN
  | Fin a, Fin b => Fin (a * b)
  | Fin a, PInf | PInf, Fin a =>
      if is_zero a then NaN else inf_of (is_pos a)
  | Fin a, NInf | NInf, Fin a =>
      if is_zero a then NaN else inf_of (negb (is_pos a))
  | PInf, PInf | NInf, NInf => PInf
  | PInf, NInf | NInf, PInf => NInf
  end.

Definition fdiv (x y : fval) : fval :=
  match x, y with
  | NaN, _ | _, NaN => NaN
  | Fin a, Fin b =>
      if is_zero b then
        (if is_zero a then NaN else inf_of (is_pos a))
      else Fin (a / b)
  | Fin _, (PInf | NInf) => Fin 0
  | PInf, Fin b => inf_of (is_zero b || is_pos b)
  | NInf, Fin b => inf_of (negb (is_zero b || is_pos b))
  | (PInf | NInf), (PInf | NInf) => NaN
  end.

(** [x <= y] on float64: false as soon as one side is NaN. *)
Definition fle (x y : fval) : bool :=
  match x, y with
  | NaN, _ | _, NaN => false
  | NInf, _ | _, PInf => true
  | Fin a, Fin b => bool_decide (a ≤ b)
  | _, _ => false
  end.

Definition flt (x y : fval) : bool :=
  match x, y with
  | NaN, _ | _, NaN => false
  | Fin a, Fin b => bool_decide (a < b)
  | NInf, NInf | PInf, PInf => false
  | NInf, _ | _, PInf => true
  | _, _ => false
  end.

Definition is_nan (x : fval) : bool :=
  match x with NaN => true | _ => false end.

(** [Series.fillna(v)] on one cell. *)
Definition fillna1 (v x : fval) : fval := if is_nan x then v else x.

(** [DataFrame.max(axis=1)] on a row of two cells: NaN is skipped, and the
    row maximum is NaN only when both cells are. *)
Definition rowmax2 (x y : fval) : fval :=
  match x, y with
  | NaN, v | v, NaN => v
  | _, _ => if flt x y then y else x
  end.

Definition of_Z (z : Z) : fval := Fin (Qc_of_Z z).

(** ** Columns *)

Abbreviation Series := (list fval) (only parsing).

Definition series_mul (a b : Series) : Series := zip_with fmul a b.
Definition series_div (a b : Series) : Series := zip_with fdiv a b.
Definition series_add (a b : Series) : Series := zip_with fadd a b.
Definition series_mul_scalar (a : Series) (k : fval) : Series := (λ x, fmul x k) <$> a.
Definition series_div_scalar (a : Series) (k : fval) : Series := (λ x, fdiv x k) <$> a.
Definition fillna (v : fval) (a : Series) : Series := fillna1 v <$> a.
Definition series_max2 (a b : Series) : Series := zip_with rowmax2 a b.

(** [Series.sum()]: NaN cells are skipped; the sum of nothing is 0. *)
Definition series_sum (a : Series) : fval :=
  foldl fadd (Fin 0) (filter (λ x, is_nan x = false) a).

(** ** Python results *)

Inductive exn : Type :=
| KeyError (key : string)
| ValueError.

Inductive result (A : Type) : Type :=
| Ok (a : A)
| Raise (e : exn).
Arguments Ok {A} a.
Arguments Raise {A} e.

Global Instance exn_eq_dec : EqDecision exn.
Proof. solve_decision. Defined.

Global Instance result_eq_dec {A} `{EqDecision A} : EqDecision (result A).
Proof. solve_decision. Defined.

Global Instance result_ret : MRet result := λ A, Ok.

Global Instance result_bind : MBind result := λ A B k m,
  match m with
  | Ok a => k a
  | Raise e => Raise e
  end.

(** A [for] loop that threads the loop state and stops at the first
    exception. *)
Fixpoint for_each {A S} (xs : list A) (body : S → A → result S) (s : S) : result S :=
  match xs with
  | [] => Ok s
  | x :: xs' => s' ← body s x; for_each xs' body s'
  end.

(** ** Reduction names *)

(** [invert_redux], on Python strings. *)
Definition invert_redux (redux : string) : string :=
  if decide (redux = "min") then "max"
  else if decide (redux = "max") then "min"
  else redux.

Definition REDUCTIONS : list string := ["min"; "max"; "ave"].

(** ** Data frames *)

Record DataFrame : Type := mkDF {
  df_index : list Z;
  df_cols : gmap string Series
}.

(** [pandas.DataFrame(index=...)]. *)
Definition new_frame (index : list Z) : DataFrame := mkDF index ∅.

(** [df[key]]. *)
Definition getcol (df : DataFrame) (key : string) : result Series :=
  match df_cols df !! key with
  | Some c => Ok c
  | None => Raise (KeyError key)
  end.

(** [df[key] = series], for a series on the frame's own index. *)
Definition setcol (df : DataFrame) (key : string) (c : Series) : DataFrame :=
  mkDF (df_index df) (<[key := c]> (df_cols df)).

(** [df[key] = array], for a bare numpy array or a list: the lengths must
    agree, except that a frame without rows takes the positions
    0, 1, ... of a non-empty array as its index, its other columns being
    filled with NaN. *)
Definition setcol_array (df : DataFrame) (key : string) (c : Series) : result DataFrame :=
  if decide (length c = length (df_index df)) then Ok (setcol df key c)
  else if decide (df_index df = []) then
    Ok (mkDF (Z.of_nat <$> seq 0 (length c))
             (<[key := c]> ((λ _, replicate (length c) NaN) <$> df_cols df)))
  else Raise ValueError.

(** [d[key]] on a Python dict of floats. *)
Definition getitem (d : gmap string fval) (key : string) : result fval :=
  match d !! key with
  | Some v => Ok v
  | None => Raise (KeyError key)
  end.

(** ** Notebook constants *)

Definition TO_KIB : fval := Fin (1 / Qc_of_Z (2 ^ 10)).
Definition LUSTRE_BYTES_PER_INODE : fval := fdiv (of_Z 4) TO_KIB.

Definition INODE_TYPES : list string :=
  ["files"; "dirs"; "symlinks"; "blks"; "chrs"; "fifos"; "socks"].
Definition NON_FILE_INODE_TYPES : list string := drop 1 INODE_TYPES.

(** ** Bin extents *)

(** int64 addition as numpy performs it. *)
Definition wrap64 (z : Z) : Z := ((z + 2 ^ 63) `mod` 2 ^ 64 - 2 ^ 63)%Z.

(** [index[1:-1]]. *)
Definition index_inner (index : list Z) : list Z :=
  drop 1 (take (length index - 1) index).

(** [numpy.concatenate((numpy.array([0, 2]), index[1:-1].values + 1))]. *)
Definition bin_extent_min (index : list Z) : list Z :=
  [0; 2]%Z ++ ((λ z, wrap64 (z + 1)) <$> index_inner index).

Definition bin_extent_max (index : list Z) : list Z := index.

(** [(bin_extent_min + bin_extent_max) / 2]: an int64 sum, then a true
    division. *)
Definition bin_extent_ave (index : list Z) : Series :=
  zip_with (λ a b, fdiv (of_Z (wrap64 (a + b))) (of_Z 2))
           (bin_extent_min index) (bin_extent_max index).

(** The cell that adds the three extent columns to [reference_df]: the
    second assignment reads the index that the first one leaves, and the
    third adds the two columns. *)
Definition add_bin_extents (reference_df : DataFrame) : result DataFrame :=
  let extent_min := bin_extent_min (df_index reference_df) in
  df ← setcol_array reference_df "bin_extent_min" (of_Z <$> extent_min);
  let extent_max := bin_extent_max (df_index df) in
  df ← setcol_array df "bin_extent_max" (of_Z <$> extent_max);
  Ok (setcol df "bin_extent_ave"
        (zip_with (λ a b, fdiv (of_Z (wrap64 (a + b))) (of_Z 2)) extent_min extent_max)).

(** ** Mass and probability distributions *)

(** The product of the counts and an extent, on float64 cells.  An int64
    count column gives an int64 product with the min and the max extent,
    [int64_mass] below, and a float64 one with the average extent. *)
Definition mass_dist (reference_df : DataFrame) : result DataFrame :=
  for_each REDUCTIONS
    (λ mass_dist redux,
       num_files ← getcol reference_df "num_files";
       extent ← getcol reference_df ("bin_extent_" +:+ redux);
       Ok (setcol mass_dist ("dmass_" +:+ redux)
             (fillna (Fin 0) (series_mul num_files extent))))
    (new_frame (df_index reference_df)).

(** [mass_dist.sum()], read key by key, on float64 cells; the sum of an
    int64 column is [int64_sum] below. *)
Definition mass_dist_sums (mass_dist : DataFrame) : result (gmap string fval) :=
  for_each REDUCTIONS
    (λ sums redux,
       col ← getcol mass_dist ("dmass_" +:+ redux);
       Ok (<["dmass_" +:+ redux := series_sum col]> sums))
    ∅.

Definition prob_dist (reference_df mass_dist : DataFrame) : result DataFrame :=
  sums ← mass_dist_sums mass_dist;
  for_each REDUCTIONS
    (λ prob_dist redux,
       col ← getcol mass_dist ("dmass_" +:+ redux);
       total ← getitem sums ("dmass_" +:+ invert_redux redux);
       Ok (setcol prob_dist ("dmass_" +:+ redux) (series_div_scalar col total)))
    (new_frame (df_index reference_df)).

(** [df.sum()]: the sum of every column. *)
Definition frame_sum (df : DataFrame) : gmap string fval :=
  series_sum <$> df_cols df.

(** The mass column and its total on an int64 count column and an int64
    extent: numpy multiplies and adds in int64 and wraps around without a
    warning; int64 columns hold no NaN for [fillna] to replace. *)
Definition int64_mass (num_files extent : list Z) : list Z :=
  zip_with (λ n e, wrap64 (n * e)) num_files extent.

Definition int64_sum (col : list Z) : Z :=
  foldl (λ acc z, wrap64 (acc + z)) 0%Z col.

(** ** Rescaling to the target capacity *)

Definition new_mass_dist (target : fval) (reference_df prob_dist : DataFrame) : result DataFrame :=
  for_each ["dmass"]
    (λ nmd mass_type,
       for_each REDUCTIONS
         (λ nmd redux,
            col ← getcol prob_dist (mass_type +:+ "_" +:+ redux);
            Ok (setcol nmd (mass_type +:+ "_" +:+ redux) (series_mul_scalar col target)))
         nmd)
    (new_frame (df_index reference_df)).

(** Python's [max(1, x)]: the first argument wins unless the second is
    strictly larger. *)
Definition max_1 (x : fval) : fval := if flt (Fin 1) x then x else Fin 1.

Definition newfs_df_files (reference_df new_mass_dist : DataFrame) : result DataFrame :=
  let newfs_df := new_frame (df_index reference_df) in
  dmass_min ← getcol new_mass_dist "dmass_min";
  extent_max ← getcol reference_df "bin_extent_max";
  let newfs_df := setcol newfs_df "num_files_min"
                    (fillna (Fin 0) (series_div dmass_min extent_max)) in
  dmass_max ← getcol new_mass_dist "dmass_max";
  extent_min ← getcol reference_df "bin_extent_min";
  let newfs_df := setcol newfs_df "num_files_max"
                    (fillna (Fin 0) (series_div dmass_max (max_1 <$> extent_min))) in
  dmass_ave ← getcol new_mass_dist "dmass_ave";
  extent_ave ← getcol reference_df "bin_extent_ave";
  Ok (setcol newfs_df "num_files_ave"
        (fillna (Fin 0) (series_div dmass_ave extent_ave))).

(** The loop that adds the columns of the other inode types. *)
Definition newfs_df_nonfiles (reference_df newfs_df : DataFrame) : result DataFrame :=
  for_each NON_FILE_INODE_TYPES
    (λ newfs_df itype,
       for_each REDUCTIONS
         (λ newfs_df redux,
            files ← getcol newfs_df ("num_files_" +:+ redux);
            ref_type ← getcol reference_df ("num_" +:+ itype);
            ref_files ← getcol reference_df "num_files";
            Ok (setcol newfs_df ("num_" +:+ itype +:+ "_" +:+ redux)
                  (fillna (Fin 0)
                     (series_div (series_mul files ref_type) ref_files))))
         newfs_df)
    newfs_df.

(** ** Inode mass *)

(** [suffix], which [if minmax:] leaves empty for [None] and for the empty
    string. *)
Definition column_suffix (minmax : option string) : string :=
  match minmax with
  | Some m => if decide (m = "") then "" else "_" +:+ m
  | None => ""
  end.

Definition calculate_inode_mass (bytes_per_inode : fval) (reference_df input_df : DataFrame)
    (redux : string) (minmax : option string) : result fval :=
  let suffix := column_suffix minmax in
  num_files ← getcol input_df ("num_files" +:+ suffix);
  let ret := series_mul_scalar num_files bytes_per_inode in
  ret ← for_each NON_FILE_INODE_TYPES
    (λ ret itype,
       count ← getcol input_df ("num_" +:+ itype +:+ suffix);
       extent ← getcol reference_df ("bin_extent_" +:+ redux);
       let _tmp_df := series_mul count extent in
       let _tmp_col := series_mul_scalar count bytes_per_inode in
       Ok (series_add ret (series_max2 _tmp_df _tmp_col)))
    ret;
  Ok (series_sum (fillna (Fin 0) ret)).


(** The cells of the notebook in order, up to the projected file counts
    and up to the projected counts of every inode type. *)
Definition rescale (target : fval) (reference_df : DataFrame) : result DataFrame :=
  md ← mass_dist reference_df;
  pd ← prob_dist reference_df md;
  nmd ← new_mass_dist target reference_df pd;
  newfs_df_files reference_df nmd.

Definition project_files (target : fval) (reference_df : DataFrame) : result DataFrame :=
  reference_df ← add_bin_extents reference_df;
  rescale target reference_df.

(** [mass_dist_sums['dmass_' + redux]], from the table as it is read. *)
Definition reference_total_mass (reference_df : DataFrame) (redux : string) : result fval :=
  reference_df ← add_bin_extents reference_df;
  md ← mass_dist reference_df;
  sums ← mass_dist_sums md;
  getitem sums ("dmass_" +:+ redux).

Definition project (target : fval) (reference_df : DataFrame) : result DataFrame :=
  reference_df ← add_bin_extents reference_df;
  newfs ← rescale target reference_df;
  newfs_df_nonfiles reference_df newfs.

(** ** Endurance *)

(** The branch that derives [chi * R * N * c] of the new system: from the
    required capacity when one of the parameters is [None], from the
    parameters otherwise; the low and the high value. *)
Definition PARAM_BIGC_NEW (ssi_low ssi_high : fval)
    (chi n_new c_new r_new_low r_new_high : option fval) : fval * fval :=
  match chi, n_new, c_new, r_new_low, r_new_high with
  | Some chi, Some n_new, Some c_new, Some r_low, Some r_high =>
      (fmul (fmul (fmul chi r_low) n_new) c_new,
       fmul (fmul (fmul chi r_high) n_new) c_new)
  | _, _, _, _, _ =>
      let daily := Fin (Qc_of_Z 13311669769445158 / Qc_of_Z 100) in
      let half := Fin (Qc_of_Z 5 / Qc_of_Z 10) in
      (fmul (fdiv (fmul ssi_low (of_Z 28)) half) daily,
       fmul (fdiv (fmul ssi_high (of_Z 28)) half) daily)
  end.

(** [DWPD_NEW_LOW] and [DWPD_NEW_HIGH], as one function of their inputs. *)
Definition DWPD_NEW (ssi fswpd waf r_ref n_ref c_ref bigc_new : fval) : fval :=
  fdiv (fmul (fmul (fmul (fmul (fmul ssi fswpd) waf) r_ref) n_ref) c_ref) bigc_new.

(** The same expression in the binary64 arithmetic that Python and numpy
    run it in, each operation rounded to nearest. *)
Definition DWPD_NEW_binary64 (ssi fswpd waf r_ref n_ref c_ref bigc_new : float) : float :=
  (ssi * fswpd * waf * r_ref * n_ref * c_ref / bigc_new)%float.

(** The binary64 value of the literal [0.05]. *)
Definition float_0_05 : float := 0x1.999999999999ap-5%float.

(** ** Human-readable units *)

(** [x != y] on float64: true as soon as one side is NaN. *)
Definition fne (x y : fval) : bool :=
  match x, y with
  | Fin a, Fin b => bool_decide (a ≠ b)
  | PInf, PInf | NInf, NInf => false
  | _, _ => true
  end.

(** The loop of the two helpers: the first unit that the value reaches,
    and the value in that unit. *)
Fixpoint first_unit (units : list (fval * string)) (bytect : fval) : option (fval * string) :=
  match units with
  | [] => None
  | units0 :: rest =>
      if fle units0.1 bytect then Some (fdiv bytect units0.1, units0.2)
      else first_unit rest bytect
  end.

(** [humanize_units] on a float64 byte count: the units are powers of
    two, so that the division of a float64 is exact; a Python int past
    2^53 would be rounded by the division. *)
Definition humanize_units (bytect : fval) : fval * string :=
  match first_unit [(of_Z (2 ^ 50), "PiB"); (of_Z (2 ^ 40), "TiB"); (of_Z (2 ^ 30), "GiB");
                    (of_Z (2 ^ 20), "MiB"); (of_Z (2 ^ 10), "KiB")] bytect with
  | Some r => r
  | None => (bytect, if fne bytect (of_Z 1) then "bytes" else "byte")
  end.

Definition humanize_units_generic_base10 (count : fval) : fval * string :=
  match first_unit [(of_Z (10 ^ 12), "T"); (of_Z (10 ^ 9), "B"); (of_Z (10 ^ 6), "M");
                    (of_Z (10 ^ 3), "K")] count with
  | Some r => r
  | None => (count, "")
  end.

(** ** Direction of the min/max columns *)

(** [(~(df[key + '_min'] <= df[key + '_max'])).sum()]: the number of rows
    whose comparison is false. *)
Definition invalid_minmax_df (df : DataFrame) (key : string) : result nat :=
  mins ← getcol df (key +:+ "_min");
  maxs ← getcol df (key +:+ "_max");
  Ok (length (filter (λ ok, ok = false) (zip_with fle mins maxs))).

(** ** Data on the MDT *)

(** The cells of the notebook in order, up to the projected masses. *)
Definition project_mass (target : fval) (reference_df : DataFrame) : result DataFrame :=
  reference_df ← add_bin_extents reference_df;
  md ← mass_dist reference_df;
  pd ← prob_dist reference_df md;
  new_mass_dist target reference_df pd.

(** [d[key]] on a Python dict of lists. *)
Definition getlist (d : gmap string (list fval)) (key : string) : result (list fval) :=
  match d !! key with
  | Some l => Ok l
  | None => Raise (KeyError key)
  end.

(** The keys of [size_on_mdt], in the order they are inserted. *)
Definition size_on_mdt_keys : list string :=
  ((λ redux, "first_stripe_mass_" +:+ redux) <$> REDUCTIONS)
  ++ ((λ redux, "whole_file_mass_" +:+ redux) <$> REDUCTIONS).

(** One row of the loop over [new_mass_dist]: for a first stripe as large
    as the bin at [iloc], the mass of the files that fit in it, and one
    stripe for each larger file.  The three tables share their index, so
    [.iloc[iloc]] is in range. *)
Definition size_on_mdt_row (reference_df new_mass_dist newfs_df : DataFrame)
    (size_on_mdt : gmap string (list fval)) (iloc : nat)
  : result (gmap string (list fval)) :=
  for_each REDUCTIONS
    (λ size_on_mdt redux,
       whole ← getlist size_on_mdt ("whole_file_mass_" +:+ redux);
       dmass ← getcol new_mass_dist ("dmass_" +:+ redux);
       let size_on_mdt :=
         <["whole_file_mass_" +:+ redux :=
             whole ++ [series_sum (take (iloc + 1) dmass)]]> size_on_mdt in
       first ← getlist size_on_mdt ("first_stripe_mass_" +:+ redux);
       num_files ← getcol newfs_df ("num_files_" +:+ redux);
       extent_max ← getcol reference_df "bin_extent_max";
       Ok (<["first_stripe_mass_" +:+ redux :=
               first ++ [fmul (series_sum (drop (iloc + 1) num_files))
                              (extent_max !!! iloc)]]> size_on_mdt))
    size_on_mdt.

Definition size_on_mdt (reference_df new_mass_dist newfs_df : DataFrame)
  : result (gmap string (list fval)) :=
  for_each (seq 0 (length (df_index new_mass_dist)))
    (size_on_mdt_row reference_df new_mass_dist newfs_df)
    (list_to_map ((λ key, (key, [])) <$> size_on_mdt_keys)).

(** The cell that builds [new_mdt]: the lists become columns, which have
    to be as long as the index, and the two masses are added. *)
Definition new_mdt (reference_df new_mass_dist newfs_df : DataFrame) : result DataFrame :=
  let new_mdt := new_frame (df_index newfs_df) in
  size_on_mdt ← size_on_mdt reference_df new_mass_dist newfs_df;
  new_mdt ← for_each size_on_mdt_keys
    (λ new_mdt colname,
       elements ← getlist size_on_mdt colname;
       setcol_array new_mdt colname elements)
    new_mdt;
  for_each REDUCTIONS
    (λ new_mdt redux,
       whole ← getcol new_mdt ("whole_file_mass_" +:+ redux);
       first ← getcol new_mdt ("first_stripe_mass_" +:+ redux);
       Ok (setcol new_mdt ("total_dom_mass_" +:+ redux) (series_add whole first)))
    new_mdt.

(** The cells of the notebook in order, up to the data on the MDT. *)
Definition dom_capacity (target : fval) (reference_df : DataFrame) : result DataFrame :=
  reference_df ← add_bin_extents reference_df;
  md ← mass_dist reference_df;
  pd ← prob_dist reference_df md;
  nmd ← new_mass_dist target reference_df pd;
  newfs_df ← newfs_df_files reference_df nmd;
  newfs_df ← newfs_df_nonfiles reference_df newfs_df;
  new_mdt reference_df nmd newfs_df.

(** ** Required capacity *)





Definition calc_pibs_required (fill_rate_tibs purge_fraction purge_interval rate_multiplier : fval)
  : fval :=
  let fill_rate_pibs := fdiv fill_rate_tibs (of_Z 1024) in
  fdiv (fmul (fmul rate_multiplier fill_rate_pibs) purge_interval) purge_fraction.

(** ** Axis ticks of the directory histogram *)

Inductive tick_error : Type :=
| IndexError
| TypeError.

(** The variables of the loop in [draw_histo]. *)
Record tick_state : Type := mk_ticks {
  new_xticks : list nat;
  new_labels : list string;
  min_x : option nat;
  max_x : option nat
}.

(** [series.iloc[index]]. *)
Definition iloc (series : list fval) (index : nat) : tick_error + fval :=
  match series !! index with
  | Some v => inr v
  | None => inl IndexError
  end.

(** [limit is None or (series.iloc[index] > 0 and <cmp>)], then the
    assignment: the series is read only when the limit is set. *)
Definition update_limit (series : list fval) (index : nat) (limit : option nat)
    (cmp : nat → bool) : tick_error + option nat :=
  match limit with
  | None => inr (Some index)
  | Some x =>
      match iloc series index with
      | inl e => inl e
      | inr v => inr (if flt (Fin 0) v && cmp x then Some index else Some x)
      end
  end.

(** One turn of the loop over [enumerate(ax.get_xticklabels())]. *)
Definition draw_histo_tick (series : list fval) (st : tick_state)
    (index : nat) (label : string) : tick_error + tick_state :=
  let st :=
    if decide (index mod 4 = 0)%nat
    then mk_ticks (new_xticks st ++ [index]) (new_labels st ++ [label])
                  (min_x st) (max_x st)
    else st in
  match update_limit series index (min_x st) (λ min_x, bool_decide (index < min_x)%nat) with
  | inl e => inl e
  | inr min_x' =>
      match update_limit series index (max_x st)
              (λ max_x, bool_decide (max_x < index)%nat) with
      | inl e => inl e
      | inr max_x' => inr (mk_ticks (new_xticks st) (new_labels st) min_x' max_x')
      end
  end.

Fixpoint draw_histo_loop (series : list fval) (labels : list string) (index : nat)
    (st : tick_state) : tick_error + tick_state :=
  match labels with
  | [] => inr st
  | label :: labels' =>
      match draw_histo_tick series st index label with
      | inl e => inl e
      | inr st' => draw_histo_loop series labels' (S index) st'
      end
  end.

(** [plot_df.plot.bar(ax=ax, ...)], as far as the x axis goes: one tick
    label per row of the numeric table [plot_df]; a table without rows has
    no bar to place, and the call raises IndexError before the loop is
    reached. *)
Definition plot_bar (labels : list string) : tick_error + list string :=
  match labels with
  | [] => inl IndexError
  | _ => inr labels
  end.

(** The ticks, their labels and the limits that [draw_histo] sets on the
    x axis, from the row labels of the plotted table and the global
    [series]. *)
Definition draw_histo_xaxis (labels : list string) (series : list fval)
  : tick_error + (list nat * list string * (Z * Z)) :=
  match plot_bar labels with
  | inl e => inl e
  | inr xticklabels =>
      match draw_histo_loop series xticklabels 0 (mk_ticks [] [] None None) with
      | inl e => inl e
      | inr st =>
          match min_x st, max_x st with
          | Some min_x, Some max_x =>
              inr (new_xticks st, new_labels st,
                   (Z.of_nat min_x - 1, Z.of_nat max_x + 2)%Z)
          | _, _ => inl TypeError
          end
      end
  end.

(** ** Well-formed inputs *)

(** Every bin is a non-empty range of sizes with a positive upper boundary
    that int64 arithmetic handles without wrapping. *)
Definition bins_ok (index : list Z) : Prop :=
  Forall2 (λ lo hi, (lo ≤ hi)%Z ∧ (0 < hi < 2 ^ 62)%Z)
          (bin_extent_min index) (bin_extent_max index).

Global Instance bins_ok_dec index : Decision (bins_ok index).
Proof. unfold bins_ok. apply _. Defined.

(** * Vocabulary of the statements *)

(** ** Finite cells *)

Global Instance Qc_inhabited : Inhabited Qc := populate 0.

(** A column of finite cells. *)
Definition fins (qs : list Qc) : list fval := Fin <$> qs.

(** The sum of a list of rationals. *)
Fixpoint sumq (qs : list Qc) : Qc :=
  match qs with
  | [] => 0
  | q :: qs' => q + sumq qs'
  end.

Definition Qcmax (a b : Qc) : Qc := if decide (a < b) then b else a.

(** A cell that is 0 or NaN. *)
Definition zero_or_nan (v : fval) : Prop := v = Fin 0 ∨ v = NaN.

(** The mass column and the total mass of finite counts and extents. *)
Definition massq (cs es : list Qc) : list Qc := zip_with Qcmult cs es.
Definition totalq (cs es : list Qc) : Qc := sumq (massq cs es).

(** The three extents as rationals, when no int64 sum wraps. *)
Definition emin_q (index : list Z) : list Qc := Qc_of_Z <$> bin_extent_min index.
Definition emax_q (index : list Z) : list Qc := Qc_of_Z <$> bin_extent_max index.
Definition eave_q (index : list Z) : list Qc :=
  zip_with (λ lo hi, (Qc_of_Z lo + Qc_of_Z hi) / 2)
           (bin_extent_min index) (bin_extent_max index).

(** The average extent as a rational, whatever the boundaries are. *)
Definition eave_wrap_q (index : list Z) : list Qc :=
  zip_with (λ a b, Qc_of_Z (wrap64 (a + b)) / Qc_of_Z 2)
           (bin_extent_min index) (bin_extent_max index).

(** ** The int64 range, bins that hold files, binary64 values *)

(** A value within the int64 range. *)
Definition in_int64 (q : Qc) : Prop :=
  - Qc_of_Z (2 ^ 63) ≤ q ∧ q < Qc_of_Z (2 ^ 63).

Global Instance in_int64_dec q : Decision (in_int64 q).
Proof. unfold in_int64. apply _. Defined.

(** Every mass and the total mass of the counts [cs] under the extents
    [es] are within the int64 range: an int64 count column then gives the
    masses and the total of a float64 one. *)
Definition int64_exact (cs es : list Qc) : Prop :=
  Forall in_int64 (massq cs es) ∧ in_int64 (totalq cs es).

Global Instance int64_exact_dec cs es : Decision (int64_exact cs es).
Proof. unfold int64_exact. apply _. Defined.

(** The total mass under the max extents is below 2^63.  When the counts
    are non-negative and the bins that hold files are valid, no mass and
    no total mass of any reduction is larger, so that nothing wraps around
    on an int64 count column. *)
Definition no_overflow (index : list Z) (cs : list Qc) : Prop :=
  totalq cs (emax_q index) < Qc_of_Z (2 ^ 63).

Global Instance no_overflow_dec index cs : Decision (no_overflow index cs).
Proof. unfold no_overflow. apply _. Defined.

(** Every bin that holds files is a valid range of sizes: it starts at 0
    or above and at or below its boundary, and the boundary is below 2^62,
    so that the int64 sum of the two does not wrap. *)
Definition populated_bins_ok (index : list Z) (cs : list Qc) : Prop :=
  Forall (λ x, x.1 ≠ 0 → (0 ≤ x.2.1 ≤ x.2.2)%Z ∧ (x.2.2 < 2 ^ 62)%Z)
         (zip cs (zip (bin_extent_min index) (bin_extent_max index))).

Global Instance populated_bins_ok_dec index cs : Decision (populated_bins_ok index cs).
Proof. unfold populated_bins_ok. apply _. Defined.

(** Every bin that holds files has an average extent other than 0. *)
Definition populated_ave_nonzero (index : list Z) (cs : list Qc) : Prop :=
  Forall (λ x, x.1 ≠ 0 → x.2 ≠ 0) (zip cs (eave_wrap_q index)).

Global Instance populated_ave_nonzero_dec index cs :
  Decision (populated_ave_nonzero index cs).
Proof. unfold populated_ave_nonzero. apply _. Defined.

(** [2^e] for an exponent of either sign. *)
Definition pow2 (e : Z) : Qc :=
  if decide (0 ≤ e)%Z then Qc_of_Z (2 ^ e) else / Qc_of_Z (2 ^ (- e)).

(** The number [m * 2^e].  With [|m| < 2^53] and [-1074 <= e <= 971]
    these are the finite values of binary64. *)
Definition binary64 (m e : Z) : Qc := Qc_of_Z m * pow2 e.

(** ** Closed forms of the columns *)

(** A column of [mass_dist]. *)
Definition mass_col (counts extent : list fval) : list fval :=
  fillna (Fin 0) (series_mul counts extent).

(** One cell of a projected file-count column: the bin's count [n], the
    extent [e] that weighs it, the total mass [total] in the denominator,
    and the extent [d] that turns the projected mass back into a count. *)
Definition projected_cell (target n e total d : fval) : fval :=
  fillna1 (Fin 0) (fdiv (fmul (fdiv (fillna1 (Fin 0) (fmul n e)) total) target) d).

(** A projected file-count column. *)
Definition projected_col (target : fval) (counts e other d : list fval) : list fval :=
  fillna (Fin 0)
    (series_div
       (series_mul_scalar
          (series_div_scalar (mass_col counts e) (series_sum (mass_col counts other)))
          target)
       d).

(** A projected column of another inode type. *)
Definition nonfile_col (files ref_type ref_files : list fval) : list fval :=
  fillna (Fin 0) (series_div (series_mul files ref_type) ref_files).

(** The mass of one inode type in every bin: the larger of the count times
    the extent and the count times the bytes per inode. *)
Definition type_mass (bytes_per_inode : fval) (count extent : list fval) : list fval :=
  series_max2 (series_mul count extent) (series_mul_scalar count bytes_per_inode).

(** The same on one cell. *)
Definition type_mass_cell (bytes_per_inode count extent : fval) : fval :=
  rowmax2 (fmul count extent) (fmul count bytes_per_inode).

(** The per-bin inode mass before the missing values are filled. *)
Definition inode_mass_rows (bytes_per_inode : fval) (files extent : list fval)
    (tcol : string → list fval) : list fval :=
  foldl (λ ret itype, series_add ret (type_mass bytes_per_inode (tcol itype) extent))
        (series_mul_scalar files bytes_per_inode) NON_FILE_INODE_TYPES.

(** The inode mass of one bin of a finite table. *)
Definition bin_inode_mass (l : Qc) (fs es : list Qc) (cs : string → list Qc)
    (bin : nat) : Qc :=
  fs !!! bin * l
  + sumq ((λ itype, Qcmax (cs itype !!! bin * es !!! bin) (cs itype !!! bin * l))
            <$> NON_FILE_INODE_TYPES).

(** ** Units, data on the MDT and finite projections *)

(** The size in bytes, or in inodes, of a unit that the helpers name. *)
Definition unit_size (unit : string) : Qc :=
  if decide (unit = "PiB") then Qc_of_Z (2 ^ 50)
  else if decide (unit = "TiB") then Qc_of_Z (2 ^ 40)
  else if decide (unit = "GiB") then Qc_of_Z (2 ^ 30)
  else if decide (unit = "MiB") then Qc_of_Z (2 ^ 20)
  else if decide (unit = "KiB") then Qc_of_Z (2 ^ 10)
  else if decide (unit = "T") then Qc_of_Z (10 ^ 12)
  else if decide (unit = "B") then Qc_of_Z (10 ^ 9)
  else if decide (unit = "M") then Qc_of_Z (10 ^ 6)
  else if decide (unit = "K") then Qc_of_Z (10 ^ 3)
  else 1.

(** The closed form of a column of whole-file masses and of first-stripe
    masses. *)
Definition whole_file_mass (dmass : list fval) (rows : nat) : list fval :=
  (λ iloc, series_sum (take (iloc + 1) dmass)) <$> seq 0 rows.

Definition first_stripe_mass (num_files extent_max : list fval) (rows : nat) : list fval :=
  (λ iloc, fmul (series_sum (drop (iloc + 1) num_files)) (extent_max !!! iloc))
    <$> seq 0 rows.

(** The lists of [size_on_mdt] after [rows] rows. *)
Definition mdt_lists (dmass num_files : string → list fval) (extent_max : list fval)
    (s : gmap string (list fval)) (rows : nat) : Prop :=
  ∀ redux, redux ∈ REDUCTIONS →
    s !! ("whole_file_mass_" +:+ redux) = Some (whole_file_mass (dmass redux) rows)
    ∧ s !! ("first_stripe_mass_" +:+ redux)
      = Some (first_stripe_mass (num_files redux) extent_max rows).

(** A column of projected masses, and the three columns of projected
    masses and of projected file counts by reduction. *)
Definition projected_mass_col (target : fval) (counts e other : list fval) : list fval :=
  series_mul_scalar
    (series_div_scalar (mass_col counts e) (series_sum (mass_col counts other)))
    target.

Definition projected_masses (target : fval) (index : list Z) (counts : list fval)
    (redux : string) : list fval :=
  let emin := of_Z <$> bin_extent_min index in
  let emax := of_Z <$> bin_extent_max index in
  let eave := bin_extent_ave index in
  if decide (redux = "min") then projected_mass_col target counts emin emax
  else if decide (redux = "max") then projected_mass_col target counts emax emin
  else projected_mass_col target counts eave eave.

Definition projected_files (target : fval) (index : list Z) (counts : list fval)
    (redux : string) : list fval :=
  let emin := of_Z <$> bin_extent_min index in
  let emax := of_Z <$> bin_extent_max index in
  let eave := bin_extent_ave index in
  if decide (redux = "min") then projected_col target counts emin emax emax
  else if decide (redux = "max") then projected_col target counts emax emin (max_1 <$> emin)
  else projected_col target counts eave eave eave.


(** [max(1, x)] on a rational. *)
Definition max_1q (q : Qc) : Qc := if decide (1 < q) then q else 1.






(** ** Daily growth and axis ticks *)

(** The daily growth in bytes that the endurance notebook takes from the
    capacity notebook, [133116697694451.58]. *)
Definition FILL_BYTES_PER_DAY : Qc := Qc_of_Z 13311669769445158 / Qc_of_Z 100.


(** What the loop of [draw_histo] has established after the labels
    [done]. *)
Definition ticks_after (series : list fval) (done : list string) (st : tick_state) : Prop :=
  new_xticks st = filter (λ i, i mod 4 = 0)%nat (seq 0 (length done))
  ∧ Forall2 (λ i label, done !! i = Some label) (new_xticks st) (new_labels st)
  ∧ min_x st = Some 0%nat
  ∧ ∃ hi, max_x st = Some hi
      ∧ (hi < length done)%nat
      ∧ (hi = 0%nat ∨ ∃ v, series !! hi = Some v ∧ flt (Fin 0) v = true)
      ∧ ∀ i v, (i < length done)%nat → series !! i = Some v →
               flt (Fin 0) v = true → (i ≤ hi)%nat.

(** ** Example tables *)

(** The table of scenario 1: boundaries 2, 4, 8, 16 and two files in the
    second bin, one in the third. *)
Definition scenario_df : DataFrame :=
  mkDF [2; 4; 8; 16]%Z {[ "num_files" := of_Z <$> [0; 2; 1; 0]%Z ]}.



Definition zero_bin_df : DataFrame :=
  mkDF [0; 2; 4]%Z {[ "num_files" := of_Z <$> [5; 1; 0]%Z ]}.

(** The scenario table with a column for every inode type. *)
Definition full_df : DataFrame :=
  mkDF [2; 4; 8; 16]%Z
    {[ "num_files" := of_Z <$> [0; 2; 1; 0]%Z;
       "num_dirs" := of_Z <$> [3; 1; 0; 0]%Z;
       "num_symlinks" := of_Z <$> [0; 1; 0; 0]%Z;
       "num_blks" := of_Z <$> [0; 0; 0; 0]%Z;
       "num_chrs" := of_Z <$> [0; 0; 0; 0]%Z;
       "num_fifos" := of_Z <$> [0; 0; 0; 0]%Z;
       "num_socks" := of_Z <$> [0; 0; 0; 0]%Z ]}.

Definition full_df_types (itype : string) : list fval :=
  if decide (itype = "dirs") then of_Z <$> [3; 1; 0; 0]%Z
  else if decide (itype = "symlinks") then of_Z <$> [0; 1; 0; 0]%Z
  else of_Z <$> [0; 0; 0; 0]%Z.

(** A projected table for the average reduction, and its extents. *)
Definition inode_df : DataFrame :=
  mkDF [2; 4; 8; 16]%Z
    {[ "num_files_ave" := of_Z <$> [0; 4; 2; 0]%Z;
       "num_dirs_ave" := of_Z <$> [6; 2; 0; 0]%Z;
       "num_symlinks_ave" := of_Z <$> [0; 2; 0; 0]%Z;
       "num_blks_ave" := of_Z <$> [0; 0; 0; 0]%Z;
       "num_chrs_ave" := of_Z <$> [0; 0; 0; 0]%Z;
       "num_fifos_ave" := of_Z <$> [0; 0; 0; 0]%Z;
       "num_socks_ave" := of_Z <$> [0; 0; 0; 0]%Z ]}.

Definition inode_df_types (itype : string) : list fval :=
  if decide (itype = "dirs") then of_Z <$> [6; 2; 0; 0]%Z
  else if decide (itype = "symlinks") then of_Z <$> [0; 2; 0; 0]%Z
  else of_Z <$> [0; 0; 0; 0]%Z.

Definition extent_df : DataFrame :=
  mkDF [2; 4; 8; 16]%Z {[ "bin_extent_ave" := of_Z <$> [1; 3; 6; 12]%Z ]}.

(** The counts of the other inode types in [full_df] and in [inode_df]. *)
Definition full_df_type_counts (itype : string) : list Qc :=
  if decide (itype = "dirs") then Qc_of_Z <$> [3; 1; 0; 0]%Z
  else if decide (itype = "symlinks") then Qc_of_Z <$> [0; 1; 0; 0]%Z
  else Qc_of_Z <$> [0; 0; 0; 0]%Z.


(** A table with a min and a max column, one row in the wrong direction
    and one with a missing value. *)
Definition minmax_df : DataFrame :=
  mkDF [2; 4; 8]%Z
    {[ "num_files_min" := [of_Z 1; of_Z 5; NaN];
       "num_files_max" := [of_Z 3; of_Z 4; of_Z 2] ]}.

(** The scenario table with a thousand times the files, a table with a
    single bin, and one without the file counts. *)
Definition scaled_scenario_df : DataFrame :=
  mkDF [2; 4; 8; 16]%Z {[ "num_files" := of_Z <$> [0; 2000; 1000; 0]%Z ]}.

Definition one_bin_df : DataFrame :=
  mkDF [2]%Z {[ "num_files" := of_Z <$> [3]%Z ]}.

Definition no_files_df : DataFrame :=
  mkDF [2; 4; 8; 16]%Z {[ "num_dirs" := of_Z <$> [3; 1; 0; 0]%Z ]}.

(** * Properties *)

(** ** Reduction names *)

(** C10. [invert_redux] is an involution on every string; it swaps "min"
    and "max", fixes "ave", and returns every string other than "min" and
    "max" unchanged. *)
Theorem invert_redux_involutive (r : string) :
  invert_redux (invert_redux r) = r
  ∧ invert_redux "min" = "max"
  ∧ invert_redux "max" = "min"
  ∧ invert_redux "ave" = "ave"
  ∧ (r = "min" ∨ r = "max" ∨ invert_redux r = r).
Proof.
  split_and!; try reflexivity.
  - unfold invert_redux.
    destruct (decide (r = "min")) as [->|Hmin]; [reflexivity|].
    destruct (decide (r = "max")) as [->|Hmax]; [reflexivity|].
    rewrite !decide_False by assumption. reflexivity.
  - unfold invert_redux.
    destruct (decide (r = "min")); [by left|].
    destruct (decide (r = "max")); [by right; left|].
    by right; right.
Qed.

(** ** Frames and loops *)

Lemma getcol_setcol_eq df k c : getcol (setcol df k c) k = Ok c.
Proof. unfold getcol, setcol; simpl. by rewrite lookup_insert_eq. Qed.

Lemma getcol_setcol_ne df k k' c :
  k ≠ k' → getcol (setcol df k c) k' = getcol df k'.
Proof. intros Hne. unfold getcol, setcol; simpl. by rewrite lookup_insert_ne. Qed.

Lemma getitem_insert_eq (d : gmap string fval) k v : getitem (<[k := v]> d) k = Ok v.
Proof. unfold getitem. by rewrite lookup_insert_eq. Qed.

Lemma getitem_insert_ne (d : gmap string fval) k k' v :
  k ≠ k' → getitem (<[k := v]> d) k' = getitem d k'.
Proof. intros Hne. unfold getitem. by rewrite lookup_insert_ne. Qed.

Lemma df_index_setcol df k c : df_index (setcol df k c) = df_index df.
Proof. reflexivity. Qed.

Lemma Ok_inj {A} (x y : A) : Ok x = Ok y → x = y.
Proof. congruence. Qed.

Lemma bind_Ok {A B} (a : A) (k : A → result B) : (Ok a ≫= k) = k a.
Proof. reflexivity. Qed.

(** Evaluates the column names that the loops compose. *)
Ltac names :=
  repeat match goal with
  | |- context [String.append ?a ?b] =>
      let s := eval vm_compute in (String.append a b) in
      change (String.append a b) with s
  | |- context [invert_redux ?a] =>
      let s := eval vm_compute in (invert_redux a) in
      change (invert_redux a) with s
  end.

(** Rewrites the column reads of a frame built by a run of assignments. *)
Ltac df_read :=
  repeat first
    [ rewrite getcol_setcol_eq
    | rewrite getcol_setcol_ne by discriminate
    | rewrite getitem_insert_eq
    | rewrite getitem_insert_ne by discriminate
    | rewrite bind_Ok ].

(** ** Probability distribution *)

Section prob_dist.
Context (reference_df md : DataFrame) (cmin cmax cave : Series).
Hypothesis Hmin : getcol md "dmass_min" = Ok cmin.
Hypothesis Hmax : getcol md "dmass_max" = Ok cmax.
Hypothesis Have : getcol md "dmass_ave" = Ok cave.

Lemma mass_dist_sums_ok :
  mass_dist_sums md =
    Ok (<["dmass_ave" := series_sum cave]>
          (<["dmass_max" := series_sum cmax]>
             (<["dmass_min" := series_sum cmin]> ∅))).
Proof.
  unfold mass_dist_sums, REDUCTIONS; cbn [for_each]; names.
  rewrite Hmin, Hmax, Have. reflexivity.
Qed.

Lemma prob_dist_ok :
  prob_dist reference_df md =
    Ok (setcol (setcol (setcol (new_frame (df_index reference_df))
          "dmass_min" (series_div_scalar cmin (series_sum cmax)))
          "dmass_max" (series_div_scalar cmax (series_sum cmin)))
          "dmass_ave" (series_div_scalar cave (series_sum cave))).
Proof.
  unfold prob_dist. rewrite mass_dist_sums_ok, bind_Ok.
  unfold REDUCTIONS; cbn [for_each]; names.
  rewrite Hmin, Hmax, Have. df_read. reflexivity.
Qed.
End prob_dist.

(** C1. The probability column of every reduction is its mass column
    divided by the total mass of the inverted reduction: min over the max
    total, max over the min total, ave over the ave total; the same holds
    cell by cell. *)
Theorem prob_dist_cross_denominator
    (reference_df md : DataFrame) (cmin cmax cave : Series) :
  getcol md "dmass_min" = Ok cmin →
  getcol md "dmass_max" = Ok cmax →
  getcol md "dmass_ave" = Ok cave →
  ∃ pd, prob_dist reference_df md = Ok pd
    ∧ (∀ redux, redux ∈ REDUCTIONS →
         ∃ mass other,
           getcol md ("dmass_" +:+ redux) = Ok mass
           ∧ getcol md ("dmass_" +:+ invert_redux redux) = Ok other
           ∧ getcol pd ("dmass_" +:+ redux)
             = Ok (series_div_scalar mass (series_sum other))
           ∧ ∀ bin, series_div_scalar mass (series_sum other) !! bin
                    = (λ m, fdiv m (series_sum other)) <$> mass !! bin)
    ∧ getcol pd "dmass_min" = Ok (series_div_scalar cmin (series_sum cmax))
    ∧ getcol pd "dmass_max" = Ok (series_div_scalar cmax (series_sum cmin))
    ∧ getcol pd "dmass_ave" = Ok (series_div_scalar cave (series_sum cave)).
Proof.
  intros Hmin Hmax Have. eexists. split; [by apply prob_dist_ok|].
  split; [|by df_read].
  intros redux Hin. unfold REDUCTIONS in Hin.
  apply elem_of_cons in Hin as [->|Hin]; [|apply elem_of_cons in Hin as [->|Hin]];
    [| |apply list_elem_of_singleton in Hin as ->]; names.
  - exists cmin, cmax. split_and!; [done|done|by df_read|].
    intros bin. unfold series_div_scalar. by rewrite list_lookup_fmap.
  - exists cmax, cmin. split_and!; [done|done|by df_read|].
    intros bin. unfold series_div_scalar. by rewrite list_lookup_fmap.
  - exists cave, cave. split_and!; [done|done|by df_read|].
    intros bin. unfold series_div_scalar. by rewrite list_lookup_fmap.
Qed.

(** ** Bin extents *)

Lemma length_index_inner index : length (index_inner index) = (length index - 2)%nat.
Proof. unfold index_inner. rewrite length_drop, length_take. lia. Qed.

Lemma length_bin_extent_min index :
  length (bin_extent_min index) = (2 + (length index - 2))%nat.
Proof.
  unfold bin_extent_min. rewrite length_app, length_fmap, length_index_inner.
  reflexivity.
Qed.

Lemma index_inner_lookup index i :
  (S (S i) < length index)%nat → index_inner index !! i = index !! S i.
Proof.
  intros Hi. unfold index_inner.
  rewrite lookup_drop, lookup_take_lt by lia. reflexivity.
Qed.

Lemma bin_extent_min_0 index : bin_extent_min index !! 0%nat = Some 0%Z.
Proof. reflexivity. Qed.

Lemma bin_extent_min_1 index : bin_extent_min index !! 1%nat = Some 2%Z.
Proof. reflexivity. Qed.

Lemma bin_extent_min_SS index i hi :
  (S (S i) < length index)%nat →
  index !! S i = Some hi →
  bin_extent_min index !! S (S i) = Some (wrap64 (hi + 1)).
Proof.
  intros Hi Hhi. unfold bin_extent_min. cbn [app lookup list_lookup].
  change (((λ z, wrap64 (z + 1)) <$> index_inner index) !! i = Some (wrap64 (hi + 1))).
  by rewrite list_lookup_fmap, index_inner_lookup, Hhi.
Qed.

Lemma wrap64_id z : (- 2 ^ 63 ≤ z < 2 ^ 63)%Z → wrap64 z = z.
Proof. intros. unfold wrap64. rewrite Z.mod_small; lia. Qed.

Lemma add_bin_extents_ok reference_df :
  (2 ≤ length (df_index reference_df))%nat →
  add_bin_extents reference_df =
    Ok (setcol (setcol (setcol reference_df
          "bin_extent_min" (of_Z <$> bin_extent_min (df_index reference_df)))
          "bin_extent_max" (of_Z <$> bin_extent_max (df_index reference_df)))
          "bin_extent_ave" (bin_extent_ave (df_index reference_df))).
Proof.
  intros Hlen. unfold add_bin_extents, setcol_array.
  rewrite decide_True by (rewrite length_fmap, length_bin_extent_min; lia).
  rewrite bind_Ok, df_index_setcol.
  rewrite decide_True by (by rewrite length_fmap).
  reflexivity.
Qed.

(** With a single bin the first assignment has the wrong length. *)
Lemma add_bin_extents_short reference_df :
  length (df_index reference_df) = 1%nat →
  add_bin_extents reference_df = Raise ValueError.
Proof.
  intros Hlen. unfold add_bin_extents, setcol_array.
  rewrite decide_False by (rewrite length_fmap, length_bin_extent_min; lia).
  rewrite decide_False by (intros Hnil; by rewrite Hnil in Hlen).
  reflexivity.
Qed.

(** A table without rows takes the two positions of the first extent
    column as its index: no assignment raises, and the counts are
    missing. *)
Lemma add_bin_extents_no_rows reference_df :
  df_index reference_df = [] →
  add_bin_extents reference_df =
    Ok (setcol (setcol
          (mkDF [0; 1]%Z
             (<["bin_extent_min" := of_Z <$> [0; 2]%Z]>
                ((λ _, [NaN; NaN]) <$> df_cols reference_df)))
          "bin_extent_max" (of_Z <$> [0; 1]%Z))
          "bin_extent_ave" [of_Z 0; Fin (Qc_of_Z 3 / Qc_of_Z 2)]).
Proof.
  intros Hnil. unfold add_bin_extents, setcol_array. rewrite Hnil.
  cbn [bin_extent_min index_inner length Nat.sub take drop fmap list_fmap app].
  rewrite decide_False by done. rewrite decide_True by done.
  rewrite bind_Ok. cbn [df_index bin_extent_max length seq fmap list_fmap].
  rewrite decide_True by done. rewrite bind_Ok.
  unfold setcol. cbn [df_index df_cols]. do 3 f_equal.
  compute_done.
Qed.

(** ** Exact arithmetic *)

Lemma Qc_pos_ne0 (x : Qc) : 0 < x → x ≠ 0.
Proof. intros Hx ->. by apply (irreflexivity Qclt 0). Qed.

Lemma is_zero_false (x : Qc) : x ≠ 0 → is_zero x = false.
Proof. intros. unfold is_zero. by rewrite bool_decide_eq_false. Qed.

Lemma is_zero_true (x : Qc) : x = 0 → is_zero x = true.
Proof. intros. unfold is_zero. by rewrite bool_decide_eq_true. Qed.

Lemma is_pos_true (x : Qc) : 0 < x → is_pos x = true.
Proof. intros. unfold is_pos. by rewrite bool_decide_eq_true. Qed.

Lemma frac_le (a b d e : Qc) : 0 ≤ a → a ≤ b → 0 < d → d ≤ e → a / e ≤ b / d.
Proof.
  intros Ha Hab Hd Hde.
  assert (He : 0 < e) by (eapply Qclt_le_trans; eauto).
  trans (a / d).
  - unfold Qcdiv. apply Qcmult_le_mono_nonneg_l; [done|].
    apply (Qcmult_le_mono_pos_l _ _ e); [done|].
    rewrite Qcmult_inv_r by (by apply Qc_pos_ne0).
    apply (Qcmult_le_mono_pos_r _ _ d); [done|].
    rewrite <-Qcmult_assoc, Qcmult_inv_l by (by apply Qc_pos_ne0).
    by rewrite Qcmult_1_l, Qcmult_1_r.
  - unfold Qcdiv. apply Qcmult_le_mono_nonneg_r; [|done].
    by apply Qclt_le_weak, Qcinv_pos.
Qed.

Lemma Qcdiv_le_1 (a b : Qc) : 0 ≤ a → a ≤ b → 0 < b → a / b ≤ 1.
Proof.
  intros Ha Hab Hb.
  replace 1 with (b / b) by (field; by apply Qc_pos_ne0).
  by apply frac_le.
Qed.

Lemma Qcdiv_ge_1 (a b : Qc) : 0 < a → a ≤ b → 1 ≤ b / a.
Proof.
  intros Ha Hab.
  replace 1 with (a / a) by (field; by apply Qc_pos_ne0).
  apply frac_le; [by apply Qclt_le_weak|done|done|done].
Qed.

Lemma Qc_half_double (a : Qc) : (a + a) / 2 = a.
Proof. field. done. Qed.

Lemma Qc_half_between (a b : Qc) : a ≤ b → a ≤ (a + b) / 2 ∧ (a + b) / 2 ≤ b.
Proof.
  intros Hab. split.
  - trans ((a + a) / 2); [by rewrite Qc_half_double|].
    unfold Qcdiv. apply Qcmult_le_mono_nonneg_r; [done|].
    by apply Qcplus_le_mono_l.
  - trans ((b + b) / 2); [|by rewrite Qc_half_double].
    unfold Qcdiv. apply Qcmult_le_mono_nonneg_r; [done|].
    by apply Qcplus_le_mono_r.
Qed.

Lemma sumq_nonneg qs : Forall (λ q, 0 ≤ q) qs → 0 ≤ sumq qs.
Proof.
  induction 1 as [|q qs Hq _ IH]; simpl; [done|].
  by apply Qcplus_nonneg_nonneg.
Qed.

Lemma sumq_le qs rs : Forall2 Qcle qs rs → sumq qs ≤ sumq rs.
Proof.
  induction 1 as [|q r qs rs Hqr _ IH]; simpl; [done|].
  by apply Qcplus_le_compat.
Qed.

Lemma sumq_fmap_div qs t : sumq ((λ q, q / t) <$> qs) = sumq qs / t.
Proof.
  induction qs as [|q qs IH]; [unfold Qcdiv; by rewrite Qcmult_0_l|].
  rewrite fmap_cons. cbn [sumq]. rewrite IH.
  unfold Qcdiv. by rewrite Qcmult_plus_distr_l.
Qed.

(** ** Columns of finite cells *)

Lemma foldl_fadd_fins a qs : foldl fadd (Fin a) (fins qs) = Fin (a + sumq qs).
Proof.
  revert a. induction qs as [|q qs IH]; intros a; simpl.
  - by rewrite Qcplus_0_r.
  - rewrite IH. by rewrite Qcplus_assoc.
Qed.

Lemma filter_not_nan_fins qs : filter (λ x, is_nan x = false) (fins qs) = fins qs.
Proof.
  induction qs as [|q qs IH]; [done|]. unfold fins in *. rewrite fmap_cons.
  rewrite filter_cons_True by done. by rewrite IH.
Qed.

Lemma series_sum_fins qs : series_sum (fins qs) = Fin (sumq qs).
Proof.
  unfold series_sum. rewrite filter_not_nan_fins, foldl_fadd_fins.
  by rewrite Qcplus_0_l.
Qed.

Lemma series_mul_fins qs rs :
  series_mul (fins qs) (fins rs) = fins (zip_with Qcmult qs rs).
Proof.
  unfold series_mul, fins. revert rs.
  induction qs as [|q qs IH]; intros [|r rs]; simpl; [done..|]. by rewrite IH.
Qed.

Lemma fillna_fins v qs : fillna v (fins qs) = fins qs.
Proof.
  unfold fillna, fins. rewrite <-list_fmap_compose. by apply list_fmap_ext.
Qed.

Lemma series_div_scalar_fins qs t :
  t ≠ 0 → series_div_scalar (fins qs) (Fin t) = fins ((λ q, q / t) <$> qs).
Proof.
  intros Ht. unfold series_div_scalar, fins. rewrite <-!list_fmap_compose.
  apply list_fmap_ext. intros i q _. simpl. by rewrite is_zero_false.
Qed.

Lemma frame_sum_setcol df k c :
  frame_sum (setcol df k c) = <[k := series_sum c]> (frame_sum df).
Proof. unfold frame_sum, setcol; simpl. by rewrite fmap_insert. Qed.

(** ** Sums of the probability columns *)

(** C3, as stated, fails: on the scenario table the total mass is positive
    under every reduction (9, 16 and 25/2), yet the min column sums to 9/16
    and the max column to 16/9. *)
Lemma prob_dist_sum_counterexample :
  ∃ ref md pd,
    add_bin_extents scenario_df = Ok ref
    ∧ mass_dist ref = Ok md
    ∧ prob_dist ref md = Ok pd
    ∧ frame_sum md !! "dmass_min" = Some (of_Z 9)
    ∧ frame_sum md !! "dmass_max" = Some (of_Z 16)
    ∧ frame_sum md !! "dmass_ave" = Some (Fin (Qc_of_Z 25 / Qc_of_Z 2))
    ∧ frame_sum pd !! "dmass_min" = Some (Fin (Qc_of_Z 9 / Qc_of_Z 16))
    ∧ frame_sum pd !! "dmass_max" = Some (Fin (Qc_of_Z 16 / Qc_of_Z 9))
    ∧ frame_sum pd !! "dmass_min" ≠ Some (Fin 1)
    ∧ frame_sum pd !! "dmass_max" ≠ Some (Fin 1).
Proof.
  do 3 eexists. split_and!; [reflexivity|reflexivity|reflexivity|..];
    compute_done.
Qed.

(** C3, amended. On finite mass columns every probability column is
    divided by the total of the opposite convention.  The ave column sums
    to 1 as soon as the ave total is not 0.  The min column sums to the
    min total over the max total as soon as the max total is not 0, and
    the max column to the max total over the min total as soon as the min
    total is not 0, the total in the denominator being within the int64
    range, where the sum of an int64 mass column is exact. *)
Theorem prob_dist_sums
    (reference_df md : DataFrame) (mmin mmax mave : list Qc) :
  getcol md "dmass_min" = Ok (fins mmin) →
  getcol md "dmass_max" = Ok (fins mmax) →
  getcol md "dmass_ave" = Ok (fins mave) →
  ∃ pd, prob_dist reference_df md = Ok pd
    ∧ (sumq mave ≠ 0 → frame_sum pd !! "dmass_ave" = Some (Fin 1))
    ∧ (sumq mmax ≠ 0 → in_int64 (sumq mmax) →
       frame_sum pd !! "dmass_min" = Some (Fin (sumq mmin / sumq mmax)))
    ∧ (sumq mmin ≠ 0 → in_int64 (sumq mmin) →
       frame_sum pd !! "dmass_max" = Some (Fin (sumq mmax / sumq mmin))).
Proof.
  intros Hmin Hmax Have.
  eexists. split; [by apply prob_dist_ok|].
  rewrite !frame_sum_setcol, !series_sum_fins.
  split_and!.
  - intros Hs. rewrite lookup_insert_eq.
    rewrite series_div_scalar_fins, series_sum_fins, sumq_fmap_div by done.
    do 2 f_equal. by field.
  - intros Hs _. rewrite !lookup_insert_ne by discriminate.
    rewrite lookup_insert_eq.
    by rewrite series_div_scalar_fins, series_sum_fins, sumq_fmap_div by done.
  - intros Hs _. rewrite lookup_insert_ne by discriminate.
    rewrite lookup_insert_eq.
    by rewrite series_div_scalar_fins, series_sum_fins, sumq_fmap_div by done.
Qed.

(** The masses of the scenario table, and those of five files in its first
    bin, whose min total is 0: the ave column still sums to 1 and the min
    column to 0. *)
Lemma prob_dist_sums_witness :
  (let mmin := Qc_of_Z <$> [0; 4; 5; 0]%Z in
   let mmax := Qc_of_Z <$> [0; 8; 8; 0]%Z in
   let mave := [Qc_of_Z 0; Qc_of_Z 6; Qc_of_Z 13 / 2; Qc_of_Z 0] in
   ∃ pd, prob_dist scenario_df
           (mkDF [2; 4; 8; 16]%Z
              {[ "dmass_min" := fins mmin; "dmass_max" := fins mmax;
                 "dmass_ave" := fins mave ]}) = Ok pd
     ∧ frame_sum pd !! "dmass_ave" = Some (Fin 1)
     ∧ frame_sum pd !! "dmass_min" = Some (Fin (sumq mmin / sumq mmax))
     ∧ frame_sum pd !! "dmass_max" = Some (Fin (sumq mmax / sumq mmin)))
  ∧ (let mmin := Qc_of_Z <$> [0; 0; 0; 0]%Z in
     let mmax := Qc_of_Z <$> [10; 0; 0; 0]%Z in
     let mave := Qc_of_Z <$> [5; 0; 0; 0]%Z in
     ∃ pd, prob_dist scenario_df
             (mkDF [2; 4; 8; 16]%Z
                {[ "dmass_min" := fins mmin; "dmass_max" := fins mmax;
                   "dmass_ave" := fins mave ]}) = Ok pd
       ∧ frame_sum pd !! "dmass_ave" = Some (Fin 1)
       ∧ frame_sum pd !! "dmass_min" = Some (Fin (sumq mmin / sumq mmax))).
Proof.
  split.
  - intros mmin mmax mave.
    destruct (prob_dist_sums scenario_df
                (mkDF [2; 4; 8; 16]%Z
                   {[ "dmass_min" := fins mmin; "dmass_max" := fins mmax;
                      "dmass_ave" := fins mave ]}) mmin mmax mave)
      as (pd & Hpd & Ha & Hn & Hx); [reflexivity..|].
    exists pd. split; [exact Hpd|].
    split; [apply Ha; compute_done|].
    split; [apply Hn; compute_done|apply Hx; compute_done].
  - intros mmin mmax mave.
    destruct (prob_dist_sums scenario_df
                (mkDF [2; 4; 8; 16]%Z
                   {[ "dmass_min" := fins mmin; "dmass_max" := fins mmax;
                      "dmass_ave" := fins mave ]}) mmin mmax mave)
      as (pd & Hpd & Ha & Hn & _); [reflexivity..|].
    exists pd. split; [exact Hpd|].
    split; [apply Ha; compute_done|apply Hn; compute_done].
Defined.

(** ** The derived extents *)

(** C5, as stated, fails: with boundaries 2, 4, 8, 16 the second bin starts
    at the constant 2, not at 2 + 1. *)
Lemma bin_extent_min_counterexample :
  ∃ ref, add_bin_extents scenario_df = Ok ref
    ∧ getcol ref "bin_extent_min" = Ok (of_Z <$> [0; 2; 5; 9]%Z)
    ∧ getcol ref "bin_extent_max" = Ok (of_Z <$> [2; 4; 8; 16]%Z)
    ∧ ¬ (∀ i lo hi,
           bin_extent_min (df_index scenario_df) !! S i = Some lo →
           bin_extent_max (df_index scenario_df) !! i = Some hi →
           lo = (hi + 1)%Z).
Proof.
  eexists. split_and!; [reflexivity|reflexivity|reflexivity|].
  intros H. specialize (H 0%nat 2%Z 2%Z eq_refl eq_refl). discriminate.
Qed.

Lemma bin_extent_min_range index i lo :
  Forall (λ z, (0 ≤ z < 2 ^ 62)%Z) index →
  bin_extent_min index !! i = Some lo → (0 ≤ lo ≤ 2 ^ 62)%Z.
Proof.
  intros Hidx Hlo.
  destruct i as [|[|i]]; [injection Hlo as <-; lia..|].
  unfold bin_extent_min in Hlo. cbn [app lookup list_lookup] in Hlo.
  change (((λ z, wrap64 (z + 1)) <$> index_inner index) !! i = Some lo) in Hlo.
  rewrite list_lookup_fmap in Hlo.
  destruct (index_inner index !! i) as [z|] eqn:Hz; [|done].
  injection Hlo as <-.
  assert (0 ≤ z < 2 ^ 62)%Z as Hr.
  { unfold index_inner in Hz. rewrite lookup_drop in Hz.
    apply lookup_take_Some in Hz as [Hz _].
    by eapply (Forall_lookup_1 _ _ _ _ Hidx). }
  rewrite wrap64_id; lia.
Qed.

Lemma bin_extent_ave_lookup index i lo hi :
  Forall (λ z, (0 ≤ z < 2 ^ 62)%Z) index →
  bin_extent_min index !! i = Some lo →
  index !! i = Some hi →
  bin_extent_ave index !! i = Some (Fin ((Qc_of_Z lo + Qc_of_Z hi) / 2)).
Proof.
  intros Hidx Hlo Hhi. unfold bin_extent_ave, bin_extent_max.
  rewrite lookup_zip_with, Hlo, Hhi. cbn [mbind option_bind]. f_equal.
  pose proof (bin_extent_min_range _ _ _ Hidx Hlo).
  pose proof (Forall_lookup_1 _ _ _ _ Hidx Hhi) as Hr; simpl in Hr.
  rewrite wrap64_id by lia. unfold of_Z, fdiv.
  rewrite is_zero_false by done. by rewrite Z2Qc_inj_add, Z2Qc_inj_2.
Qed.

(** C5, amended. For at least two boundaries, all in [0, 2^62), the first
    bin starts at 0, the second bin starts at the constant 2, every later
    bin starts one above the boundary before it, and the average extent is
    the midpoint of the bin. *)
Theorem bin_extents_spec (reference_df : DataFrame) :
  (2 ≤ length (df_index reference_df))%nat →
  Forall (λ z, (0 ≤ z < 2 ^ 62)%Z) (df_index reference_df) →
  let index := df_index reference_df in
  ∃ ref, add_bin_extents reference_df = Ok ref
    ∧ getcol ref "bin_extent_min" = Ok (of_Z <$> bin_extent_min index)
    ∧ getcol ref "bin_extent_max" = Ok (of_Z <$> bin_extent_max index)
    ∧ getcol ref "bin_extent_ave" = Ok (bin_extent_ave index)
    ∧ bin_extent_max index = index
    ∧ bin_extent_min index !! 0%nat = Some 0%Z
    ∧ bin_extent_min index !! 1%nat = Some 2%Z
    ∧ (∀ i hi, (1 ≤ i)%nat → (S i < length index)%nat →
         bin_extent_max index !! i = Some hi →
         bin_extent_min index !! S i = Some (hi + 1)%Z)
    ∧ (∀ i lo hi,
         bin_extent_min index !! i = Some lo →
         bin_extent_max index !! i = Some hi →
         bin_extent_ave index !! i = Some (Fin ((Qc_of_Z lo + Qc_of_Z hi) / 2))).
Proof.
  intros Hlen Hidx index. eexists.
  split; [by apply add_bin_extents_ok|].
  split_and!; [by df_read..|done|done|done| |].
  - intros [|i] hi Hi Hlt Hhi; [lia|].
    rewrite (bin_extent_min_SS _ _ hi) by done. f_equal.
    pose proof (Forall_lookup_1 _ _ _ _ Hidx Hhi) as Hr; simpl in Hr.
    apply wrap64_id. lia.
  - intros i lo hi Hlo Hhi. by apply bin_extent_ave_lookup.
Qed.

Lemma bin_extents_spec_witness :
  let index := [2; 4; 8; 16]%Z in
  ∃ ref, add_bin_extents scenario_df = Ok ref
    ∧ getcol ref "bin_extent_min" = Ok (of_Z <$> bin_extent_min index)
    ∧ getcol ref "bin_extent_max" = Ok (of_Z <$> bin_extent_max index)
    ∧ getcol ref "bin_extent_ave" = Ok (bin_extent_ave index)
    ∧ bin_extent_max index = index
    ∧ bin_extent_min index !! 0%nat = Some 0%Z
    ∧ bin_extent_min index !! 1%nat = Some 2%Z
    ∧ (∀ i hi, (1 ≤ i)%nat → (S i < length index)%nat →
         bin_extent_max index !! i = Some hi →
         bin_extent_min index !! S i = Some (hi + 1)%Z)
    ∧ (∀ i lo hi,
         bin_extent_min index !! i = Some lo →
         bin_extent_max index !! i = Some hi →
         bin_extent_ave index !! i = Some (Fin ((Qc_of_Z lo + Qc_of_Z hi) / 2))).
Proof.
  apply (bin_extents_spec scenario_df); [simpl; lia|].
  repeat constructor; simpl; lia.
Defined.

(** ** The cells of the projected table *)

Lemma projected_col_lookup target counts e other d i n ei di :
  counts !! i = Some n → e !! i = Some ei → d !! i = Some di →
  projected_col target counts e other d !! i
  = Some (projected_cell target n ei (series_sum (mass_col counts other)) di).
Proof.
  intros Hn He Hd.
  unfold projected_col, mass_col, fillna, series_div, series_mul_scalar,
    series_div_scalar, series_mul.
  rewrite list_lookup_fmap, lookup_zip_with, !list_lookup_fmap, lookup_zip_with.
  rewrite Hn, He, Hd. reflexivity.
Qed.

Lemma length_projected_col target counts e other d :
  length e = length counts → length d = length counts →
  length (projected_col target counts e other d) = length counts.
Proof.
  intros He Hd.
  unfold projected_col, mass_col, fillna, series_div, series_mul_scalar,
    series_div_scalar, series_mul.
  rewrite length_fmap, length_zip_with, !length_fmap, length_zip_with. lia.
Qed.

Section stages.
Context (reference_df : DataFrame) (counts emin emax eave : list fval).
Hypothesis Hcounts : getcol reference_df "num_files" = Ok counts.
Hypothesis Hemin : getcol reference_df "bin_extent_min" = Ok emin.
Hypothesis Hemax : getcol reference_df "bin_extent_max" = Ok emax.
Hypothesis Heave : getcol reference_df "bin_extent_ave" = Ok eave.

Lemma mass_dist_ok :
  mass_dist reference_df =
    Ok (setcol (setcol (setcol (new_frame (df_index reference_df))
          "dmass_min" (mass_col counts emin))
          "dmass_max" (mass_col counts emax))
          "dmass_ave" (mass_col counts eave)).
Proof.
  unfold mass_dist, REDUCTIONS; cbn [for_each]; names.
  rewrite Hcounts, Hemin, Hemax, Heave. reflexivity.
Qed.

Lemma new_mass_dist_ok target pd pmin pmax pave :
  getcol pd "dmass_min" = Ok pmin →
  getcol pd "dmass_max" = Ok pmax →
  getcol pd "dmass_ave" = Ok pave →
  new_mass_dist target reference_df pd =
    Ok (setcol (setcol (setcol (new_frame (df_index reference_df))
          "dmass_min" (series_mul_scalar pmin target))
          "dmass_max" (series_mul_scalar pmax target))
          "dmass_ave" (series_mul_scalar pave target)).
Proof.
  intros Hmin Hmax Have.
  unfold new_mass_dist, REDUCTIONS; cbn [for_each]; names.
  rewrite Hmin, Hmax, Have. reflexivity.
Qed.

Lemma newfs_df_files_ok nmd nmin nmax nave :
  getcol nmd "dmass_min" = Ok nmin →
  getcol nmd "dmass_max" = Ok nmax →
  getcol nmd "dmass_ave" = Ok nave →
  newfs_df_files reference_df nmd =
    Ok (setcol (setcol (setcol (new_frame (df_index reference_df))
          "num_files_min" (fillna (Fin 0) (series_div nmin emax)))
          "num_files_max" (fillna (Fin 0) (series_div nmax (max_1 <$> emin))))
          "num_files_ave" (fillna (Fin 0) (series_div nave eave))).
Proof.
  intros Hmin Hmax Have. unfold newfs_df_files.
  rewrite Hmin, Hmax, Have, Hemin, Hemax, Heave. reflexivity.
Qed.

(** The three file-count columns, from the cell that builds the mass
    distribution to the cell that builds [newfs_df]. *)
Lemma rescale_ok target :
  rescale target reference_df =
    Ok (setcol (setcol (setcol (new_frame (df_index reference_df))
          "num_files_min" (projected_col target counts emin emax emax))
          "num_files_max" (projected_col target counts emax emin (max_1 <$> emin)))
          "num_files_ave" (projected_col target counts eave eave eave)).
Proof.
  unfold rescale. rewrite mass_dist_ok, bind_Ok.
  erewrite prob_dist_ok by (df_read; reflexivity). rewrite bind_Ok.
  erewrite new_mass_dist_ok by (df_read; reflexivity). rewrite bind_Ok.
  erewrite newfs_df_files_ok by (df_read; reflexivity).
  reflexivity.
Qed.
End stages.

Lemma project_files_ok target reference_df counts :
  (2 ≤ length (df_index reference_df))%nat →
  getcol reference_df "num_files" = Ok counts →
  let index := df_index reference_df in
  let emin := of_Z <$> bin_extent_min index in
  let emax := of_Z <$> bin_extent_max index in
  let eave := bin_extent_ave index in
  project_files target reference_df =
    Ok (setcol (setcol (setcol (new_frame index)
          "num_files_min" (projected_col target counts emin emax emax))
          "num_files_max" (projected_col target counts emax emin (max_1 <$> emin)))
          "num_files_ave" (projected_col target counts eave eave eave)).
Proof.
  intros Hlen Hcounts index emin emax eave. unfold project_files.
  rewrite add_bin_extents_ok, bind_Ok by done.
  erewrite rescale_ok; [reflexivity| | | |]; df_read; try reflexivity.
  exact Hcounts.
Qed.

(** ** Valid bins *)

Lemma bins_ok_length index : bins_ok index → (2 ≤ length index)%nat.
Proof.
  intros H. apply Forall2_length in H.
  rewrite length_bin_extent_min in H. unfold bin_extent_max in H. lia.
Qed.

Lemma bins_ok_range index : bins_ok index → Forall (λ z, (0 ≤ z < 2 ^ 62)%Z) index.
Proof.
  intros H. apply Forall_lookup_2. intros i hi Hhi.
  destruct (Forall2_lookup_r _ _ _ _ _ H Hhi) as (lo & _ & _ & ?). simpl. lia.
Qed.

Lemma bins_ok_lookup index i lo hi :
  bins_ok index →
  bin_extent_min index !! i = Some lo → index !! i = Some hi →
  (0 ≤ lo ≤ hi)%Z ∧ (0 < hi < 2 ^ 62)%Z.
Proof.
  intros H Hlo Hhi.
  pose proof (bin_extent_min_range _ _ _ (bins_ok_range _ H) Hlo).
  pose proof (Forall2_lookup_lr _ _ _ _ _ _ H Hlo Hhi). simpl in *. lia.
Qed.

(** Strictly increasing boundaries from 1 upwards, as the powers of two
    are, make valid bins. *)
Lemma increasing_bins_ok index :
  (2 ≤ length index)%nat →
  Forall (λ z, (1 ≤ z < 2 ^ 62)%Z) index →
  (∀ i lo hi, index !! i = Some lo → index !! S i = Some hi → (lo < hi)%Z) →
  bins_ok index.
Proof.
  intros Hlen Hrange Hinc. unfold bins_ok, bin_extent_max.
  apply Forall2_same_length_lookup_2; [rewrite length_bin_extent_min; lia|].
  intros i lo hi Hlo Hhi.
  pose proof (Forall_lookup_1 _ _ _ _ Hrange Hhi) as Hr; simpl in Hr.
  destruct i as [|[|i]].
  - injection Hlo as <-. lia.
  - injection Hlo as <-.
    destruct (lookup_lt_is_Some_2 index 0) as [z Hz]; [lia|].
    pose proof (Forall_lookup_1 _ _ _ _ Hrange Hz) as Hrz; simpl in Hrz.
    pose proof (Hinc _ _ _ Hz Hhi). lia.
  - destruct (lookup_lt_is_Some_2 index (S i)) as [z Hz].
    { apply lookup_lt_Some in Hhi. lia. }
    pose proof (Forall_lookup_1 _ _ _ _ Hrange Hz) as Hrz; simpl in Hrz.
    rewrite (bin_extent_min_SS _ _ z) in Hlo by (done || by eapply lookup_lt_Some).
    injection Hlo as <-. rewrite wrap64_id by lia.
    pose proof (Hinc _ _ _ Hz Hhi). lia.
Qed.

(** ** Order of the projected cells *)

Lemma projected_cell_fin t c e S d :
  S ≠ 0 → d ≠ 0 →
  projected_cell (Fin t) (Fin c) (Fin e) (Fin S) (Fin d) = Fin (c * e / S * t / d).
Proof.
  intros HS Hd. unfold projected_cell. simpl.
  rewrite (is_zero_false S) by done. simpl.
  by rewrite (is_zero_false d) by done.
Qed.

Lemma fmul_zero_or_nan a x : zero_or_nan a → zero_or_nan (fmul a x).
Proof.
  intros [->| ->]; [|by right].
  destruct x as [q| | |]; simpl; [left|right..]; try done.
  by rewrite Qcmult_0_l.
Qed.

Lemma fdiv_zero_or_nan a x : zero_or_nan a → zero_or_nan (fdiv a x).
Proof.
  intros [->| ->]; [|by right].
  destruct x as [q| | |]; [|by left..|by right].
  unfold fdiv. destruct (is_zero q); [right; reflexivity|left].
  f_equal. unfold Qcdiv. apply Qcmult_0_l.
Qed.

Lemma fillna1_zero_or_nan a : zero_or_nan a → fillna1 (Fin 0) a = Fin 0.
Proof. by intros [->| ->]. Qed.

Lemma projected_cell_zero target e total d :
  projected_cell target (Fin 0) e total d = Fin 0.
Proof.
  unfold projected_cell.
  apply fillna1_zero_or_nan, fdiv_zero_or_nan, fmul_zero_or_nan, fdiv_zero_or_nan.
  left. apply fillna1_zero_or_nan. rewrite <-(fillna1_zero_or_nan (Fin 0)) by by left.
  apply fmul_zero_or_nan. by left.
Qed.

Lemma projected_cell_inf t c e d :
  0 < c * e → 0 < t → 0 < d →
  projected_cell (Fin t) (Fin c) (Fin e) (Fin 0) (Fin d) = PInf.
Proof.
  intros Hce Ht Hd. unfold projected_cell. simpl.
  rewrite (is_zero_false (c * e)), (is_pos_true (c * e))
    by (done || by apply Qc_pos_ne0).
  simpl. rewrite (is_zero_false t), (is_pos_true t) by (done || by apply Qc_pos_ne0).
  simpl. by rewrite (is_pos_true d), orb_true_r.
Qed.

(** The order of the three bounds in one bin: [lo ≤ ave ≤ hi] are the
    extents of the bin, [m] the floored minimum extent, and the totals
    are ordered as the extents are. *)
Lemma cells_ordered (t c lo ave hi m Smin Save Smax : Qc) :
  0 < t → 0 ≤ c →
  0 ≤ lo → lo ≤ ave → ave ≤ hi → 0 < ave → 0 < m → m ≤ hi →
  0 ≤ Smin → Smin ≤ Save → Save ≤ Smax → 0 < Save →
  fle (projected_cell (Fin t) (Fin c) (Fin lo) (Fin Smax) (Fin hi))
      (projected_cell (Fin t) (Fin c) (Fin ave) (Fin Save) (Fin ave)) = true
  ∧ fle (projected_cell (Fin t) (Fin c) (Fin ave) (Fin Save) (Fin ave))
        (projected_cell (Fin t) (Fin c) (Fin hi) (Fin Smin) (Fin m)) = true.
Proof.
  intros Ht Hc Hlo Hla Hah Have Hm Hmh HSmin HSma HSam HSave.
  assert (0 < hi) as Hhi by (by apply (Qclt_le_trans _ ave)).
  assert (0 < Smax) as HSmax by (by apply (Qclt_le_trans _ Save)).
  assert (0 ≤ c * t) as Hct by (apply Qcmult_nonneg_nonneg; [done|by apply Qclt_le_weak]).
  pose proof (Qc_pos_ne0 _ Ht). pose proof (Qc_pos_ne0 _ Have).
  pose proof (Qc_pos_ne0 _ Hhi). pose proof (Qc_pos_ne0 _ HSmax).
  pose proof (Qc_pos_ne0 _ HSave). pose proof (Qc_pos_ne0 _ Hm).
  rewrite (projected_cell_fin t c lo Smax hi) by done.
  rewrite (projected_cell_fin t c ave Save ave) by done.
  replace (c * lo / Smax * t / hi) with (c * t * (lo / hi) / Smax) by (by field).
  replace (c * ave / Save * t / ave) with (c * t / Save) by (by field).
  split.
  - simpl. apply bool_decide_eq_true. apply frac_le; [|..|done|done].
    + apply Qcmult_nonneg_nonneg; [done|].
      unfold Qcdiv. apply Qcmult_nonneg_nonneg; [done|].
      by apply Qclt_le_weak, Qcinv_pos.
    + rewrite <-(Qcmult_1_r (c * t)) at 2.
      apply Qcmult_le_mono_nonneg_l; [done|].
      apply Qcdiv_le_1; [done| |done]. by trans ave.
  - destruct (decide (Smin = 0)) as [->|HSmin0].
    + destruct (decide (c = 0)) as [->|Hc0].
      * rewrite projected_cell_zero.
        replace (Q2Qc 0 * t / Save) with (Q2Qc 0); [done|].
        unfold Qcdiv. by rewrite !Qcmult_0_l.
      * rewrite projected_cell_inf; [done| |done|done].
        apply Qcmult_pos_pos; [|done].
        destruct (Qcle_lt_or_eq _ _ Hc) as [?|?]; [done|congruence].
    + assert (0 < Smin) as HSminp.
      { destruct (Qcle_lt_or_eq _ _ HSmin) as [?|?]; [done|congruence]. }
      rewrite (projected_cell_fin t c hi Smin m) by done.
      replace (c * hi / Smin * t / m) with (c * t * (hi / m) / Smin) by (by field).
      simpl. apply bool_decide_eq_true. apply frac_le; [done| |done|done].
      rewrite <-(Qcmult_1_r (c * t)) at 1.
      apply Qcmult_le_mono_nonneg_l; [done|].
      by apply Qcdiv_ge_1.
Qed.

(** ** Finite tables *)

Lemma Qc_of_Z_le n m : (n ≤ m)%Z → Qc_of_Z n ≤ Qc_of_Z m.
Proof. apply Z2Qc_inj_le. Qed.

Lemma Qc_of_Z_lt n m : (n < m)%Z → Qc_of_Z n < Qc_of_Z m.
Proof. apply Z2Qc_inj_lt. Qed.

Lemma of_Z_fins (l : list Z) : of_Z <$> l = fins (Qc_of_Z <$> l).
Proof. unfold fins, of_Z. by rewrite <-list_fmap_compose. Qed.

Lemma bin_extent_ave_fins index :
  Forall (λ z, (0 ≤ z < 2 ^ 62)%Z) index → bin_extent_ave index = fins (eave_q index).
Proof.
  intros Hidx. apply list_eq. intros i.
  unfold fins, eave_q. rewrite list_lookup_fmap, lookup_zip_with.
  destruct (bin_extent_min index !! i) as [lo|] eqn:Hlo;
    [destruct (bin_extent_max index !! i) as [hi|] eqn:Hhi|].
  - by rewrite (bin_extent_ave_lookup _ _ lo hi).
  - unfold bin_extent_ave. by rewrite lookup_zip_with, Hlo, Hhi.
  - unfold bin_extent_ave. by rewrite lookup_zip_with, Hlo.
Qed.

Lemma bin_extent_ave_fins_wrap index : bin_extent_ave index = fins (eave_wrap_q index).
Proof.
  unfold bin_extent_ave, eave_wrap_q, fins.
  generalize (bin_extent_min index) (bin_extent_max index).
  induction l as [|a l IH]; intros [|b k]; [done..|].
  simpl. by rewrite IH.
Qed.

Lemma mass_col_fins cs es : mass_col (fins cs) (fins es) = fins (massq cs es).
Proof. unfold mass_col. by rewrite series_mul_fins, fillna_fins. Qed.

Lemma series_sum_mass_col cs es :
  series_sum (mass_col (fins cs) (fins es)) = Fin (totalq cs es).
Proof. by rewrite mass_col_fins, series_sum_fins. Qed.

Lemma totalq_le cs es fs :
  Forall (λ c, 0 ≤ c) cs → Forall2 Qcle es fs → totalq cs es ≤ totalq cs fs.
Proof.
  intros Hcs Hef. apply sumq_le. unfold massq.
  revert es fs Hef. induction Hcs as [|c cs Hc _ IH]; intros es fs Hef; [constructor|].
  destruct Hef as [|e f es fs Hle Hef]; [constructor|].
  simpl. constructor; [by apply Qcmult_le_mono_nonneg_l|by apply IH].
Qed.

Lemma totalq_nonneg cs es :
  Forall (λ c, 0 ≤ c) cs → Forall (λ e, 0 ≤ e) es → 0 ≤ totalq cs es.
Proof.
  intros Hcs Hes. apply sumq_nonneg. unfold massq.
  revert es Hes. induction Hcs as [|c cs Hc _ IH]; intros es Hes; [constructor|].
  destruct Hes as [|e es He Hes]; [constructor|].
  simpl. constructor; [by apply Qcmult_nonneg_nonneg|by apply IH].
Qed.

Section valid_bins.
Context (index : list Z) (Hbins : bins_ok index).

Lemma length_emin_q : length (emin_q index) = length index.
Proof.
  unfold emin_q. rewrite length_fmap, length_bin_extent_min.
  pose proof (bins_ok_length _ Hbins). lia.
Qed.

Lemma length_eave_q : length (eave_q index) = length index.
Proof.
  unfold eave_q, bin_extent_max. rewrite length_zip_with, length_bin_extent_min.
  pose proof (bins_ok_length _ Hbins). lia.
Qed.

Lemma extents_q_lookup i lo hi :
  emin_q index !! i = Some lo → emax_q index !! i = Some hi →
  ∃ ave m, eave_q index !! i = Some ave
    ∧ max_1 (Fin lo) = Fin m
    ∧ 0 ≤ lo ∧ lo ≤ ave ∧ ave ≤ hi ∧ 0 < ave ∧ 0 < m ∧ m ≤ hi.
Proof.
  unfold emin_q, emax_q, eave_q, bin_extent_max.
  rewrite !list_lookup_fmap, lookup_zip_with.
  destruct (bin_extent_min index !! i) as [zlo|] eqn:Hlo; [|done].
  destruct (index !! i) as [zhi|] eqn:Hhi; [|done].
  intros [= <-] [= <-].
  destruct (bins_ok_lookup _ _ _ _ Hbins Hlo Hhi) as [Hr1 Hr2].
  assert (Qc_of_Z zlo ≤ Qc_of_Z zhi) as Hle by (apply Qc_of_Z_le; lia).
  assert (0 ≤ Qc_of_Z zlo) as Hlo0.
  { rewrite <-Z2Qc_inj_0. apply Qc_of_Z_le. lia. }
  assert (0 < Qc_of_Z zhi) as Hhi0.
  { rewrite <-Z2Qc_inj_0. apply Qc_of_Z_lt. lia. }
  destruct (Qc_half_between _ _ Hle) as [Hb1 Hb2].
  eexists _, (if decide (1 < Qc_of_Z zlo) then Qc_of_Z zlo else 1).
  split; [reflexivity|]. split_and!; try done.
  - unfold max_1, flt. destruct (decide (1 < Qc_of_Z zlo)) as [H1|H1].
    + by rewrite bool_decide_eq_true_2.
    + by rewrite bool_decide_eq_false_2.
  - unfold Qcdiv. apply Qcmult_pos_pos; [|done].
    by apply Qcplus_nonneg_pos.
  - by destruct (decide (1 < Qc_of_Z zlo)) as [H1|H1]; [apply (Qclt_trans _ 1)|].
  - destruct (decide (1 < Qc_of_Z zlo)) as [H1|H1]; [done|].
    rewrite <-Z2Qc_inj_1. apply Qc_of_Z_le. lia.
Qed.

Lemma extents_q_ordered :
  Forall2 Qcle (emin_q index) (eave_q index)
  ∧ Forall2 Qcle (eave_q index) (emax_q index)
  ∧ Forall (λ e, 0 ≤ e) (emin_q index).
Proof.
  assert (length (emax_q index) = length index) as Hlmax
    by (unfold emax_q, bin_extent_max; by rewrite length_fmap).
  split_and!.
  - apply Forall2_same_length_lookup_2; [by rewrite length_emin_q, length_eave_q|].
    intros i lo ave Hlo Have.
    destruct (lookup_lt_is_Some_2 (emax_q index) i) as [hi Hhi].
    { rewrite Hlmax, <-length_emin_q. by eapply lookup_lt_Some. }
    destruct (extents_q_lookup i lo hi Hlo Hhi) as (ave' & m & Have' & _ & ? & ? & _).
    congruence.
  - apply Forall2_same_length_lookup_2; [by rewrite Hlmax, length_eave_q|].
    intros i ave hi Have Hhi.
    destruct (lookup_lt_is_Some_2 (emin_q index) i) as [lo Hlo].
    { rewrite length_emin_q, <-Hlmax. by eapply lookup_lt_Some. }
    destruct (extents_q_lookup i lo hi Hlo Hhi) as (ave' & m & Have' & _ & ? & ? & ? & _).
    congruence.
  - apply Forall_lookup_2. intros i lo Hlo.
    destruct (lookup_lt_is_Some_2 (emax_q index) i) as [hi Hhi].
    { rewrite Hlmax, <-length_emin_q. by eapply lookup_lt_Some. }
    by destruct (extents_q_lookup i lo hi Hlo Hhi) as (ave' & m & _ & _ & ? & _).
Qed.
End valid_bins.

(** ** The projected file counts *)

Section totals.
Context (reference_df : DataFrame) (counts : list fval).
Hypothesis Hlen : (2 ≤ length (df_index reference_df))%nat.
Hypothesis Hcounts : getcol reference_df "num_files" = Ok counts.
Let index := df_index reference_df.

Lemma extended_counts ref :
  add_bin_extents reference_df = Ok ref →
  getcol ref "num_files" = Ok counts
  ∧ getcol ref "bin_extent_min" = Ok (of_Z <$> bin_extent_min index)
  ∧ getcol ref "bin_extent_max" = Ok (of_Z <$> bin_extent_max index)
  ∧ getcol ref "bin_extent_ave" = Ok (bin_extent_ave index)
  ∧ df_index ref = index.
Proof.
  rewrite add_bin_extents_ok by done. intros [= <-].
  split_and!; df_read; done.
Qed.

Lemma reference_total_mass_ok :
  reference_total_mass reference_df "min"
    = Ok (series_sum (mass_col counts (of_Z <$> bin_extent_min index)))
  ∧ reference_total_mass reference_df "max"
    = Ok (series_sum (mass_col counts (of_Z <$> bin_extent_max index)))
  ∧ reference_total_mass reference_df "ave"
    = Ok (series_sum (mass_col counts (bin_extent_ave index))).
Proof.
  unfold reference_total_mass.
  destruct (extended_counts _ (add_bin_extents_ok _ Hlen)) as (H1 & H2 & H3 & H4 & _).
  rewrite add_bin_extents_ok by done.
  split_and!; rewrite bind_Ok, (mass_dist_ok _ _ _ _ _ H1 H2 H3 H4), bind_Ok.
  all: erewrite mass_dist_sums_ok by (df_read; reflexivity).
  all: rewrite bind_Ok; names; by df_read.
Qed.

(** The projected masses, before they are turned back into counts. *)
Lemma rescale_mass_ok target ref :
  add_bin_extents reference_df = Ok ref →
  let emin := of_Z <$> bin_extent_min index in
  let emax := of_Z <$> bin_extent_max index in
  let eave := bin_extent_ave index in
  let new_mass e other :=
    series_mul_scalar
      (series_div_scalar (mass_col counts e) (series_sum (mass_col counts other)))
      target in
  (md ← mass_dist ref; pd ← prob_dist ref md; new_mass_dist target ref pd) =
    Ok (setcol (setcol (setcol (new_frame index)
          "dmass_min" (new_mass emin emax))
          "dmass_max" (new_mass emax emin))
          "dmass_ave" (new_mass eave eave)).
Proof.
  intros Href. destruct (extended_counts _ Href) as (H1 & H2 & H3 & H4 & H5).
  intros emin emax eave new_mass.
  rewrite (mass_dist_ok _ _ _ _ _ H1 H2 H3 H4), bind_Ok.
  erewrite prob_dist_ok by (df_read; reflexivity). rewrite bind_Ok.
  erewrite new_mass_dist_ok by (df_read; reflexivity).
  by rewrite H5.
Qed.
End totals.

(** ** Bins that hold files *)

Lemma populated_bins_ok_lookup index cs bin c lo hi :
  populated_bins_ok index cs →
  cs !! bin = Some c → bin_extent_min index !! bin = Some lo → index !! bin = Some hi →
  c ≠ 0 → (0 ≤ lo ≤ hi)%Z ∧ (hi < 2 ^ 62)%Z.
Proof.
  intros Hpop Hc Hlo Hhi Hc0.
  assert (zip cs (zip (bin_extent_min index) (bin_extent_max index)) !! bin
          = Some (c, (lo, hi))) as Hz.
  { unfold bin_extent_max. rewrite !lookup_zip_with, Hc, Hlo, Hhi. reflexivity. }
  by apply (Forall_lookup_1 _ _ _ _ Hpop Hz).
Qed.

Lemma eave_wrap_q_lookup index bin lo hi :
  bin_extent_min index !! bin = Some lo → index !! bin = Some hi →
  eave_wrap_q index !! bin = Some (Qc_of_Z (wrap64 (lo + hi)) / Qc_of_Z 2).
Proof.
  intros Hlo Hhi. unfold eave_wrap_q, bin_extent_max.
  by rewrite lookup_zip_with, Hlo, Hhi.
Qed.

Lemma length_eave_wrap_q index :
  (2 ≤ length index)%nat → length (eave_wrap_q index) = length index.
Proof.
  intros Hlen. unfold eave_wrap_q, bin_extent_max.
  rewrite length_zip_with, length_bin_extent_min. lia.
Qed.


(** The extents of a valid bin, as rationals. *)
Lemma valid_bin_extents (lo hi : Z) :
  (0 ≤ lo ≤ hi)%Z → (hi < 2 ^ 62)%Z →
  let ave := Qc_of_Z (wrap64 (lo + hi)) / Qc_of_Z 2 in
  0 ≤ Qc_of_Z lo ∧ Qc_of_Z lo ≤ ave ∧ ave ≤ Qc_of_Z hi
  ∧ ((0 < hi)%Z →
     0 < ave ∧ 0 < max_1q (Qc_of_Z lo) ∧ max_1q (Qc_of_Z lo) ≤ Qc_of_Z hi).
Proof.
  intros Hr Hhi ave. subst ave. rewrite wrap64_id by lia.
  rewrite Z2Qc_inj_add, Z2Qc_inj_2.
  assert (Qc_of_Z lo ≤ Qc_of_Z hi) as Hle by (apply Qc_of_Z_le; lia).
  assert (0 ≤ Qc_of_Z lo) as Hlo0.
  { rewrite <-Z2Qc_inj_0. apply Qc_of_Z_le. lia. }
  destruct (Qc_half_between _ _ Hle) as [Hb1 Hb2].
  split_and!; [done..|]. intros Hpos.
  assert (0 < Qc_of_Z hi) as Hhi0.
  { rewrite <-Z2Qc_inj_0. apply Qc_of_Z_lt. lia. }
  split_and!.
  - unfold Qcdiv. apply Qcmult_pos_pos; [|done]. by apply Qcplus_nonneg_pos.
  - unfold max_1q. by destruct (decide (1 < Qc_of_Z lo)) as [H1|H1];
      [apply (Qclt_trans _ 1)|].
  - unfold max_1q. destruct (decide (1 < Qc_of_Z lo)) as [H1|H1]; [done|].
    rewrite <-Z2Qc_inj_1. apply Qc_of_Z_le. lia.
Qed.


Lemma massq_lookup cs es i c e :
  cs !! i = Some c → es !! i = Some e → massq cs es !! i = Some (c * e).
Proof. intros Hc He. unfold massq. by rewrite lookup_zip_with, Hc, He. Qed.

Lemma length_massq cs es : length es = length cs → length (massq cs es) = length cs.
Proof. intros H. unfold massq. rewrite length_zip_with. lia. Qed.

(** The totals are ordered as the extents of the bins that hold files. *)
Lemma populated_totals_ordered index cs :
  (2 ≤ length index)%nat → length cs = length index →
  Forall (λ c, 0 ≤ c) cs → populated_bins_ok index cs →
  0 ≤ totalq cs (emin_q index)
  ∧ totalq cs (emin_q index) ≤ totalq cs (eave_wrap_q index)
  ∧ totalq cs (eave_wrap_q index) ≤ totalq cs (emax_q index).
Proof.
  intros Hlen2 Hlen Hcs Hpop.
  assert (length (emin_q index) = length cs) as Lmin
    by (unfold emin_q; rewrite length_fmap, length_bin_extent_min; lia).
  assert (length (emax_q index) = length cs) as Lmax
    by (unfold emax_q, bin_extent_max; by rewrite length_fmap).
  assert (length (eave_wrap_q index) = length cs) as Lave
    by (rewrite length_eave_wrap_q; done).
  assert (∀ i c, cs !! i = Some c →
    ∃ lo hi, bin_extent_min index !! i = Some lo ∧ index !! i = Some hi
      ∧ 0 ≤ c * Qc_of_Z lo
      ∧ c * Qc_of_Z lo ≤ c * (Qc_of_Z (wrap64 (lo + hi)) / Qc_of_Z 2)
      ∧ c * (Qc_of_Z (wrap64 (lo + hi)) / Qc_of_Z 2) ≤ c * Qc_of_Z hi) as Hbin.
  { intros i c Hc.
    pose proof (lookup_lt_Some _ _ _ Hc) as Hi.
    destruct (lookup_lt_is_Some_2 (bin_extent_min index) i) as [lo Hlo];
      [rewrite length_bin_extent_min; lia|].
    destruct (lookup_lt_is_Some_2 index i) as [hi Hhi]; [lia|].
    exists lo, hi. split; [done|]. split; [done|].
    pose proof (Forall_lookup_1 _ _ _ _ Hcs Hc) as Hc0. cbn in Hc0.
    destruct (decide (c = 0)) as [->|Hne].
    { rewrite !Qcmult_0_l. done. }
    destruct (populated_bins_ok_lookup _ _ _ _ _ _ Hpop Hc Hlo Hhi Hne) as [Hr Hh].
    destruct (valid_bin_extents lo hi Hr Hh) as (H0 & H1 & H2 & _).
    split_and!.
    - by apply Qcmult_nonneg_nonneg.
    - by apply Qcmult_le_mono_nonneg_l.
    - by apply Qcmult_le_mono_nonneg_l. }
  unfold totalq. split_and!.
  - apply sumq_nonneg. apply Forall_lookup_2. intros i m Hm.
    destruct (lookup_lt_is_Some_2 cs i) as [c Hc].
    { apply lookup_lt_Some in Hm. rewrite length_massq in Hm; done. }
    destruct (Hbin i c Hc) as (lo & hi & Hlo & Hhi & H0 & _).
    rewrite (massq_lookup _ _ _ c (Qc_of_Z lo)) in Hm;
      [|done|unfold emin_q; by rewrite list_lookup_fmap, Hlo].
    by injection Hm as <-.
  - apply sumq_le. apply Forall2_same_length_lookup_2; [by rewrite !length_massq|].
    intros i m1 m2 Hm1 Hm2.
    destruct (lookup_lt_is_Some_2 cs i) as [c Hc].
    { apply lookup_lt_Some in Hm1. rewrite length_massq in Hm1; done. }
    destruct (Hbin i c Hc) as (lo & hi & Hlo & Hhi & _ & H1 & _).
    rewrite (massq_lookup _ _ _ c (Qc_of_Z lo)) in Hm1;
      [|done|unfold emin_q; by rewrite list_lookup_fmap, Hlo].
    rewrite (massq_lookup _ _ _ c _ Hc (eave_wrap_q_lookup _ _ _ _ Hlo Hhi)) in Hm2.
    injection Hm1 as <-. by injection Hm2 as <-.
  - apply sumq_le. apply Forall2_same_length_lookup_2; [by rewrite !length_massq|].
    intros i m1 m2 Hm1 Hm2.
    destruct (lookup_lt_is_Some_2 cs i) as [c Hc].
    { apply lookup_lt_Some in Hm1. rewrite length_massq in Hm1; done. }
    destruct (Hbin i c Hc) as (lo & hi & Hlo & Hhi & _ & _ & H2).
    rewrite (massq_lookup _ _ _ c _ Hc (eave_wrap_q_lookup _ _ _ _ Hlo Hhi)) in Hm1.
    rewrite (massq_lookup _ _ _ c (Qc_of_Z hi)) in Hm2;
      [|done|unfold emax_q, bin_extent_max; by rewrite list_lookup_fmap, Hhi].
    injection Hm1 as <-. by injection Hm2 as <-.
Qed.

(** Valid bins are valid where they hold files. *)
Lemma bins_ok_populated index cs : bins_ok index → populated_bins_ok index cs.
Proof.
  intros Hbins. apply Forall_lookup_2. intros i x Hz _.
  apply lookup_zip_with_Some in Hz as (c & b & -> & _ & Hb).
  apply lookup_zip_with_Some in Hb as (lo & hi & -> & Hlo & Hhi). cbn.
  destruct (bins_ok_lookup _ _ _ _ Hbins Hlo Hhi). lia.
Qed.




(** ** Rescaling to the reference total *)

Lemma projected_col_round_trip_populated (s : Qc) (cs es : list Qc) :
  s ≠ 0 → Forall (λ x, x.1 ≠ 0 → x.2 ≠ 0) (zip cs es) → length es = length cs →
  series_sum (mass_col (fins cs) (fins es)) = Fin s →
  projected_col (Fin s) (fins cs) (fins es) (fins es) (fins es) = fins cs.
Proof.
  intros Hs Hes Hlen Hsum.
  apply list_eq. intros i.
  destruct (cs !! i) as [c|] eqn:Hc.
  - destruct (lookup_lt_is_Some_2 es i) as [e He].
    { rewrite Hlen. by eapply lookup_lt_Some. }
    assert (fins cs !! i = Some (Fin c)) as Hfc
      by (unfold fins; by rewrite list_lookup_fmap, Hc).
    assert (fins es !! i = Some (Fin e)) as Hfe
      by (unfold fins; by rewrite list_lookup_fmap, He).
    rewrite (projected_col_lookup _ _ _ _ _ _ _ _ _ Hfc Hfe Hfe), Hfc, Hsum.
    assert (zip cs es !! i = Some (c, e)) as Hz
      by (rewrite lookup_zip_with, Hc, He; reflexivity).
    pose proof (Forall_lookup_1 _ _ _ _ Hes Hz) as Hce. cbn in Hce.
    destruct (decide (c = 0)) as [->|Hc0]; [by rewrite projected_cell_zero|].
    rewrite projected_cell_fin by auto. do 2 f_equal. field. auto.
  - assert (fins cs !! i = None) as -> by (unfold fins; by rewrite list_lookup_fmap, Hc).
    apply lookup_ge_None. rewrite length_projected_col.
    + unfold fins. rewrite length_fmap. by apply lookup_ge_None.
    + unfold fins. by rewrite !length_fmap.
    + unfold fins. by rewrite !length_fmap.
Qed.

(** Valid bins weigh the files they hold. *)
Lemma bins_ok_ave_nonzero index cs : bins_ok index → populated_ave_nonzero index cs.
Proof.
  intros Hbins. apply Forall_lookup_2. intros i x Hz _.
  apply lookup_zip_with_Some in Hz as (c & e & -> & _ & He). cbn.
  unfold eave_wrap_q, bin_extent_max in He.
  apply lookup_zip_with_Some in He as (lo & hi & -> & Hlo & Hhi).
  destruct (bins_ok_lookup _ _ _ _ Hbins Hlo Hhi) as [Hr Hh].
  destruct (valid_bin_extents lo hi Hr ltac:(lia)) as (_ & _ & _ & Hpos).
  destruct Hpos as (Hapos & _); [lia|]. by apply Qc_pos_ne0.
Qed.

(** C4, as stated, fails: with boundaries 0, 2, 4 the first bin has
    extent 0, its five files carry no mass, and rescaling to the total
    average mass, 2, which is positive, gives 0 files back in that bin. *)
Lemma round_trip_needs_valid_bins :
  ¬ populated_ave_nonzero (df_index zero_bin_df) (Qc_of_Z <$> [5; 1; 0]%Z)
  ∧ reference_total_mass zero_bin_df "ave" = Ok (of_Z 2)
  ∧ ∃ newfs, project_files (of_Z 2) zero_bin_df = Ok newfs
      ∧ getcol newfs "num_files_ave" = Ok (of_Z <$> [0; 1; 0]%Z)
      ∧ getcol zero_bin_df "num_files" = Ok (of_Z <$> [5; 1; 0]%Z)
      ∧ getcol newfs "num_files_ave" ≠ getcol zero_bin_df "num_files".
Proof.
  split; [compute_done|]. split; [compute_done|].
  eexists. split; [reflexivity|]. split_and!; compute_done.
Qed.

(** C4, amended. For at least two bins and finite counts, when every bin
    that holds files has an average extent other than 0, as every valid
    bin has, rescaling to a target equal to the reference total average
    mass, when that total is positive, gives back the reference file count
    in every bin of the average column. *)
Theorem rescale_round_trip (s : Qc) (reference_df : DataFrame) (cs : list Qc) :
  (2 ≤ length (df_index reference_df))%nat →
  getcol reference_df "num_files" = Ok (fins cs) →
  length cs = length (df_index reference_df) →
  populated_ave_nonzero (df_index reference_df) cs →
  reference_total_mass reference_df "ave" = Ok (Fin s) →
  0 < s →
  ∃ newfs, project_files (Fin s) reference_df = Ok newfs
    ∧ getcol newfs "num_files_ave" = getcol reference_df "num_files"
    ∧ ∀ bin, (getcol newfs "num_files_ave" ≫= λ c, Ok (c !! bin))
             = Ok (Fin <$> cs !! bin).
Proof.
  intros Hlen2 Hcounts Hlen Hpop Htotal Hs.
  destruct (reference_total_mass_ok reference_df (fins cs) Hlen2 Hcounts)
    as (_ & _ & Hsum).
  rewrite bin_extent_ave_fins_wrap, Htotal in Hsum.
  injection Hsum as Hsum.
  assert (getcol
            (setcol (setcol (setcol (new_frame (df_index reference_df))
               "num_files_min" (projected_col (Fin s) (fins cs)
                  (of_Z <$> bin_extent_min (df_index reference_df))
                  (of_Z <$> bin_extent_max (df_index reference_df))
                  (of_Z <$> bin_extent_max (df_index reference_df))))
               "num_files_max" (projected_col (Fin s) (fins cs)
                  (of_Z <$> bin_extent_max (df_index reference_df))
                  (of_Z <$> bin_extent_min (df_index reference_df))
                  (max_1 <$> (of_Z <$> bin_extent_min (df_index reference_df)))))
               "num_files_ave" (projected_col (Fin s) (fins cs)
                  (bin_extent_ave (df_index reference_df))
                  (bin_extent_ave (df_index reference_df))
                  (bin_extent_ave (df_index reference_df))))
            "num_files_ave" = Ok (fins cs)) as Hcol.
  { df_read. f_equal. rewrite bin_extent_ave_fins_wrap.
    apply projected_col_round_trip_populated;
      [by apply Qc_pos_ne0|done|rewrite length_eave_wrap_q; done|done]. }
  eexists. split; [by apply project_files_ok|].
  rewrite Hcol, Hcounts. split; [done|].
  intros bin. rewrite bind_Ok. unfold fins. by rewrite list_lookup_fmap.
Qed.

Lemma rescale_round_trip_witness :
  reference_total_mass scenario_df "ave" = Ok (Fin (Qc_of_Z 25 / 2))
  ∧ ∃ newfs, project_files (Fin (Qc_of_Z 25 / 2)) scenario_df = Ok newfs
      ∧ getcol newfs "num_files_ave" = getcol scenario_df "num_files"
      ∧ ∀ bin, (getcol newfs "num_files_ave" ≫= λ c, Ok (c !! bin))
               = Ok (Fin <$> (Qc_of_Z <$> [0; 2; 1; 0]%Z) !! bin).
Proof.
  assert (reference_total_mass scenario_df "ave" = Ok (Fin (Qc_of_Z 25 / 2)))
    as Htotal by compute_done.
  split; [exact Htotal|].
  apply (rescale_round_trip (Qc_of_Z 25 / 2) scenario_df (Qc_of_Z <$> [0; 2; 1; 0]%Z));
    [simpl; lia|reflexivity|reflexivity|compute_done|exact Htotal|compute_done].
Defined.

(** ** Empty populations *)











(** ** The other inode types *)

Lemma elem_of_REDUCTIONS redux :
  redux ∈ REDUCTIONS → redux = "min" ∨ redux = "max" ∨ redux = "ave".
Proof.
  unfold REDUCTIONS. rewrite !elem_of_cons, elem_of_nil. tauto.
Qed.

Lemma elem_of_NON_FILE_INODE_TYPES itype :
  itype ∈ NON_FILE_INODE_TYPES →
  itype = "dirs" ∨ itype = "symlinks" ∨ itype = "blks" ∨ itype = "chrs"
  ∨ itype = "fifos" ∨ itype = "socks".
Proof.
  unfold NON_FILE_INODE_TYPES, INODE_TYPES. cbn [drop].
  rewrite !elem_of_cons, elem_of_nil. tauto.
Qed.

Section nonfiles.
Context (reference_df newfs_df : DataFrame).
Context (ref_files fmin fmax fave : list fval) (tcol : string → list fval).
Hypothesis Href_files : getcol reference_df "num_files" = Ok ref_files.
Hypothesis Htypes : ∀ itype, itype ∈ NON_FILE_INODE_TYPES →
  getcol reference_df ("num_" +:+ itype) = Ok (tcol itype).
Hypothesis Hfmin : getcol newfs_df "num_files_min" = Ok fmin.
Hypothesis Hfmax : getcol newfs_df "num_files_max" = Ok fmax.
Hypothesis Hfave : getcol newfs_df "num_files_ave" = Ok fave.

Lemma newfs_df_nonfiles_ok :
  ∃ final, newfs_df_nonfiles reference_df newfs_df = Ok final
    ∧ getcol final "num_files_min" = Ok fmin
    ∧ getcol final "num_files_max" = Ok fmax
    ∧ getcol final "num_files_ave" = Ok fave
    ∧ ∀ itype, itype ∈ NON_FILE_INODE_TYPES →
        getcol final ("num_" +:+ itype +:+ "_min")
          = Ok (nonfile_col fmin (tcol itype) ref_files)
        ∧ getcol final ("num_" +:+ itype +:+ "_max")
          = Ok (nonfile_col fmax (tcol itype) ref_files)
        ∧ getcol final ("num_" +:+ itype +:+ "_ave")
          = Ok (nonfile_col fave (tcol itype) ref_files).
Proof.
  assert (getcol reference_df "num_dirs" = Ok (tcol "dirs")) as Hdirs
    by (apply (Htypes "dirs"); compute_done).
  assert (getcol reference_df "num_symlinks" = Ok (tcol "symlinks")) as Hsymlinks
    by (apply (Htypes "symlinks"); compute_done).
  assert (getcol reference_df "num_blks" = Ok (tcol "blks")) as Hblks
    by (apply (Htypes "blks"); compute_done).
  assert (getcol reference_df "num_chrs" = Ok (tcol "chrs")) as Hchrs
    by (apply (Htypes "chrs"); compute_done).
  assert (getcol reference_df "num_fifos" = Ok (tcol "fifos")) as Hfifos
    by (apply (Htypes "fifos"); compute_done).
  assert (getcol reference_df "num_socks" = Ok (tcol "socks")) as Hsocks
    by (apply (Htypes "socks"); compute_done).
  eexists. split.
  - unfold newfs_df_nonfiles, NON_FILE_INODE_TYPES, INODE_TYPES, REDUCTIONS.
    cbn [drop for_each]. names.
    rewrite Href_files, Hdirs, Hsymlinks, Hblks, Hchrs, Hfifos, Hsocks.
    repeat (df_read; rewrite ?Hfmin, ?Hfmax, ?Hfave).
    reflexivity.
  - split_and!; [by df_read..|].
    intros itype Hin.
    apply elem_of_NON_FILE_INODE_TYPES in Hin
      as [->|[->|[->|[->|[->| ->]]]]]; names; split_and!; by df_read.
Qed.
End nonfiles.

Lemma project_files_cols target reference_df counts :
  (2 ≤ length (df_index reference_df))%nat →
  getcol reference_df "num_files" = Ok counts →
  let index := df_index reference_df in
  let emin := of_Z <$> bin_extent_min index in
  let emax := of_Z <$> bin_extent_max index in
  let eave := bin_extent_ave index in
  ∃ newfs, project_files target reference_df = Ok newfs
    ∧ getcol newfs "num_files_min" = Ok (projected_col target counts emin emax emax)
    ∧ getcol newfs "num_files_max"
      = Ok (projected_col target counts emax emin (max_1 <$> emin))
    ∧ getcol newfs "num_files_ave" = Ok (projected_col target counts eave eave eave).
Proof.
  intros Hlen2 Hcounts. eexists. split; [by apply project_files_ok|].
  split_and!; by df_read.
Qed.


Lemma nonfile_col_lookup files ref_type ref_files bin :
  nonfile_col files ref_type ref_files !! bin
  = (f ← files !! bin; b ← ref_type !! bin; c ← ref_files !! bin;
     Some (fillna1 (Fin 0) (fdiv (fmul f b) c))).
Proof.
  unfold nonfile_col, fillna, series_div, series_mul.
  rewrite list_lookup_fmap, !lookup_zip_with.
  destruct (files !! bin); [|done]. destruct (ref_type !! bin); [|done].
  by destruct (ref_files !! bin).
Qed.



(** ** Inode mass *)

Section inode_mass.
Context (L : fval) (reference_df input_df : DataFrame).
Context (redux : string) (minmax : option string).
Context (files extent : list fval) (tcol : string → list fval).
Hypothesis Hfiles :
  getcol input_df ("num_files" +:+ column_suffix minmax) = Ok files.
Hypothesis Htypes : ∀ itype, itype ∈ NON_FILE_INODE_TYPES →
  getcol input_df ("num_" +:+ itype +:+ column_suffix minmax) = Ok (tcol itype).
Hypothesis Hextent : getcol reference_df ("bin_extent_" +:+ redux) = Ok extent.

Lemma calculate_inode_mass_ok :
  calculate_inode_mass L reference_df input_df redux minmax
  = Ok (series_sum (fillna (Fin 0) (inode_mass_rows L files extent tcol))).
Proof.
  unfold calculate_inode_mass. cbv zeta.
  rewrite Hfiles, bind_Ok.
  unfold inode_mass_rows, NON_FILE_INODE_TYPES, INODE_TYPES.
  cbn [drop for_each foldl].
  rewrite !Htypes by (unfold NON_FILE_INODE_TYPES, INODE_TYPES; cbn [drop];
                      rewrite !elem_of_cons; tauto).
  rewrite Hextent. reflexivity.
Qed.
End inode_mass.

Lemma type_mass_lookup L count extent bin :
  type_mass L count extent !! bin
  = (c ← count !! bin; e ← extent !! bin; Some (type_mass_cell L c e)).
Proof.
  unfold type_mass, series_max2, series_mul, series_mul_scalar, type_mass_cell.
  rewrite !lookup_zip_with, list_lookup_fmap.
  destruct (count !! bin); [|done]. by destruct (extent !! bin).
Qed.

(** One bin of the rows: the file term plus the masses of the other types,
    added in the order of [NON_FILE_INODE_TYPES]. *)
Lemma inode_mass_rows_lookup L files extent tcol bin f e :
  files !! bin = Some f → extent !! bin = Some e →
  (∀ itype, itype ∈ NON_FILE_INODE_TYPES → is_Some (tcol itype !! bin)) →
  inode_mass_rows L files extent tcol !! bin
  = Some (foldl (λ acc itype,
                   fadd acc (type_mass_cell L (default NaN (tcol itype !! bin)) e))
                (fmul f L) NON_FILE_INODE_TYPES).
Proof.
  intros Hf He. unfold inode_mass_rows.
  assert (series_mul_scalar files L !! bin = Some (fmul f L)) as Hacc
    by (unfold series_mul_scalar; by rewrite list_lookup_fmap, Hf).
  revert Hacc. generalize (series_mul_scalar files L) (fmul f L).
  induction NON_FILE_INODE_TYPES as [|itype types IH]; intros acc a Hacc Htypes;
    [done|].
  cbn [foldl]. apply IH.
  - destruct (Htypes itype) as [c Hc]; [by left|].
    unfold series_add. rewrite lookup_zip_with, Hacc, type_mass_lookup, Hc, He.
    reflexivity.
  - intros t Ht. apply Htypes. by right.
Qed.

Lemma length_type_mass L count extent :
  length extent = length count → length (type_mass L count extent) = length count.
Proof.
  intros He. unfold type_mass, series_max2, series_mul, series_mul_scalar.
  rewrite !length_zip_with, length_fmap. lia.
Qed.

Lemma length_inode_mass_rows L files extent tcol :
  length extent = length files →
  (∀ itype, itype ∈ NON_FILE_INODE_TYPES → length (tcol itype) = length files) →
  length (inode_mass_rows L files extent tcol) = length files.
Proof.
  intros He. unfold inode_mass_rows.
  assert (length (series_mul_scalar files L) = length files) as Hacc
    by (unfold series_mul_scalar; by rewrite length_fmap).
  revert Hacc. generalize (series_mul_scalar files L).
  induction NON_FILE_INODE_TYPES as [|itype types IH]; intros acc Hacc Htypes;
    [done|].
  cbn [foldl]. apply IH.
  - unfold series_add. rewrite length_zip_with, length_type_mass, Hacc.
    + rewrite Htypes by by left. lia.
    + rewrite Htypes by by left. done.
  - intros t Ht. apply Htypes. by right.
Qed.

Lemma type_mass_cell_fin l c e :
  type_mass_cell (Fin l) (Fin c) (Fin e) = Fin (Qcmax (c * e) (c * l)).
Proof.
  unfold type_mass_cell, Qcmax. simpl.
  destruct (decide (c * e < c * l)).
  - by rewrite bool_decide_eq_true_2.
  - by rewrite bool_decide_eq_false_2.
Qed.

Lemma foldl_fadd_fin {A} (g : A → Qc) (h : A → fval) a (xs : list A) :
  (∀ x, x ∈ xs → h x = Fin (g x)) →
  foldl (λ acc x, fadd acc (h x)) (Fin a) xs = Fin (a + sumq (g <$> xs)).
Proof.
  revert a. induction xs as [|x xs IH]; intros a Hh.
  - simpl. by rewrite Qcplus_0_r.
  - cbn [foldl]. rewrite (Hh x) by by left. cbn [fadd].
    rewrite IH by (intros y Hy; apply Hh; by right).
    rewrite fmap_cons. cbn [sumq]. by rewrite Qcplus_assoc.
Qed.

Lemma inode_mass_rows_fins l fs es cs :
  length es = length fs →
  (∀ itype, itype ∈ NON_FILE_INODE_TYPES → length (cs itype) = length fs) →
  inode_mass_rows (Fin l) (fins fs) (fins es) (λ itype, fins (cs itype))
  = fins (bin_inode_mass l fs es cs <$> seq 0 (length fs)).
Proof.
  intros Hes Hcs.
  apply (list_eq_same_length _ _ (length fs)).
  - unfold fins. by rewrite !length_fmap, length_seq.
  - rewrite length_inode_mass_rows; unfold fins; rewrite !length_fmap; [done|done|].
    intros itype Hin. rewrite length_fmap. by apply Hcs.
  - intros bin x y Hbin Hx Hy.
    destruct (lookup_lt_is_Some_2 fs bin) as [f Hf]; [done|].
    destruct (lookup_lt_is_Some_2 es bin) as [e He]; [lia|].
    rewrite (inode_mass_rows_lookup _ _ _ _ _ (Fin f) (Fin e)) in Hx.
    + unfold fins in Hy. rewrite !list_lookup_fmap, lookup_seq_lt in Hy by done.
      simpl in Hy. apply (inj Some) in Hy, Hx. subst x y.
      change (fmul (Fin f) (Fin l)) with (Fin (f * l)).
      rewrite (foldl_fadd_fin
                 (λ itype, Qcmax (cs itype !!! bin * es !!! bin) (cs itype !!! bin * l))
                 (λ itype, type_mass_cell (Fin l)
                             (default NaN (fins (cs itype) !! bin)) (Fin e))).
      * unfold bin_inode_mass. by rewrite (list_lookup_total_correct _ _ _ Hf).
      * intros itype Hin.
        destruct (lookup_lt_is_Some_2 (cs itype) bin) as [c Hc];
          [rewrite Hcs by done; done|].
        unfold fins. rewrite list_lookup_fmap, Hc.
        change (default NaN (Fin <$> Some c)) with (Fin c).
        rewrite type_mass_cell_fin.
        by rewrite (list_lookup_total_correct _ _ _ Hc),
             (list_lookup_total_correct _ _ _ He).
    + unfold fins. by rewrite list_lookup_fmap, Hf.
    + unfold fins. by rewrite list_lookup_fmap, He.
    + intros itype Hin. unfold fins. rewrite list_lookup_fmap.
      destruct (lookup_lt_is_Some_2 (cs itype) bin) as [c Hc];
        [rewrite Hcs by done; done|].
      rewrite Hc. by eexists.
Qed.

Lemma inode_mass_rows_ext L files extent tcol tcol' :
  (∀ itype, itype ∈ NON_FILE_INODE_TYPES → tcol itype = tcol' itype) →
  inode_mass_rows L files extent tcol = inode_mass_rows L files extent tcol'.
Proof.
  unfold inode_mass_rows. generalize (series_mul_scalar files L).
  induction NON_FILE_INODE_TYPES as [|itype types IH]; intros acc Heq; [done|].
  cbn [foldl]. rewrite (Heq itype) by by left.
  apply IH. intros t Ht. apply Heq. by right.
Qed.

(** C8. The inode mass is the sum over the bins, with NaN rows counted as
    0, of the file count times the bytes per inode plus, for every other
    inode type, the larger of count times extent and count times bytes per
    inode, both taken on the whole bin.  On finite cells this is a double
    sum, over the bins and over the types. *)
Theorem calculate_inode_mass_spec
    (L : fval) (reference_df input_df : DataFrame)
    (redux : string) (minmax : option string)
    (files extent : list fval) (tcol : string → list fval) :
  getcol input_df ("num_files" +:+ column_suffix minmax) = Ok files →
  (∀ itype, itype ∈ NON_FILE_INODE_TYPES →
     getcol input_df ("num_" +:+ itype +:+ column_suffix minmax) = Ok (tcol itype)) →
  (∀ itype, itype ∈ NON_FILE_INODE_TYPES → length (tcol itype) = length files) →
  getcol reference_df ("bin_extent_" +:+ redux) = Ok extent →
  length extent = length files →
  ∃ rows,
    calculate_inode_mass L reference_df input_df redux minmax
      = Ok (series_sum (fillna (Fin 0) rows))
    ∧ length rows = length files
    ∧ (∀ bin f e,
         files !! bin = Some f → extent !! bin = Some e →
         rows !! bin
         = Some (foldl (λ acc itype,
                          let count := default NaN (tcol itype !! bin) in
                          fadd acc (rowmax2 (fmul count e) (fmul count L)))
                       (fmul f L) NON_FILE_INODE_TYPES))
    ∧ (∀ l fs es cs,
         L = Fin l → files = fins fs → extent = fins es →
         (∀ itype, itype ∈ NON_FILE_INODE_TYPES → tcol itype = fins (cs itype)) →
         calculate_inode_mass L reference_df input_df redux minmax
         = Ok (Fin (sumq ((λ bin,
                  fs !!! bin * l
                  + sumq ((λ itype, Qcmax (cs itype !!! bin * es !!! bin)
                                          (cs itype !!! bin * l))
                            <$> NON_FILE_INODE_TYPES))
                <$> seq 0 (length fs))))).
Proof.
  intros Hfiles Htypes Hlens Hextent Hlen.
  exists (inode_mass_rows L files extent tcol).
  split; [by apply calculate_inode_mass_ok|].
  split; [by apply length_inode_mass_rows|].
  split.
  - intros bin f e Hf He. apply inode_mass_rows_lookup; [done|done|].
    intros itype Hin. apply lookup_lt_is_Some_2.
    rewrite Hlens by done. by eapply lookup_lt_Some.
  - intros l fs es cs -> -> -> Hcs.
    rewrite (calculate_inode_mass_ok _ _ _ _ _ _ _ _ Hfiles Htypes Hextent).
    assert (length es = length fs) as Hes
      by (unfold fins in Hlen; by rewrite !length_fmap in Hlen).
    assert (∀ itype, itype ∈ NON_FILE_INODE_TYPES → length (cs itype) = length fs)
      as Hcl.
    { intros itype Hin. specialize (Hlens itype Hin).
      rewrite (Hcs itype Hin) in Hlens. unfold fins in Hlens.
      by rewrite !length_fmap in Hlens. }
    assert (inode_mass_rows (Fin l) (fins fs) (fins es) tcol
            = inode_mass_rows (Fin l) (fins fs) (fins es) (λ itype, fins (cs itype)))
      as ->.
    { by apply inode_mass_rows_ext. }
    rewrite inode_mass_rows_fins, fillna_fins, series_sum_fins by done.
    reflexivity.
Qed.

Lemma calculate_inode_mass_spec_witness :
  ∃ rows,
    calculate_inode_mass LUSTRE_BYTES_PER_INODE extent_df inode_df "ave" (Some "ave")
      = Ok (series_sum (fillna (Fin 0) rows))
    ∧ length rows = 4%nat
    ∧ calculate_inode_mass LUSTRE_BYTES_PER_INODE extent_df inode_df "ave" (Some "ave")
      = Ok (of_Z (16 * 4096)).
Proof.
  destruct (calculate_inode_mass_spec LUSTRE_BYTES_PER_INODE extent_df inode_df
              "ave" (Some "ave") (of_Z <$> [0; 4; 2; 0]%Z) (of_Z <$> [1; 3; 6; 12]%Z)
              inode_df_types)
    as (rows & Hrows & Hlen & _ & _).
  - reflexivity.
  - intros itype Hin. apply elem_of_NON_FILE_INODE_TYPES in Hin
      as [->|[->|[->|[->|[->| ->]]]]]; reflexivity.
  - intros itype Hin. apply elem_of_NON_FILE_INODE_TYPES in Hin
      as [->|[->|[->|[->|[->| ->]]]]]; reflexivity.
  - reflexivity.
  - reflexivity.
  - exists rows. split; [exact Hrows|]. split; [exact Hlen|]. compute_done.
Defined.

(** ** Endurance *)

(** C9, as stated, fails: evaluated in binary64, as the notebook does, the
    scenario gives 0.09375 plus one unit in the last place, not exactly
    0.09375. *)
Lemma dwpd_binary64_counterexample :
  DWPD_NEW_binary64 3 float_0_05 2.5 1000 1 1 4000 = 0x1.8000000000001p-4%float
  ∧ PrimFloat.eqb (DWPD_NEW_binary64 3 float_0_05 2.5 1000 1 1 4000) 0.09375 = false.
Proof. split; reflexivity. Qed.

(** C9, amended. In exact arithmetic DWPD is the product of SSI, FSWPD, WAF
    and the ratio of the reference aggregate capacity to the new one,
    whether the new aggregate is given or derived from known parameters;
    with SSI = 3, FSWPD = 0.05, WAF = 2.5, a reference aggregate of 1000
    and a new aggregate of 4000 it is 0.09375.  In binary64 the scenario is
    within 2^-56, one unit in the last place, of 0.09375. *)
Theorem dwpd_formula (ssi fswpd waf r_ref n_ref c_ref bigc : Qc) :
  bigc ≠ 0 →
  DWPD_NEW (Fin ssi) (Fin fswpd) (Fin waf) (Fin r_ref) (Fin n_ref) (Fin c_ref) (Fin bigc)
    = Fin (ssi * fswpd * waf * (r_ref * n_ref * c_ref / bigc))
  ∧ (∀ ssi_high chi n_new c_new r_low r_high,
       chi * r_low * n_new * c_new = bigc →
       DWPD_NEW (Fin ssi) (Fin fswpd) (Fin waf) (Fin r_ref) (Fin n_ref) (Fin c_ref)
         (PARAM_BIGC_NEW (Fin ssi) ssi_high (Some (Fin chi)) (Some (Fin n_new))
            (Some (Fin c_new)) (Some (Fin r_low)) (Some r_high)).1
       = Fin (ssi * fswpd * waf * (r_ref * n_ref * c_ref / bigc)))
  ∧ (ssi = Qc_of_Z 3 → fswpd = Qc_of_Z 5 / Qc_of_Z 100 → waf = Qc_of_Z 25 / Qc_of_Z 10 →
     r_ref * n_ref * c_ref = Qc_of_Z 1000 → bigc = Qc_of_Z 4000 →
     DWPD_NEW (Fin ssi) (Fin fswpd) (Fin waf) (Fin r_ref) (Fin n_ref) (Fin c_ref) (Fin bigc)
       = Fin (Qc_of_Z 9375 / Qc_of_Z 100000))
  ∧ PrimFloat.leb
      (PrimFloat.abs
         (DWPD_NEW_binary64 3 float_0_05 2.5 1000 1 1 4000 - 0.09375)%float)
      0x1p-56%float = true.
Proof.
  intros Hbigc.
  assert (DWPD_NEW (Fin ssi) (Fin fswpd) (Fin waf) (Fin r_ref) (Fin n_ref) (Fin c_ref)
            (Fin bigc)
          = Fin (ssi * fswpd * waf * (r_ref * n_ref * c_ref / bigc))) as Hformula.
  { unfold DWPD_NEW. cbn [fmul]. unfold fdiv. rewrite is_zero_false by done.
    f_equal. by field. }
  split; [exact Hformula|]. split; [|split; [|reflexivity]].
  - intros ssi_high chi n_new c_new r_low r_high Hnew.
    unfold PARAM_BIGC_NEW. cbn [fst fmul]. by rewrite Hnew.
  - intros -> -> -> Href ->. rewrite Hformula, Href. f_equal.
    compute_done.
Qed.

Lemma dwpd_formula_witness :
  DWPD_NEW (of_Z 3) (Fin (Qc_of_Z 5 / Qc_of_Z 100)) (Fin (Qc_of_Z 25 / Qc_of_Z 10))
    (Fin (Qc_of_Z 8 / Qc_of_Z 10)) (of_Z 250) (of_Z 5) (of_Z 4000)
  = Fin (Qc_of_Z 9375 / Qc_of_Z 100000).
Proof.
  apply (dwpd_formula (Qc_of_Z 3) (Qc_of_Z 5 / Qc_of_Z 100) (Qc_of_Z 25 / Qc_of_Z 10)
           (Qc_of_Z 8 / Qc_of_Z 10) (Qc_of_Z 250) (Qc_of_Z 5) (Qc_of_Z 4000));
    [compute_done|reflexivity|reflexivity|reflexivity|compute_done|reflexivity].
Defined.

Lemma prob_dist_cross_denominator_witness :
  ∃ pd, prob_dist scenario_df
          (mkDF [2; 4; 8; 16]%Z
             {[ "dmass_min" := of_Z <$> [0; 4; 5; 0]%Z;
                "dmass_max" := of_Z <$> [0; 8; 8; 0]%Z;
                "dmass_ave" := [of_Z 0; of_Z 6; Fin (Qc_of_Z 13 / 2); of_Z 0] ]}) = Ok pd
    ∧ getcol pd "dmass_min"
      = Ok (series_div_scalar (of_Z <$> [0; 4; 5; 0]%Z)
              (series_sum (of_Z <$> [0; 8; 8; 0]%Z)))
    ∧ getcol pd "dmass_max"
      = Ok (series_div_scalar (of_Z <$> [0; 8; 8; 0]%Z)
              (series_sum (of_Z <$> [0; 4; 5; 0]%Z)))
    ∧ getcol pd "dmass_ave"
      = Ok (series_div_scalar [of_Z 0; of_Z 6; Fin (Qc_of_Z 13 / 2); of_Z 0]
              (series_sum [of_Z 0; of_Z 6; Fin (Qc_of_Z 13 / 2); of_Z 0])).
Proof.
  destruct (prob_dist_cross_denominator scenario_df
              (mkDF [2; 4; 8; 16]%Z
                 {[ "dmass_min" := of_Z <$> [0; 4; 5; 0]%Z;
                    "dmass_max" := of_Z <$> [0; 8; 8; 0]%Z;
                    "dmass_ave" := [of_Z 0; of_Z 6; Fin (Qc_of_Z 13 / 2); of_Z 0] ]})
              (of_Z <$> [0; 4; 5; 0]%Z) (of_Z <$> [0; 8; 8; 0]%Z)
              [of_Z 0; of_Z 6; Fin (Qc_of_Z 13 / 2); of_Z 0])
    as (pd & Hpd & _ & Hmin & Hmax & Have); [reflexivity..|].
  exists pd. by split_and!.
Defined.

(** * Helpers, data on the MDT, growth and axis ticks *)

Lemma Qc_of_Z_pos z : (0 < z)%Z → 0 < Qc_of_Z z.
Proof. intros H. rewrite <-Z2Qc_inj_0. by apply Qc_of_Z_lt. Qed.

Lemma fdiv_of_Z b z : (0 < z)%Z → fdiv (Fin b) (of_Z z) = Fin (b / Qc_of_Z z).
Proof.
  intros Hz. unfold fdiv, of_Z.
  by rewrite (is_zero_false (Qc_of_Z z)) by (by apply Qc_pos_ne0, Qc_of_Z_pos).
Qed.

Lemma Qcdiv_mul_cancel (b z : Qc) : z ≠ 0 → b / z * z = b.
Proof. intros Hz. by field. Qed.

Lemma Qcdiv_lt_bound (b z k : Qc) : 0 < z → b < k * z → b / z < k.
Proof.
  intros Hz Hb.
  destruct (Qclt_le_dec (b / z) k) as [|Hle]; [done|exfalso].
  apply (Qcmult_le_compat_r _ _ z) in Hle; [|by apply Qclt_le_weak].
  rewrite Qcdiv_mul_cancel in Hle by (by apply Qc_pos_ne0).
  by apply Qcle_not_lt in Hle.
Qed.

(** The first unit of a list that the value reaches. *)
Lemma first_unit_cons z u rest b :
  (0 < z)%Z →
  first_unit ((of_Z z, u) :: rest) (Fin b)
  = if decide (Qc_of_Z z ≤ b) then Some (Fin (b / Qc_of_Z z), u)
    else first_unit rest (Fin b).
Proof.
  intros Hz. cbn [first_unit fst snd]. rewrite fdiv_of_Z by done.
  unfold of_Z, fle. by destruct (decide (Qc_of_Z z ≤ b));
    [rewrite bool_decide_eq_true_2|rewrite bool_decide_eq_false_2].
Qed.

Lemma Qc_of_Z_mul_pow a b : Qc_of_Z a * Qc_of_Z b = Qc_of_Z (a * b).
Proof. by rewrite Z2Qc_inj_mul. Qed.

(** X1. [humanize_units] loses nothing on a float64: for every byte count
    [m * 2^e] that binary64 holds, the value it returns times the size of
    the unit it returns is the byte count. *)
Theorem humanize_units_round_trip (m e : Z) :
  (Z.abs m < 2 ^ 53)%Z → (-1074 ≤ e ≤ 971)%Z →
  ∃ q, (humanize_units (Fin (binary64 m e))).1 = Fin q
    ∧ q * unit_size (humanize_units (Fin (binary64 m e))).2 = binary64 m e.
Proof.
  intros _ _. generalize (binary64 m e). intros b.
  unfold humanize_units. rewrite !first_unit_cons by done. cbn [first_unit].
  repeat case_decide; cbn [fst snd].
  1-5: eexists; split; [reflexivity|];
       apply Qcdiv_mul_cancel, Qc_pos_ne0, Qc_of_Z_pos; done.
  exists b. split; [done|].
  assert (∀ x : bool, unit_size (if x then "bytes" else "byte") = 1) as ->
    by (by intros []).
  apply Qcmult_1_r.
Qed.

Lemma humanize_units_round_trip_witness :
  ∃ q, (humanize_units (Fin (binary64 3 10))).1 = Fin q
    ∧ q * unit_size (humanize_units (Fin (binary64 3 10))).2 = binary64 3 10.
Proof. apply (humanize_units_round_trip 3 10); lia. Defined.

Lemma Qcdiv_unit_range (b : Qc) (z k : Z) :
  (0 < z)%Z → Qc_of_Z z ≤ b → ¬ Qc_of_Z (k * z) ≤ b →
  1 ≤ b / Qc_of_Z z ∧ b / Qc_of_Z z < Qc_of_Z k.
Proof.
  intros Hz Hle Hlt. pose proof (Qc_of_Z_pos _ Hz). split.
  - by apply Qcdiv_ge_1.
  - apply Qcdiv_lt_bound; [done|]. rewrite <-Z2Qc_inj_mul. by apply Qcnot_le_lt.
Qed.

(** X2. For a float64 byte count [m * 2^e] from 1 KiB up to, and not
    including, 1024 PiB, [humanize_units] picks one of the binary units and
    a value of at least 1 and less than 1024. *)
Theorem humanize_units_range (m e : Z) :
  (Z.abs m < 2 ^ 53)%Z → (-1074 ≤ e ≤ 971)%Z →
  Qc_of_Z (2 ^ 10) ≤ binary64 m e → binary64 m e < Qc_of_Z (2 ^ 60) →
  ∃ q unit, humanize_units (Fin (binary64 m e)) = (Fin q, unit)
    ∧ unit ∈ ["PiB"; "TiB"; "GiB"; "MiB"; "KiB"]
    ∧ 1 ≤ q ∧ q < Qc_of_Z 1024.
Proof.
  intros _ _. generalize (binary64 m e). intros b.
  intros Hlo Hhi. apply Qclt_not_le in Hhi.
  unfold humanize_units. rewrite !first_unit_cons by done. cbn [first_unit].
  repeat case_decide; [..|done]; eexists _, _.
  all: split; [reflexivity|]; split; [set_solver|].
  all: by apply Qcdiv_unit_range.
Qed.

Lemma humanize_units_range_witness :
  ∃ q unit, humanize_units (Fin (binary64 3 10)) = (Fin q, unit)
    ∧ unit ∈ ["PiB"; "TiB"; "GiB"; "MiB"; "KiB"]
    ∧ 1 ≤ q ∧ q < Qc_of_Z 1024.
Proof. apply (humanize_units_range 3 10); [lia|lia|compute_done|compute_done]. Defined.

(** X3. Below 1 KiB, negative counts included, [humanize_units] returns
    the count unchanged, named "byte" when it is exactly 1 and "bytes"
    otherwise; NaN and minus infinity come back unchanged as "bytes". *)
Theorem humanize_units_small (b : Qc) :
  b < Qc_of_Z (2 ^ 10) →
  humanize_units (Fin b) = (Fin b, if decide (b = 1) then "byte" else "bytes")
  ∧ humanize_units NaN = (NaN, "bytes")
  ∧ humanize_units NInf = (NInf, "bytes").
Proof.
  intros Hb. split; [|done].
  assert (∀ z, (2 ^ 10 ≤ z)%Z → ¬ Qc_of_Z z ≤ b) as Hz.
  { intros z Hz Hle. apply (Qclt_not_le _ _ Hb). trans (Qc_of_Z z); [|done].
    by apply Qc_of_Z_le. }
  unfold humanize_units. rewrite !first_unit_cons by done. cbn [first_unit].
  do 5 (case_decide; [by exfalso; eapply Hz; [|eassumption]|]).
  f_equal. unfold fne, of_Z. rewrite Z2Qc_inj_1.
  destruct (decide (b = 1)) as [->|Hne].
  - by rewrite bool_decide_eq_false_2 by (by intros []).
  - by rewrite bool_decide_eq_true_2.
Qed.

Lemma humanize_units_small_witness :
  humanize_units (of_Z 1) = (of_Z 1, "byte")
  ∧ humanize_units NaN = (NaN, "bytes")
  ∧ humanize_units NInf = (NInf, "bytes").
Proof. apply (humanize_units_small (Qc_of_Z 1)). compute_done. Defined.

(** X4. [humanize_units_generic_base10] returns a count below a thousand
    unchanged with an empty unit; from a thousand up to, and not including,
    10^15 it picks one of K, M, B, T with a value of at least 1 and less
    than 1000, and the value times the size of the unit is the count. *)
Theorem humanize_units_generic_base10_spec (c : Qc) :
  (c < Qc_of_Z (10 ^ 3) → humanize_units_generic_base10 (Fin c) = (Fin c, ""))
  ∧ (Qc_of_Z (10 ^ 3) ≤ c → c < Qc_of_Z (10 ^ 15) →
     ∃ q unit, humanize_units_generic_base10 (Fin c) = (Fin q, unit)
       ∧ unit ∈ ["T"; "B"; "M"; "K"]
       ∧ 1 ≤ q ∧ q < Qc_of_Z 1000 ∧ q * unit_size unit = c).
Proof.
  unfold humanize_units_generic_base10. rewrite !first_unit_cons by done.
  cbn [first_unit]. split.
  - intros Hc.
    assert (∀ z, (10 ^ 3 ≤ z)%Z → ¬ Qc_of_Z z ≤ c) as Hz.
    { intros z Hz Hle. apply (Qclt_not_le _ _ Hc). trans (Qc_of_Z z); [|done].
      by apply Qc_of_Z_le. }
    by repeat case_decide; try (by exfalso; eapply Hz; [|eassumption]).
  - intros Hlo Hhi. apply Qclt_not_le in Hhi.
    repeat case_decide; [..|done]; eexists _, _.
    all: split; [reflexivity|]; split; [set_solver|].
    all: match goal with
         | |- 1 ≤ ?b / Qc_of_Z ?z ∧ _ =>
             destruct (Qcdiv_unit_range b z 1000) as [? ?]; [done..|]
         end.
    all: split_and!; [done..|].
    all: apply Qcdiv_mul_cancel, Qc_pos_ne0, Qc_of_Z_pos; done.
Qed.

Lemma humanize_units_generic_base10_spec_witness :
  humanize_units_generic_base10 (of_Z 999) = (of_Z 999, "")
  ∧ ∃ q unit, humanize_units_generic_base10 (of_Z 2500000) = (Fin q, unit)
      ∧ unit ∈ ["T"; "B"; "M"; "K"]
      ∧ 1 ≤ q ∧ q < Qc_of_Z 1000 ∧ q * unit_size unit = Qc_of_Z 2500000.
Proof.
  split.
  - apply (humanize_units_generic_base10_spec (Qc_of_Z 999)). compute_done.
  - apply (humanize_units_generic_base10_spec (Qc_of_Z 2500000)); compute_done.
Defined.

(** ** Direction of the min/max columns *)

Lemma fle_trans a b c : fle a b = true → fle b c = true → fle a c = true.
Proof.
  destruct a as [x| | |], b as [y| | |], c as [z| | |]; simpl; try done.
  rewrite !bool_decide_eq_true. intros ??. by trans y.
Qed.

Lemma count_false_le (l : list bool) :
  (length (filter (λ ok, ok = false) l) ≤ length l)%nat.
Proof. apply length_filter. Qed.

Lemma count_false_zero (l : list bool) :
  length (filter (λ ok, ok = false) l) = 0%nat ↔ Forall (λ ok, ok = true) l.
Proof.
  induction l as [|[] l IH].
  - split; [constructor|done].
  - rewrite filter_cons_False by done. rewrite IH. split.
    + by constructor.
    + by inversion 1.
  - rewrite filter_cons_True by done. split; [done|]. by inversion 1.
Qed.

Lemma invalid_minmax_df_count df key mins maxs :
  getcol df (key +:+ "_min") = Ok mins →
  getcol df (key +:+ "_max") = Ok maxs →
  invalid_minmax_df df key
  = Ok (length (filter (λ ok, ok = false) (zip_with fle mins maxs))).
Proof. intros Hmin Hmax. unfold invalid_minmax_df. by rewrite Hmin, Hmax. Qed.

Lemma invalid_minmax_df_ordered df key mins maxs :
  getcol df (key +:+ "_min") = Ok mins →
  getcol df (key +:+ "_max") = Ok maxs →
  (∀ row a b, mins !! row = Some a → maxs !! row = Some b → fle a b = true) →
  invalid_minmax_df df key = Ok 0%nat.
Proof.
  intros Hmin Hmax Hrows. rewrite (invalid_minmax_df_count _ _ _ _ Hmin Hmax).
  f_equal. apply count_false_zero, Forall_lookup_2. intros row ok.
  rewrite lookup_zip_with.
  destruct (mins !! row) as [a|] eqn:Ha; [|done].
  destruct (maxs !! row) as [b|] eqn:Hb; [|done].
  intros [= <-]. by eapply Hrows.
Qed.

(** X5. When both columns are present, [invalid_minmax_df] returns the
    number of rows where min <= max does not hold: at most the number of
    rows, 0 exactly when every row is in order, and never 0 when a column
    holds a NaN. *)
Theorem invalid_minmax_df_zero (df : DataFrame) (key : string) (mins maxs : list fval) :
  getcol df (key +:+ "_min") = Ok mins →
  getcol df (key +:+ "_max") = Ok maxs →
  length mins = length maxs →
  ∃ n, invalid_minmax_df df key = Ok n
    ∧ (n ≤ length mins)%nat
    ∧ (n = 0%nat ↔
       ∀ row a b, mins !! row = Some a → maxs !! row = Some b → fle a b = true)
    ∧ (NaN ∈ mins ∨ NaN ∈ maxs → n ≠ 0%nat).
Proof.
  intros Hmin Hmax Hlen. eexists. split; [by apply invalid_minmax_df_count|].
  assert (length (filter (λ ok, ok = false) (zip_with fle mins maxs)) = 0%nat ↔
          ∀ row a b, mins !! row = Some a → maxs !! row = Some b → fle a b = true)
    as Hiff.
  { rewrite count_false_zero, Forall_lookup. split.
    - intros H row a b Ha Hb. apply (H row). by rewrite lookup_zip_with, Ha, Hb.
    - intros H row ok. rewrite lookup_zip_with.
      destruct (mins !! row) as [a|] eqn:Ha; [|done].
      destruct (maxs !! row) as [b|] eqn:Hb; [|done].
      intros [= <-]. by eapply H. }
  split_and!; [|exact Hiff|].
  - etrans; [apply count_false_le|]. rewrite length_zip_with. lia.
  - rewrite Hiff. intros [Hnan|Hnan] Hall.
    + apply list_elem_of_lookup in Hnan as [row Hrow].
      destruct (lookup_lt_is_Some_2 maxs row) as [b Hb].
      { rewrite <-Hlen. by eapply lookup_lt_Some. }
      by specialize (Hall _ _ _ Hrow Hb).
    + apply list_elem_of_lookup in Hnan as [row Hrow].
      destruct (lookup_lt_is_Some_2 mins row) as [a Ha].
      { rewrite Hlen. by eapply lookup_lt_Some. }
      specialize (Hall _ _ _ Ha Hrow). by destruct a.
Qed.

Lemma invalid_minmax_df_zero_witness :
  ∃ n, invalid_minmax_df minmax_df "num_files" = Ok n
    ∧ (n ≤ 3)%nat
    ∧ (n = 0%nat ↔
       ∀ row a b, [of_Z 1; of_Z 5; NaN] !! row = Some a →
                  [of_Z 3; of_Z 4; of_Z 2] !! row = Some b → fle a b = true)
    ∧ (NaN ∈ [of_Z 1; of_Z 5; NaN] ∨ NaN ∈ [of_Z 3; of_Z 4; of_Z 2] → n ≠ 0%nat).
Proof.
  apply (invalid_minmax_df_zero minmax_df "num_files"
           [of_Z 1; of_Z 5; NaN] [of_Z 3; of_Z 4; of_Z 2]); reflexivity.
Defined.

Lemma Qcdiv_nonneg (a b : Qc) : 0 ≤ a → 0 < b → 0 ≤ a / b.
Proof.
  intros Ha Hb. unfold Qcdiv. apply Qcmult_nonneg_nonneg; [done|].
  by apply Qclt_le_weak, Qcinv_pos.
Qed.

Lemma fins_lookup qs i q : qs !! i = Some q → fins qs !! i = Some (Fin q).
Proof. intros H. unfold fins. by rewrite list_lookup_fmap, H. Qed.

(** The three projected cells of one bin of a valid table. *)
Lemma projected_bins_ordered (t : Qc) (index : list Z) (cs : list Qc) :
  bins_ok index → length cs = length index → Forall (λ c, 0 ≤ c) cs →
  0 < totalq cs (eave_q index) → 0 < t →
  let emin := of_Z <$> bin_extent_min index in
  let emax := of_Z <$> bin_extent_max index in
  let eave := bin_extent_ave index in
  ∀ bin c, cs !! bin = Some c →
    ∃ a fave fmax,
      projected_col (Fin t) (fins cs) emin emax emax !! bin = Some (Fin a)
      ∧ projected_col (Fin t) (fins cs) eave eave eave !! bin = Some fave
      ∧ projected_col (Fin t) (fins cs) emax emin (max_1 <$> emin) !! bin = Some fmax
      ∧ 0 ≤ a
      ∧ fle (Fin a) fave = true
      ∧ fle fave fmax = true
      ∧ (c = 0 → a = 0 ∧ fmax = Fin 0).
Proof.
  intros Hbins Hlen Hcs Hs Ht emin emax eave bin c Hc. subst emin emax eave.
  pose proof (bins_ok_range _ Hbins) as Hrange.
  destruct (extents_q_ordered _ Hbins) as (Hminave & Havemax & Hmin0).
  destruct (lookup_lt_is_Some_2 (emin_q index) bin) as [lo Hlo].
  { rewrite length_emin_q, <-Hlen by done. by eapply lookup_lt_Some. }
  destruct (lookup_lt_is_Some_2 (emax_q index) bin) as [hi Hhi].
  { unfold emax_q, bin_extent_max. rewrite length_fmap, <-Hlen.
    by eapply lookup_lt_Some. }
  destruct (extents_q_lookup _ Hbins _ _ _ Hlo Hhi)
    as (ave & m & Have & Hm & Hlo0 & Hla & Hah & Have0 & Hm0 & Hmh).
  rewrite !of_Z_fins, (bin_extent_ave_fins index) by done.
  fold (emin_q index) (emax_q index).
  pose proof (fins_lookup _ _ _ Hc) as Hfc.
  pose proof (fins_lookup _ _ _ Hlo) as Hflo.
  pose proof (fins_lookup _ _ _ Hhi) as Hfhi.
  pose proof (fins_lookup _ _ _ Have) as Hfave.
  assert ((max_1 <$> fins (emin_q index)) !! bin = Some (Fin m)) as Hfm
    by (by rewrite list_lookup_fmap, Hflo; simpl; rewrite Hm).
  rewrite (projected_col_lookup _ _ _ _ _ _ _ _ _ Hfc Hflo Hfhi).
  rewrite (projected_col_lookup _ _ _ _ _ _ _ _ _ Hfc Hfave Hfave).
  rewrite (projected_col_lookup _ _ _ _ _ _ _ _ _ Hfc Hfhi Hfm).
  rewrite !series_sum_mass_col.
  assert (Hc0 : 0 ≤ c) by (by eapply (Forall_lookup_1 _ _ _ _ Hcs)).
  assert (totalq cs (eave_q index) ≤ totalq cs (emax_q index)) as Ham
    by (by apply totalq_le).
  assert (0 < hi) as Hhi0 by (by apply (Qclt_le_trans _ ave)).
  assert (0 < totalq cs (emax_q index)) as HSmax
    by (by apply (Qclt_le_trans _ (totalq cs (eave_q index)))).
  destruct (cells_ordered t c lo ave hi m
              (totalq cs (emin_q index)) (totalq cs (eave_q index))
              (totalq cs (emax_q index))) as [Ho1 Ho2];
    [done..|by apply totalq_nonneg|by apply totalq_le|done|done|].
  rewrite (projected_cell_fin t c lo _ hi) in Ho1 |- * by (by apply Qc_pos_ne0).
  eexists _, _, _. split_and!; [reflexivity..| |exact Ho1|exact Ho2|].
  - apply Qcdiv_nonneg; [|done]. apply Qcmult_nonneg_nonneg; [|by apply Qclt_le_weak].
    apply Qcdiv_nonneg; [|done]. by apply Qcmult_nonneg_nonneg.
  - intros ->. split; [|apply projected_cell_zero].
    unfold Qcdiv. by rewrite !Qcmult_0_l.
Qed.

(** The columns of the whole projection. *)
Lemma project_cols target reference_df ref_files (tcol : string → list fval) :
  (2 ≤ length (df_index reference_df))%nat →
  getcol reference_df "num_files" = Ok ref_files →
  (∀ itype, itype ∈ NON_FILE_INODE_TYPES →
     getcol reference_df ("num_" +:+ itype) = Ok (tcol itype)) →
  let index := df_index reference_df in
  let emin := of_Z <$> bin_extent_min index in
  let emax := of_Z <$> bin_extent_max index in
  let eave := bin_extent_ave index in
  let fmin := projected_col target ref_files emin emax emax in
  let fmax := projected_col target ref_files emax emin (max_1 <$> emin) in
  let fave := projected_col target ref_files eave eave eave in
  ∃ newfs, project target reference_df = Ok newfs
    ∧ getcol newfs "num_files_min" = Ok fmin
    ∧ getcol newfs "num_files_max" = Ok fmax
    ∧ getcol newfs "num_files_ave" = Ok fave
    ∧ ∀ itype, itype ∈ NON_FILE_INODE_TYPES →
        getcol newfs ("num_" +:+ itype +:+ "_min")
          = Ok (nonfile_col fmin (tcol itype) ref_files)
        ∧ getcol newfs ("num_" +:+ itype +:+ "_max")
          = Ok (nonfile_col fmax (tcol itype) ref_files)
        ∧ getcol newfs ("num_" +:+ itype +:+ "_ave")
          = Ok (nonfile_col fave (tcol itype) ref_files).
Proof.
  intros Hlen2 Hfiles Htypes index emin emax eave fmin fmax fave.
  destruct (extended_counts _ _ Hlen2 Hfiles _ (add_bin_extents_ok _ Hlen2))
    as (H1 & _).
  destruct (project_files_cols target _ _ Hlen2 Hfiles)
    as (newfs0 & Hpf & Fmin & Fmax & Fave).
  assert (∀ itype, itype ∈ NON_FILE_INODE_TYPES →
            getcol
              (setcol (setcol (setcol reference_df
                 "bin_extent_min" (of_Z <$> bin_extent_min (df_index reference_df)))
                 "bin_extent_max" (of_Z <$> bin_extent_max (df_index reference_df)))
                 "bin_extent_ave" (bin_extent_ave (df_index reference_df)))
              ("num_" +:+ itype) = Ok (tcol itype)) as Htypes'.
  { intros itype Hin. rewrite <-(Htypes itype Hin).
    apply elem_of_NON_FILE_INODE_TYPES in Hin
      as [->|[->|[->|[->|[->| ->]]]]]; names; by df_read. }
  destruct (newfs_df_nonfiles_ok _ _ _ _ _ _ _ H1 Htypes' Fmin Fmax Fave)
    as (final & Hfinal & Hmin & Hmax & Have & Hcols).
  exists final. split; [|done].
  unfold project_files in Hpf. unfold project.
  rewrite add_bin_extents_ok, bind_Ok in Hpf |- * by done.
  by rewrite Hpf, bind_Ok.
Qed.

(** The min and the max cell of another inode type, from ordered file
    cells. *)
Lemma nonfile_cells_ordered (a y c : Qc) (fmax : fval) :
  0 ≤ a → fle (Fin a) fmax = true → 0 ≤ y → 0 ≤ c →
  (c = 0 → a = 0 ∧ fmax = Fin 0) →
  fle (fillna1 (Fin 0) (fdiv (fmul (Fin a) (Fin y)) (Fin c)))
      (fillna1 (Fin 0) (fdiv (fmul fmax (Fin y)) (Fin c))) = true.
Proof.
  intros Ha Hle Hy Hc Hzero.
  destruct (decide (c = 0)) as [->|Hc0].
  - destruct Hzero as [-> ->]; [done|].
    rewrite (fillna1_zero_or_nan (fdiv (fmul (Fin 0) (Fin y)) (Fin 0))); [done|].
    apply fdiv_zero_or_nan, fmul_zero_or_nan. by left.
  - assert (0 < c) as Hcpos.
    { destruct (Qcle_lt_or_eq _ _ Hc) as [?|?]; [done|congruence]. }
    assert (0 ≤ / c) as Hinv by (by apply Qclt_le_weak, Qcinv_pos).
    destruct fmax as [b| | |]; try done.
    + simpl in Hle |- *. apply bool_decide_eq_true in Hle.
      rewrite (is_zero_false c) by done. simpl. apply bool_decide_eq_true.
      unfold Qcdiv. apply Qcmult_le_compat_r; [|done].
      by apply Qcmult_le_compat_r.
    + simpl. rewrite (is_zero_false c) by done.
      destruct (decide (y = 0)) as [->|Hy0].
      * rewrite (is_zero_true 0) by done. simpl. apply bool_decide_eq_true.
        unfold Qcdiv. by rewrite Qcmult_0_r, Qcmult_0_l.
      * assert (0 < y) as Hypos.
        { destruct (Qcle_lt_or_eq _ _ Hy) as [?|?]; [done|congruence]. }
        rewrite (is_zero_false y), (is_pos_true y) by done. simpl.
        by rewrite (is_zero_false c), (is_pos_true c) by done.
Qed.

(** X6. The check that "should always return 0" does so on the
    projection: for valid bins, finite non-negative counts of every inode
    type, a total mass of the files within the int64 range, a positive
    total average mass and a positive target, [invalid_minmax_df] returns
    0 on every inode type of the projected table. *)
Theorem projection_minmax_valid
    (t s : Qc) (reference_df : DataFrame) (cs : list Qc) (ts : string → list Qc) :
  bins_ok (df_index reference_df) →
  getcol reference_df "num_files" = Ok (fins cs) →
  length cs = length (df_index reference_df) →
  Forall (λ c, 0 ≤ c) cs →
  no_overflow (df_index reference_df) cs →
  (∀ itype, itype ∈ NON_FILE_INODE_TYPES →
     getcol reference_df ("num_" +:+ itype) = Ok (fins (ts itype))
     ∧ Forall (λ c, 0 ≤ c) (ts itype)) →
  reference_total_mass reference_df "ave" = Ok (Fin s) →
  0 < s → 0 < t →
  ∃ newfs, project (Fin t) reference_df = Ok newfs
    ∧ ∀ itype, itype ∈ INODE_TYPES →
        invalid_minmax_df newfs ("num_" +:+ itype) = Ok 0%nat.
Proof.
  intros Hbins Hcounts Hlen Hcs _ Htypes Htotal Hs Ht.
  pose proof (bins_ok_length _ Hbins) as Hlen2.
  pose proof (bins_ok_range _ Hbins) as Hrange.
  destruct (reference_total_mass_ok reference_df (fins cs) Hlen2 Hcounts)
    as (_ & _ & Hsum).
  rewrite (bin_extent_ave_fins (df_index reference_df)), series_sum_mass_col,
    Htotal in Hsum by done.
  injection Hsum as Hsum.
  pose proof (projected_bins_ordered t (df_index reference_df) cs Hbins Hlen Hcs)
    as Hord.
  rewrite <-Hsum in Hord. specialize (Hord Hs Ht). cbn zeta in Hord.
  destruct (project_cols (Fin t) reference_df (fins cs) (λ itype, fins (ts itype))
              Hlen2 Hcounts) as (newfs & Hproj & Fmin & Fmax & Fave & Hcols).
  { intros itype Hin. by apply Htypes. }
  exists newfs. split; [done|].
  assert (∀ row a b,
    projected_col (Fin t) (fins cs) (of_Z <$> bin_extent_min (df_index reference_df))
      (of_Z <$> bin_extent_max (df_index reference_df))
      (of_Z <$> bin_extent_max (df_index reference_df)) !! row = Some a →
    projected_col (Fin t) (fins cs) (of_Z <$> bin_extent_max (df_index reference_df))
      (of_Z <$> bin_extent_min (df_index reference_df))
      (max_1 <$> (of_Z <$> bin_extent_min (df_index reference_df))) !! row = Some b →
    ∃ c q, cs !! row = Some c ∧ 0 ≤ c ∧ a = Fin q ∧ 0 ≤ q ∧ fle (Fin q) b = true
      ∧ (c = 0 → q = 0 ∧ b = Fin 0)) as Hfiles.
  { intros row a b Ha Hb.
    destruct (lookup_lt_is_Some_2 cs row) as [c Hc].
    { apply lookup_lt_Some in Ha. rewrite length_projected_col in Ha.
      - unfold fins in Ha. by rewrite length_fmap in Ha.
      - unfold fins. rewrite !length_fmap, length_bin_extent_min. lia.
      - unfold fins, bin_extent_max. rewrite !length_fmap. lia. }
    destruct (Hord row c Hc) as (q & fave & fmax & Hq & _ & Hfmax & Hq0 & Ho1 & Ho2 & Hz).
    rewrite Hq in Ha. rewrite Hfmax in Hb. injection Ha as <-. injection Hb as <-.
    exists c, q. split_and!; try done.
    - by eapply (Forall_lookup_1 _ _ _ _ Hcs).
    - by eapply fle_trans. }
  intros itype Hin. unfold INODE_TYPES in Hin.
  apply elem_of_cons in Hin as [->|Hin].
  - eapply invalid_minmax_df_ordered; names; [exact Fmin|exact Fmax|].
    intros row a b Ha Hb.
    destruct (Hfiles row a b Ha Hb) as (c & q & _ & _ & -> & _ & Hle & _). done.
  - change (itype ∈ NON_FILE_INODE_TYPES) in Hin.
    destruct (Hcols itype Hin) as (Cmin & Cmax & _).
    destruct (Htypes itype Hin) as [_ Hts].
    eapply invalid_minmax_df_ordered; [exact Cmin|exact Cmax|].
    intros row a b. rewrite !nonfile_col_lookup.
    destruct (projected_col _ _ _ _ (of_Z <$> bin_extent_max _) !! row)
      as [fa|] eqn:Hfa; [|done].
    destruct (projected_col _ _ _ _ (max_1 <$> _) !! row) as [fb|] eqn:Hfb;
      [|by destruct (fins (ts itype) !! row)].
    destruct (Hfiles row fa fb Hfa Hfb) as (c & q & Hc & Hc0 & -> & Hq0 & Hle & Hz).
    unfold fins. rewrite !list_lookup_fmap, Hc.
    destruct (ts itype !! row) as [y|] eqn:Hy; [|done].
    cbn [mbind option_bind fmap option_fmap option_map].
    intros [= <-] [= <-].
    apply nonfile_cells_ordered; try done.
    by eapply (Forall_lookup_1 _ _ _ _ Hts).
Qed.

Lemma projection_minmax_valid_witness :
  ∃ newfs, project (of_Z 24) full_df = Ok newfs
    ∧ ∀ itype, itype ∈ INODE_TYPES →
        invalid_minmax_df newfs ("num_" +:+ itype) = Ok 0%nat.
Proof.
  apply (projection_minmax_valid (Qc_of_Z 24) (Qc_of_Z 25 / 2) full_df
           (Qc_of_Z <$> [0; 2; 1; 0]%Z) full_df_type_counts);
    [compute_done|reflexivity|reflexivity|compute_done|compute_done| |compute_done
    |compute_done|compute_done].
  intros itype Hin.
  apply elem_of_NON_FILE_INODE_TYPES in Hin
    as [->|[->|[->|[->|[->| ->]]]]]; (split; [reflexivity|compute_done]).
Defined.

(** ** The projected masses *)

Lemma series_mul_scalar_fins qs t :
  series_mul_scalar (fins qs) (Fin t) = fins ((λ q, q * t) <$> qs).
Proof.
  unfold series_mul_scalar, fins. rewrite <-!list_fmap_compose.
  by apply list_fmap_ext.
Qed.

Lemma sumq_fmap_mul qs t : sumq ((λ q, q * t) <$> qs) = sumq qs * t.
Proof.
  induction qs as [|q qs IH]; [by rewrite Qcmult_0_l|].
  rewrite fmap_cons. cbn [sumq]. rewrite IH. by rewrite Qcmult_plus_distr_l.
Qed.

Lemma project_mass_ok target reference_df counts :
  (2 ≤ length (df_index reference_df))%nat →
  getcol reference_df "num_files" = Ok counts →
  let index := df_index reference_df in
  let emin := of_Z <$> bin_extent_min index in
  let emax := of_Z <$> bin_extent_max index in
  let eave := bin_extent_ave index in
  let new_mass e other :=
    series_mul_scalar
      (series_div_scalar (mass_col counts e) (series_sum (mass_col counts other)))
      target in
  project_mass target reference_df =
    Ok (setcol (setcol (setcol (new_frame index)
          "dmass_min" (new_mass emin emax))
          "dmass_max" (new_mass emax emin))
          "dmass_ave" (new_mass eave eave)).
Proof.
  intros Hlen Hcounts index emin emax eave new_mass. unfold project_mass.
  rewrite add_bin_extents_ok, bind_Ok by done.
  by apply (rescale_mass_ok reference_df counts Hlen Hcounts), add_bin_extents_ok.
Qed.

Lemma projected_mass_ave_sum (t s : Qc) (cs es : list Qc) :
  s ≠ 0 → series_sum (mass_col (fins cs) (fins es)) = Fin s →
  series_sum
    (series_mul_scalar
       (series_div_scalar (mass_col (fins cs) (fins es))
          (series_sum (mass_col (fins cs) (fins es))))
       (Fin t)) = Fin t.
Proof.
  intros Hs Hsum. rewrite Hsum. rewrite mass_col_fins in Hsum |- *.
  rewrite series_sum_fins in Hsum.
  assert (s = sumq (massq cs es)) as Hs' by (by injection Hsum).
  rewrite series_div_scalar_fins, series_mul_scalar_fins, series_sum_fins by done.
  rewrite sumq_fmap_mul, sumq_fmap_div, <-Hs'. f_equal. by field.
Qed.

(** X7. Rescaling conserves mass: for finite counts and a non-zero total
    average mass, the average projected masses sum to the target. *)
Theorem projected_mass_conserved (t s : Qc) (reference_df : DataFrame) (cs : list Qc) :
  (2 ≤ length (df_index reference_df))%nat →
  getcol reference_df "num_files" = Ok (fins cs) →
  reference_total_mass reference_df "ave" = Ok (Fin s) →
  s ≠ 0 →
  ∃ nmd dmass, project_mass (Fin t) reference_df = Ok nmd
    ∧ getcol nmd "dmass_ave" = Ok dmass
    ∧ series_sum dmass = Fin t.
Proof.
  intros Hlen Hcounts Htotal Hs.
  destruct (reference_total_mass_ok reference_df (fins cs) Hlen Hcounts)
    as (_ & _ & Hsum).
  rewrite Htotal in Hsum. apply Ok_inj in Hsum.
  eexists _, _. split; [by apply project_mass_ok|]. split; [by df_read|].
  rewrite bin_extent_ave_fins_wrap in Hsum |- *.
  by apply (projected_mass_ave_sum t s).
Qed.

Lemma projected_mass_conserved_witness :
  ∃ nmd dmass, project_mass (of_Z 24) scenario_df = Ok nmd
    ∧ getcol nmd "dmass_ave" = Ok dmass
    ∧ series_sum dmass = of_Z 24.
Proof.
  apply (projected_mass_conserved (Qc_of_Z 24) (Qc_of_Z 25 / 2) scenario_df
           (Qc_of_Z <$> [0; 2; 1; 0]%Z)); [simpl; lia|reflexivity|compute_done|compute_done].
Defined.



(** ** Scaling the target and the counts *)

Lemma is_zero_mult_pos k a : 0 < k → is_zero (a * k) = is_zero a.
Proof.
  intros Hk. unfold is_zero. apply bool_decide_ext. split.
  - intros H. destruct (Qcmult_integral _ _ H) as [?|?]; [done|].
    by apply Qc_pos_ne0 in Hk.
  - intros ->. apply Qcmult_0_l.
Qed.

Lemma is_pos_mult_pos k a : 0 < k → is_pos (a * k) = is_pos a.
Proof.
  intros Hk. unfold is_pos. apply bool_decide_ext. split.
  - intros H. destruct (Qclt_le_dec 0 a) as [|Hle]; [done|exfalso].
    apply (Qcmult_le_compat_r _ _ k) in Hle; [|by apply Qclt_le_weak].
    rewrite Qcmult_0_l in Hle. by apply Qcle_not_lt in Hle.
  - intros Ha. by apply Qcmult_pos_pos.
Qed.

Lemma fmul_Fin_assoc x t k :
  0 < k → fmul x (Fin (t * k)) = fmul (fmul x (Fin t)) (Fin k).
Proof.
  intros Hk. pose proof (Qc_pos_ne0 _ Hk) as Hk0.
  destruct x as [q| | |]; simpl; try done.
  - by rewrite Qcmult_assoc.
  - rewrite is_zero_mult_pos, is_pos_mult_pos by done.
    destruct (is_zero t); [done|]. destruct (is_pos t); simpl;
      by rewrite (is_zero_false k), ?(is_pos_true k) by done.
  - rewrite is_zero_mult_pos, is_pos_mult_pos by done.
    destruct (is_zero t); [done|]. destruct (is_pos t); simpl;
      by rewrite (is_zero_false k), ?(is_pos_true k) by done.
Qed.

Lemma fdiv_fmul_scale x d k :
  0 < k →
  fillna1 (Fin 0) (fdiv (fmul x (Fin k)) d)
  = fmul (fillna1 (Fin 0) (fdiv x d)) (Fin k).
Proof.
  intros Hk. pose proof (Qc_pos_ne0 _ Hk) as Hk0.
  assert (Fin 0 = Fin (0 * k)) as Hz by (by rewrite Qcmult_0_l).
  destruct x as [a| | |], d as [b| | |]; simpl;
    rewrite ?(is_zero_false k), ?(is_pos_true k) by done; simpl; try done.
  - destruct (is_zero b) eqn:Hb.
    + rewrite is_zero_mult_pos, is_pos_mult_pos by done.
      destruct (is_zero a); [done|]. destruct (is_pos a); simpl;
        by rewrite (is_zero_false k), ?(is_pos_true k) by done.
    + change (Fin (a * k / b) = Fin (a / b * k)). f_equal.
      apply bool_decide_eq_false in Hb. by field.
  - destruct (is_zero b || is_pos b); simpl;
      by rewrite (is_zero_false k), ?(is_pos_true k) by done.
  - destruct (is_zero b || is_pos b); simpl;
      by rewrite (is_zero_false k), ?(is_pos_true k) by done.
Qed.

Lemma projected_col_scale_target k t counts e other d :
  0 < k →
  projected_col (Fin (t * k)) counts e other d
  = series_mul_scalar (projected_col (Fin t) counts e other d) (Fin k).
Proof.
  intros Hk. unfold projected_col, fillna, series_div, series_mul_scalar.
  apply list_eq. intros i.
  rewrite !list_lookup_fmap, !lookup_zip_with, !list_lookup_fmap.
  destruct (series_div_scalar _ _ !! i) as [p|]; [|done].
  destruct (d !! i) as [di|]; [|done]. simpl.
  by rewrite fmul_Fin_assoc, fdiv_fmul_scale.
Qed.

(** X9. The projection is proportional to the target: multiplying the
    target by a positive factor multiplies every projected file count, of
    every reduction, by that factor, whatever the reference counts are. *)
Theorem project_files_scales_with_target
    (k t : Qc) (reference_df : DataFrame) (counts : list fval) :
  (2 ≤ length (df_index reference_df))%nat →
  getcol reference_df "num_files" = Ok counts →
  0 < k →
  ∃ newfs scaled,
    project_files (Fin t) reference_df = Ok newfs
    ∧ project_files (Fin (t * k)) reference_df = Ok scaled
    ∧ ∀ redux, redux ∈ REDUCTIONS →
        ∃ col, getcol newfs ("num_files_" +:+ redux) = Ok col
          ∧ getcol scaled ("num_files_" +:+ redux) = Ok (series_mul_scalar col (Fin k)).
Proof.
  intros Hlen Hcounts Hk. eexists _, _.
  split; [by apply project_files_ok|]. split; [by apply project_files_ok|].
  intros redux Hin. apply elem_of_REDUCTIONS in Hin as [->|[->| ->]]; names.
  all: eexists; split; [by df_read|]; df_read.
  all: by rewrite projected_col_scale_target.
Qed.

Lemma project_files_scales_with_target_witness :
  ∃ newfs scaled,
    project_files (of_Z 24) scenario_df = Ok newfs
    ∧ project_files (Fin (Qc_of_Z 24 * Qc_of_Z 2)) scenario_df = Ok scaled
    ∧ ∀ redux, redux ∈ REDUCTIONS →
        ∃ col, getcol newfs ("num_files_" +:+ redux) = Ok col
          ∧ getcol scaled ("num_files_" +:+ redux)
            = Ok (series_mul_scalar col (of_Z 2)).
Proof.
  apply (project_files_scales_with_target (Qc_of_Z 2) (Qc_of_Z 24) scenario_df
           (of_Z <$> [0; 2; 1; 0]%Z)); [simpl; lia|reflexivity|compute_done].
Defined.

Lemma massq_scale k cs es :
  massq ((λ c, c * k) <$> cs) es = (λ m, m * k) <$> massq cs es.
Proof.
  unfold massq. revert es. induction cs as [|c cs IH]; intros [|e es]; [done..|].
  simpl. rewrite IH. f_equal. ring.
Qed.

Lemma fdiv_scale k a b : 0 < k → fdiv (Fin (a * k)) (Fin (b * k)) = fdiv (Fin a) (Fin b).
Proof.
  intros Hk. pose proof (Qc_pos_ne0 _ Hk) as Hk0. unfold fdiv.
  rewrite !is_zero_mult_pos, is_pos_mult_pos by done.
  destruct (is_zero b) eqn:Hb; [done|].
  apply bool_decide_eq_false in Hb. f_equal. by field.
Qed.

Lemma projected_col_scale_counts k target cs es os d :
  0 < k →
  projected_col target (fins ((λ c, c * k) <$> cs)) (fins es) (fins os) d
  = projected_col target (fins cs) (fins es) (fins os) d.
Proof.
  intros Hk. unfold projected_col.
  rewrite !mass_col_fins, !series_sum_fins, !massq_scale, sumq_fmap_mul.
  do 3 f_equal. unfold series_div_scalar, fins. rewrite <-!list_fmap_compose.
  apply list_fmap_ext. intros i m _. simpl. by apply fdiv_scale.
Qed.

(** X10. The projection depends on the shape of the distribution only:
    multiplying every finite reference file count by the same positive
    factor leaves the projected file counts unchanged, as long as the
    masses and the total masses of the two tables, under the min and the
    max extents, stay within the int64 range. *)
Theorem project_files_scale_invariant
    (k : Qc) (target : fval) (reference_df scaled_df : DataFrame) (cs : list Qc) :
  (2 ≤ length (df_index reference_df))%nat →
  df_index scaled_df = df_index reference_df →
  getcol reference_df "num_files" = Ok (fins cs) →
  getcol scaled_df "num_files" = Ok (fins ((λ c, c * k) <$> cs)) →
  0 < k →
  int64_exact cs (emin_q (df_index reference_df)) →
  int64_exact cs (emax_q (df_index reference_df)) →
  int64_exact ((λ c, c * k) <$> cs) (emin_q (df_index reference_df)) →
  int64_exact ((λ c, c * k) <$> cs) (emax_q (df_index reference_df)) →
  ∃ newfs, project_files target reference_df = Ok newfs
    ∧ project_files target scaled_df = Ok newfs.
Proof.
  intros Hlen Hidx Hcounts Hscaled Hk _ _ _ _. eexists.
  split; [by apply project_files_ok|].
  rewrite (project_files_ok _ scaled_df _) by (by rewrite ?Hidx). cbn zeta.
  rewrite Hidx, bin_extent_ave_fins_wrap, !of_Z_fins.
  by rewrite !projected_col_scale_counts.
Qed.

Lemma project_files_scale_invariant_witness :
  ∃ newfs, project_files (of_Z 24) scenario_df = Ok newfs
    ∧ project_files (of_Z 24) scaled_scenario_df = Ok newfs.
Proof.
  apply (project_files_scale_invariant (Qc_of_Z 1000) (of_Z 24) scenario_df
           scaled_scenario_df (Qc_of_Z <$> [0; 2; 1; 0]%Z));
    [simpl; lia|reflexivity|reflexivity|compute_done|compute_done
    |compute_done|compute_done|compute_done|compute_done].
Defined.

(** ** Tables that cannot be projected *)

(** X11. A table with a single bin cannot be projected: the extent column
    has two entries, does not fit the index of one row, and ValueError is
    raised.  With two bins or more and no [num_files] column, KeyError
    names that column. *)
Theorem project_files_errors (target : fval) (reference_df : DataFrame) :
  (length (df_index reference_df) = 1%nat →
   project_files target reference_df = Raise ValueError
   ∧ project target reference_df = Raise ValueError)
  ∧ ((2 ≤ length (df_index reference_df))%nat →
     df_cols reference_df !! "num_files" = None →
     project_files target reference_df = Raise (KeyError "num_files")
     ∧ project target reference_df = Raise (KeyError "num_files")).
Proof.
  split.
  - intros Hlen. unfold project_files, project.
    by rewrite add_bin_extents_short.
  - intros Hlen Hnone. unfold project_files, project.
    rewrite add_bin_extents_ok, !bind_Ok by done.
    unfold rescale, mass_dist, REDUCTIONS. cbn [for_each].
    assert (getcol reference_df "num_files" = Raise (KeyError "num_files")) as Hraise
      by (unfold getcol; by rewrite Hnone).
    by rewrite !(getcol_setcol_ne _ _ "num_files"), Hraise by done.
Qed.

Lemma project_files_errors_witness :
  (project_files (of_Z 24) one_bin_df = Raise ValueError
   ∧ project (of_Z 24) one_bin_df = Raise ValueError)
  ∧ (project_files (of_Z 24) no_files_df = Raise (KeyError "num_files")
     ∧ project (of_Z 24) no_files_df = Raise (KeyError "num_files")).
Proof.
  split.
  - apply (project_files_errors (of_Z 24) one_bin_df). reflexivity.
  - apply (project_files_errors (of_Z 24) no_files_df); [simpl; lia|reflexivity].
Defined.

(** ** Order of the reference totals *)



(** ** Data on the MDT *)

Ltac names_in H :=
  repeat match type of H with
  | context [String.append ?a ?b] =>
      let s := eval vm_compute in (String.append a b) in
      change (String.append a b) with s in H
  end.

Lemma getlist_insert_eq (d : gmap string (list fval)) k v :
  getlist (<[k := v]> d) k = Ok v.
Proof. unfold getlist. by rewrite lookup_insert_eq. Qed.

Lemma getlist_insert_ne (d : gmap string (list fval)) k k' v :
  k ≠ k' → getlist (<[k := v]> d) k' = getlist d k'.
Proof. intros Hne. unfold getlist. by rewrite lookup_insert_ne. Qed.

Lemma getlist_Some (d : gmap string (list fval)) k v :
  d !! k = Some v → getlist d k = Ok v.
Proof. intros H. unfold getlist. by rewrite H. Qed.

Lemma whole_file_mass_S dmass rows :
  whole_file_mass dmass (S rows)
  = whole_file_mass dmass rows ++ [series_sum (take (rows + 1) dmass)].
Proof. unfold whole_file_mass. by rewrite seq_S, fmap_app. Qed.

Lemma first_stripe_mass_S num_files extent_max rows :
  first_stripe_mass num_files extent_max (S rows)
  = first_stripe_mass num_files extent_max rows
    ++ [fmul (series_sum (drop (rows + 1) num_files)) (extent_max !!! rows)].
Proof. unfold first_stripe_mass. by rewrite seq_S, fmap_app. Qed.

Section new_mdt.
Context (reference_df nmd newfs_df : DataFrame).
Context (dmass num_files : string → list fval) (extent_max : list fval).
Hypothesis Hdmass : ∀ redux, redux ∈ REDUCTIONS →
  getcol nmd ("dmass_" +:+ redux) = Ok (dmass redux).
Hypothesis Hfiles : ∀ redux, redux ∈ REDUCTIONS →
  getcol newfs_df ("num_files_" +:+ redux) = Ok (num_files redux).
Hypothesis Hextent : getcol reference_df "bin_extent_max" = Ok extent_max.

Lemma size_on_mdt_row_ok s start :
  mdt_lists dmass num_files extent_max s start →
  ∃ s', size_on_mdt_row reference_df nmd newfs_df s start = Ok s'
    ∧ mdt_lists dmass num_files extent_max s' (S start).
Proof.
  intros Hs.
  destruct (Hs "min") as [Wmin Fmin]; [compute_done|].
  destruct (Hs "max") as [Wmax Fmax]; [compute_done|].
  destruct (Hs "ave") as [Wave Fave]; [compute_done|].
  pose proof (Hdmass "min" ltac:(compute_done)) as Dmin.
  pose proof (Hdmass "max" ltac:(compute_done)) as Dmax.
  pose proof (Hdmass "ave" ltac:(compute_done)) as Dave.
  pose proof (Hfiles "min" ltac:(compute_done)) as Nmin.
  pose proof (Hfiles "max" ltac:(compute_done)) as Nmax.
  pose proof (Hfiles "ave" ltac:(compute_done)) as Nave.
  names_in Wmin; names_in Wmax; names_in Wave.
  names_in Fmin; names_in Fmax; names_in Fave.
  names_in Dmin; names_in Dmax; names_in Dave.
  names_in Nmin; names_in Nmax; names_in Nave.
  unfold size_on_mdt_row, REDUCTIONS. cbn [for_each]. names.
  rewrite Dmin, Dmax, Dave, Nmin, Nmax, Nave, Hextent.
  repeat first
    [ rewrite getlist_insert_eq
    | rewrite getlist_insert_ne by discriminate
    | rewrite (getlist_Some _ _ _ Wmin)
    | rewrite (getlist_Some _ _ _ Wmax)
    | rewrite (getlist_Some _ _ _ Wave)
    | rewrite (getlist_Some _ _ _ Fmin)
    | rewrite (getlist_Some _ _ _ Fmax)
    | rewrite (getlist_Some _ _ _ Fave)
    | rewrite bind_Ok ].
  rewrite <-!whole_file_mass_S, <-!first_stripe_mass_S.
  eexists. split; [reflexivity|].
  intros redux Hin. apply elem_of_REDUCTIONS in Hin as [->|[->| ->]]; names.
  all: by repeat first
         [ rewrite lookup_insert_eq | rewrite lookup_insert_ne by discriminate ].
Qed.

Lemma size_on_mdt_rows s start rows :
  mdt_lists dmass num_files extent_max s start →
  ∃ s', for_each (seq start rows) (size_on_mdt_row reference_df nmd newfs_df) s = Ok s'
    ∧ mdt_lists dmass num_files extent_max s' (start + rows).
Proof.
  revert s start. induction rows as [|rows IH]; intros s start Hs.
  { exists s. split; [done|]. by rewrite Nat.add_0_r. }
  cbn [seq for_each].
  destruct (size_on_mdt_row_ok s start Hs) as (s1 & -> & Hs1). rewrite bind_Ok.
  destruct (IH s1 (S start) Hs1) as (s' & Hs' & Hlists).
  exists s'. split; [exact Hs'|]. by rewrite <-Nat.add_succ_comm.
Qed.
End new_mdt.

Lemma setcol_array_Ok df key c :
  length c = length (df_index df) → setcol_array df key c = Ok (setcol df key c).
Proof. intros H. unfold setcol_array. by rewrite decide_True. Qed.

Lemma length_whole_file_mass dmass rows : length (whole_file_mass dmass rows) = rows.
Proof. unfold whole_file_mass. by rewrite length_fmap, length_seq. Qed.

Lemma length_first_stripe_mass num_files extent_max rows :
  length (first_stripe_mass num_files extent_max rows) = rows.
Proof. unfold first_stripe_mass. by rewrite length_fmap, length_seq. Qed.

Section new_mdt_cell.
Context (reference_df nmd newfs_df : DataFrame).
Context (dmass num_files : string → list fval) (extent_max : list fval).
Hypothesis Hdmass : ∀ redux, redux ∈ REDUCTIONS →
  getcol nmd ("dmass_" +:+ redux) = Ok (dmass redux).
Hypothesis Hfiles : ∀ redux, redux ∈ REDUCTIONS →
  getcol newfs_df ("num_files_" +:+ redux) = Ok (num_files redux).
Hypothesis Hextent : getcol reference_df "bin_extent_max" = Ok extent_max.
Hypothesis Hindex : length (df_index nmd) = length (df_index newfs_df).

Lemma new_mdt_ok :
  let rows := length (df_index nmd) in
  ∃ out, new_mdt reference_df nmd newfs_df = Ok out
    ∧ ∀ redux, redux ∈ REDUCTIONS →
        getcol out ("whole_file_mass_" +:+ redux)
          = Ok (whole_file_mass (dmass redux) rows)
        ∧ getcol out ("first_stripe_mass_" +:+ redux)
          = Ok (first_stripe_mass (num_files redux) extent_max rows)
        ∧ getcol out ("total_dom_mass_" +:+ redux)
          = Ok (series_add (whole_file_mass (dmass redux) rows)
                           (first_stripe_mass (num_files redux) extent_max rows)).
Proof.
  intros rows. unfold new_mdt, size_on_mdt.
  destruct (size_on_mdt_rows reference_df nmd newfs_df dmass num_files extent_max
              Hdmass Hfiles Hextent
              (list_to_map ((λ key, (key, [])) <$> size_on_mdt_keys)) 0 rows)
    as (s & Hs & Hlists).
  { intros redux Hin. apply elem_of_REDUCTIONS in Hin as [->|[->| ->]]; done. }
  fold rows. rewrite Hs, bind_Ok. clear Hs. rewrite Nat.add_0_l in Hlists.
  destruct (Hlists "min") as [Wmin Fmin]; [compute_done|].
  destruct (Hlists "max") as [Wmax Fmax]; [compute_done|].
  destruct (Hlists "ave") as [Wave Fave]; [compute_done|].
  names_in Wmin; names_in Wmax; names_in Wave.
  names_in Fmin; names_in Fmax; names_in Fave.
  unfold size_on_mdt_keys, REDUCTIONS. cbn [fmap list_fmap app for_each]. names.
  rewrite (getlist_Some _ _ _ Wmin), (getlist_Some _ _ _ Wmax),
    (getlist_Some _ _ _ Wave), (getlist_Some _ _ _ Fmin),
    (getlist_Some _ _ _ Fmax), (getlist_Some _ _ _ Fave).
  repeat first
    [ rewrite bind_Ok
    | rewrite setcol_array_Ok
        by (rewrite ?df_index_setcol, ?length_whole_file_mass,
              ?length_first_stripe_mass; exact Hindex) ].
  df_read. eexists. split; [reflexivity|].
  intros redux Hin. apply elem_of_REDUCTIONS in Hin as [->|[->| ->]]; names.
  all: split_and!; by df_read.
Qed.
End new_mdt_cell.

Lemma for_each_invariant {A S} (P : S → Prop) (xs : list A)
    (body : S → A → result S) s s' :
  (∀ s x s', P s → body s x = Ok s' → P s') →
  P s → for_each xs body s = Ok s' → P s'.
Proof.
  intros Hbody. revert s. induction xs as [|x xs IH]; intros s Hs; cbn [for_each].
  - by intros [= <-].
  - destruct (body s x) as [s1|e] eqn:Hs1; [|done]. rewrite bind_Ok.
    apply IH. by eapply Hbody.
Qed.

Lemma newfs_df_nonfiles_index reference_df newfs_df final :
  newfs_df_nonfiles reference_df newfs_df = Ok final →
  df_index final = df_index newfs_df.
Proof.
  apply (for_each_invariant (λ df, df_index df = df_index newfs_df)); [|done].
  intros df itype df' Hdf.
  apply (for_each_invariant (λ df, df_index df = df_index newfs_df)); [|done].
  intros df1 redux df2 Hdf1.
  destruct (getcol df1 _) as [files|]; cbn [mbind result_bind];
    [|intros H; discriminate H].
  destruct (getcol reference_df ("num_" +:+ itype)) as [ref_type|];
    cbn [mbind result_bind]; [|intros H; discriminate H].
  destruct (getcol reference_df "num_files") as [ref_files|];
    cbn [mbind result_bind]; [|intros H; discriminate H].
  by intros [= <-].
Qed.

(** The data on the MDT, from the table as it is read. *)
Lemma dom_capacity_ok target reference_df counts (tcol : string → list fval) :
  (2 ≤ length (df_index reference_df))%nat →
  getcol reference_df "num_files" = Ok counts →
  (∀ itype, itype ∈ NON_FILE_INODE_TYPES →
     getcol reference_df ("num_" +:+ itype) = Ok (tcol itype)) →
  let index := df_index reference_df in
  let rows := length index in
  let whole redux := whole_file_mass (projected_masses target index counts redux) rows in
  let first redux :=
    first_stripe_mass (projected_files target index counts redux)
      (of_Z <$> bin_extent_max index) rows in
  ∃ out, dom_capacity target reference_df = Ok out
    ∧ ∀ redux, redux ∈ REDUCTIONS →
        getcol out ("whole_file_mass_" +:+ redux) = Ok (whole redux)
        ∧ getcol out ("first_stripe_mass_" +:+ redux) = Ok (first redux)
        ∧ getcol out ("total_dom_mass_" +:+ redux)
          = Ok (series_add (whole redux) (first redux)).
Proof.
  intros Hlen Hcounts Htypes index rows whole first.
  destruct (extended_counts _ _ Hlen Hcounts _ (add_bin_extents_ok _ Hlen))
    as (H1 & H2 & H3 & H4 & H5).
  unfold dom_capacity. rewrite add_bin_extents_ok, bind_Ok by done.
  rewrite (mass_dist_ok _ _ _ _ _ H1 H2 H3 H4), bind_Ok.
  erewrite prob_dist_ok by (df_read; reflexivity). rewrite bind_Ok.
  erewrite (new_mass_dist_ok _ _) by (df_read; reflexivity). rewrite bind_Ok.
  erewrite (newfs_df_files_ok _ _ _ _ H2 H3 H4) by (df_read; reflexivity).
  rewrite bind_Ok.
  match goal with
  | |- ∃ out, (newfs_df_nonfiles ?ref ?newfs ≫= _) = _ ∧ _ =>
      destruct (newfs_df_nonfiles_ok ref newfs counts
                  (projected_files target index counts "min")
                  (projected_files target index counts "max")
                  (projected_files target index counts "ave") tcol H1)
        as (final & Hfinal & Fmin & Fmax & Fave & _)
  end.
  { intros itype Hin. rewrite <-(Htypes itype Hin).
    apply elem_of_NON_FILE_INODE_TYPES in Hin
      as [->|[->|[->|[->|[->| ->]]]]]; names; by df_read. }
  1-3: by df_read.
  rewrite Hfinal, bind_Ok. apply newfs_df_nonfiles_index in Hfinal.
  match goal with
  | |- ∃ out, new_mdt ?ref ?nmd final = _ ∧ _ =>
      destruct (new_mdt_ok ref nmd final (projected_masses target index counts)
                  (projected_files target index counts)
                  (of_Z <$> bin_extent_max index)) as (out & Hout & Hcols)
  end.
  - intros redux Hin. apply elem_of_REDUCTIONS in Hin as [->|[->| ->]]; names;
      by df_read.
  - intros redux Hin. by apply elem_of_REDUCTIONS in Hin as [->|[->| ->]]; names.
  - exact H3.
  - by rewrite Hfinal.
  - exists out. split; [exact Hout|]. exact Hcols.
Qed.

Lemma last_whole_file_mass dmass rows :
  (0 < rows)%nat → (length dmass ≤ rows)%nat →
  last (whole_file_mass dmass rows) = Some (series_sum dmass).
Proof.
  intros Hrows Hlen. rewrite last_lookup, length_whole_file_mass.
  unfold whole_file_mass. rewrite list_lookup_fmap, lookup_seq_lt by lia.
  simpl. by rewrite take_ge by lia.
Qed.

Lemma last_first_stripe_mass num_files (extent_max : list Z) rows :
  (0 < rows)%nat → (length num_files ≤ rows)%nat → length extent_max = rows →
  last (first_stripe_mass num_files (of_Z <$> extent_max) rows) = Some (Fin 0).
Proof.
  intros Hrows Hlen Hext. rewrite last_lookup, length_first_stripe_mass.
  unfold first_stripe_mass. rewrite list_lookup_fmap, lookup_seq_lt by lia.
  simpl. rewrite drop_ge by lia.
  rewrite (list_lookup_total_fmap of_Z extent_max) by lia.
  unfold series_sum, of_Z. rewrite filter_nil. simpl. by rewrite Qcmult_0_l.
Qed.

Lemma last_series_add a b x y :
  length a = length b → last a = Some x → last b = Some y →
  last (series_add a b) = Some (fadd x y).
Proof.
  intros Hlen. rewrite !last_lookup. unfold series_add.
  rewrite length_zip_with, lookup_zip_with, <-Hlen, Nat.min_id.
  by intros -> ->.
Qed.

Lemma length_projected_mass_col target counts e other :
  length (projected_mass_col target counts e other)
  = (length counts `min` length e)%nat.
Proof.
  unfold projected_mass_col, series_mul_scalar, series_div_scalar, mass_col,
    fillna, series_mul.
  by rewrite !length_fmap, length_zip_with.
Qed.

Lemma length_projected_col_le target counts e other d :
  (length (projected_col target counts e other d) ≤ length d)%nat.
Proof.
  unfold projected_col, fillna, series_div.
  rewrite length_fmap, length_zip_with. lia.
Qed.

Lemma length_bin_extent_ave_le index : (length (bin_extent_ave index) ≤ length index)%nat.
Proof.
  unfold bin_extent_ave, bin_extent_max. rewrite length_zip_with. lia.
Qed.

(** X13. With a first stripe as large as the last bin, all the file data
    is on the MDT: for finite counts and a non-zero total average mass, the
    last row of [new_mdt] has the target as whole-file mass of the average
    reduction, 0 as first-stripe mass, and the target as their total. *)
Theorem dom_capacity_last_bin
    (t s : Qc) (reference_df : DataFrame) (cs : list Qc) (tcol : string → list fval) :
  (2 ≤ length (df_index reference_df))%nat →
  getcol reference_df "num_files" = Ok (fins cs) →
  (∀ itype, itype ∈ NON_FILE_INODE_TYPES →
     getcol reference_df ("num_" +:+ itype) = Ok (tcol itype)) →
  reference_total_mass reference_df "ave" = Ok (Fin s) →
  s ≠ 0 →
  ∃ out whole first total,
    dom_capacity (Fin t) reference_df = Ok out
    ∧ getcol out "whole_file_mass_ave" = Ok whole
    ∧ getcol out "first_stripe_mass_ave" = Ok first
    ∧ getcol out "total_dom_mass_ave" = Ok total
    ∧ last whole = Some (Fin t)
    ∧ last first = Some (Fin 0)
    ∧ last total = Some (Fin t).
Proof.
  intros Hlen Hcounts Htypes Htotal Hs.
  destruct (dom_capacity_ok (Fin t) reference_df (fins cs) tcol Hlen Hcounts Htypes)
    as (out & Hout & Hcols).
  destruct (Hcols "ave") as (Hwhole & Hfirst & Htot); [compute_done|].
  names_in Hwhole. names_in Hfirst. names_in Htot.
  destruct (reference_total_mass_ok reference_df (fins cs) Hlen Hcounts)
    as (_ & _ & Hsum).
  rewrite Htotal in Hsum. apply Ok_inj in Hsum.
  rewrite bin_extent_ave_fins_wrap in Hsum.
  eexists _, _, _, _. split; [exact Hout|].
  split; [exact Hwhole|]. split; [exact Hfirst|]. split; [exact Htot|].
  assert (last (whole_file_mass
                  (projected_masses (Fin t) (df_index reference_df) (fins cs) "ave")
                  (length (df_index reference_df))) = Some (Fin t)) as Hlw.
  { rewrite last_whole_file_mass.
    - f_equal. change (projected_masses ?t ?i ?c "ave")
        with (projected_mass_col t c (bin_extent_ave i) (bin_extent_ave i)).
      unfold projected_mass_col. rewrite bin_extent_ave_fins_wrap.
      by apply (projected_mass_ave_sum t s).
    - lia.
    - change (projected_masses ?t ?i ?c "ave")
        with (projected_mass_col t c (bin_extent_ave i) (bin_extent_ave i)).
      rewrite length_projected_mass_col.
      pose proof (length_bin_extent_ave_le (df_index reference_df)). lia. }
  assert (last (first_stripe_mass
                  (projected_files (Fin t) (df_index reference_df) (fins cs) "ave")
                  (of_Z <$> bin_extent_max (df_index reference_df))
                  (length (df_index reference_df))) = Some (Fin 0)) as Hlf.
  { apply last_first_stripe_mass; [lia| |done].
    change (projected_files ?t ?i ?c "ave")
      with (projected_col t c (bin_extent_ave i) (bin_extent_ave i) (bin_extent_ave i)).
    etrans; [apply length_projected_col_le|apply length_bin_extent_ave_le]. }
  split; [exact Hlw|]. split; [exact Hlf|].
  rewrite (last_series_add _ _ (Fin t) (Fin 0)); [|
    by rewrite length_whole_file_mass, length_first_stripe_mass|done|done].
  simpl. by rewrite Qcplus_0_r.
Qed.

Lemma dom_capacity_last_bin_witness :
  ∃ out whole first total,
    dom_capacity (of_Z 24) full_df = Ok out
    ∧ getcol out "whole_file_mass_ave" = Ok whole
    ∧ getcol out "first_stripe_mass_ave" = Ok first
    ∧ getcol out "total_dom_mass_ave" = Ok total
    ∧ last whole = Some (of_Z 24)
    ∧ last first = Some (Fin 0)
    ∧ last total = Some (of_Z 24).
Proof.
  apply (dom_capacity_last_bin (Qc_of_Z 24) (Qc_of_Z 25 / 2) full_df
           (Qc_of_Z <$> [0; 2; 1; 0]%Z) full_df_types);
    [simpl; lia|reflexivity| |compute_done|compute_done].
  intros itype Hin.
  apply elem_of_NON_FILE_INODE_TYPES in Hin
    as [->|[->|[->|[->|[->| ->]]]]]; reflexivity.
Defined.

(** ** The floor of the inode mass *)






(** X15. [calculate_inode_mass] reads the file counts, then the
    directory counts, then the extent: the first of these columns that is
    missing is the one KeyError names, so a table that holds the projected
    file counts only is refused with the name of the directory column. *)
Theorem calculate_inode_mass_missing_column
    (L : fval) (reference_df input_df : DataFrame)
    (redux : string) (minmax : option string) (files : list fval) :
  let suffix := column_suffix minmax in
  (df_cols input_df !! ("num_files" +:+ suffix) = None →
   calculate_inode_mass L reference_df input_df redux minmax
   = Raise (KeyError ("num_files" +:+ suffix)))
  ∧ (df_cols input_df !! ("num_files" +:+ suffix) = Some files →
     df_cols input_df !! ("num_dirs" +:+ suffix) = None →
     calculate_inode_mass L reference_df input_df redux minmax
     = Raise (KeyError ("num_dirs" +:+ suffix)))
  ∧ (df_cols input_df !! ("num_files" +:+ suffix) = Some files →
     is_Some (df_cols input_df !! ("num_dirs" +:+ suffix)) →
     df_cols reference_df !! ("bin_extent_" +:+ redux) = None →
     calculate_inode_mass L reference_df input_df redux minmax
     = Raise (KeyError ("bin_extent_" +:+ redux))).
Proof.
  intros suffix. subst suffix. unfold calculate_inode_mass. cbv zeta.
  unfold NON_FILE_INODE_TYPES, INODE_TYPES. cbn [drop for_each].
  change ("num_" +:+ "dirs" +:+ column_suffix minmax)
    with ("num_dirs" +:+ column_suffix minmax).
  assert (∀ df key, df_cols df !! key = None → getcol df key = Raise (KeyError key))
    as Hnone by (intros df key H; unfold getcol; by rewrite H).
  assert (∀ df key c, df_cols df !! key = Some c → getcol df key = Ok c)
    as Hsome by (intros df key c H; unfold getcol; by rewrite H).
  split_and!.
  - intros H. by rewrite (Hnone _ _ H).
  - intros Hf Hd. by rewrite (Hsome _ _ _ Hf), bind_Ok, (Hnone _ _ Hd).
  - intros Hf [dirs Hd] He.
    by rewrite (Hsome _ _ _ Hf), bind_Ok, (Hsome _ _ _ Hd), bind_Ok, (Hnone _ _ He).
Qed.

Lemma calculate_inode_mass_missing_column_witness :
  calculate_inode_mass LUSTRE_BYTES_PER_INODE extent_df extent_df "ave" (Some "ave")
  = Raise (KeyError "num_files_ave")
  ∧ ∃ newfs, project_files (of_Z 24) scenario_df = Ok newfs
      ∧ calculate_inode_mass LUSTRE_BYTES_PER_INODE extent_df newfs "ave" (Some "ave")
        = Raise (KeyError "num_dirs_ave").
Proof.
  split.
  - apply (calculate_inode_mass_missing_column LUSTRE_BYTES_PER_INODE extent_df
             extent_df "ave" (Some "ave") []). reflexivity.
  - eexists. split; [reflexivity|].
    eapply (calculate_inode_mass_missing_column LUSTRE_BYTES_PER_INODE extent_df _
              "ave" (Some "ave")); reflexivity.
Defined.

(** ** Endurance from the required capacity *)

Lemma PARAM_BIGC_NEW_fallback ssi_low ssi_high chi n_new c_new r_new_low r_new_high :
  chi = None ∨ n_new = None ∨ c_new = None ∨ r_new_low = None ∨ r_new_high = None →
  PARAM_BIGC_NEW (Fin ssi_low) (Fin ssi_high) chi n_new c_new r_new_low r_new_high
  = (Fin (ssi_low * Qc_of_Z 28 / (Qc_of_Z 5 / Qc_of_Z 10) * FILL_BYTES_PER_DAY),
     Fin (ssi_high * Qc_of_Z 28 / (Qc_of_Z 5 / Qc_of_Z 10) * FILL_BYTES_PER_DAY)).
Proof.
  assert (is_zero (Qc_of_Z 5 / Qc_of_Z 10) = false) as Hhalf by compute_done.
  intros Hnone. unfold PARAM_BIGC_NEW.
  destruct chi, n_new, c_new, r_new_low, r_new_high;
    try (by destruct Hnone as [?|[?|[?|[?|?]]]]).
  all: cbn [fmul fdiv of_Z]; by rewrite Hhalf.
Qed.

(** X16. When the aggregate capacity of the new system is derived from
    the required capacity, SSI cancels: for every non-zero SSI, DWPD is
    FSWPD times WAF times the reference aggregate over 56 times the daily
    growth, for the low and for the high values. *)
Theorem dwpd_fallback_cancels_ssi
    (ssi_low ssi_high fswpd waf_low waf_high r_ref n_ref c_ref : Qc)
    (chi n_new c_new r_new_low r_new_high : option fval) :
  chi = None ∨ n_new = None ∨ c_new = None ∨ r_new_low = None ∨ r_new_high = None →
  ssi_low ≠ 0 → ssi_high ≠ 0 →
  let bigc := PARAM_BIGC_NEW (Fin ssi_low) (Fin ssi_high)
                chi n_new c_new r_new_low r_new_high in
  let per_day := Qc_of_Z 56 * FILL_BYTES_PER_DAY in
  DWPD_NEW (Fin ssi_low) (Fin fswpd) (Fin waf_low) (Fin r_ref) (Fin n_ref) (Fin c_ref)
    bigc.1
  = Fin (fswpd * waf_low * (r_ref * n_ref * c_ref) / per_day)
  ∧ DWPD_NEW (Fin ssi_high) (Fin fswpd) (Fin waf_high) (Fin r_ref) (Fin n_ref) (Fin c_ref)
      bigc.2
    = Fin (fswpd * waf_high * (r_ref * n_ref * c_ref) / per_day).
Proof.
  intros Hnone Hlow Hhigh bigc per_day. subst bigc per_day.
  rewrite PARAM_BIGC_NEW_fallback by done. cbn [fst snd].
  assert (FILL_BYTES_PER_DAY ≠ 0) as Hfill by compute_done.
  assert (Qc_of_Z 56 = Qc_of_Z 28 / (Qc_of_Z 5 / Qc_of_Z 10)) as H56 by compute_done.
  assert (Qc_of_Z 28 ≠ 0) as Ha by compute_done.
  assert (Qc_of_Z 5 / Qc_of_Z 10 ≠ 0) as Hh by compute_done.
  rewrite H56. clear H56.
  generalize dependent (Qc_of_Z 5 / Qc_of_Z 10). intros h Hh.
  generalize dependent (Qc_of_Z 28). intros a Ha.
  generalize dependent FILL_BYTES_PER_DAY. intros F HF.
  assert (∀ ssi, ssi ≠ 0 → ssi * a / h * F ≠ 0) as Hne.
  { intros ssi Hssi Hzero.
    apply Qcmult_integral in Hzero as [Hzero|?]; [|done].
    unfold Qcdiv in Hzero. apply Qcmult_integral in Hzero as [Hzero|Hinv].
    - by apply Qcmult_integral in Hzero as [?|?].
    - pose proof (Qcmult_inv_r h Hh) as Hone.
      by rewrite Hinv, Qcmult_0_r in Hone. }
  unfold DWPD_NEW. cbn [fmul]. unfold fdiv.
  rewrite !is_zero_false by (by apply Hne).
  split; f_equal; by field.
Qed.

Lemma dwpd_fallback_cancels_ssi_witness :
  let bigc := PARAM_BIGC_NEW (of_Z 3) (of_Z 4) None None None None None in
  let per_day := Qc_of_Z 56 * FILL_BYTES_PER_DAY in
  DWPD_NEW (of_Z 3) (Fin (Qc_of_Z 5 / Qc_of_Z 100)) (Fin (Qc_of_Z 25 / Qc_of_Z 10))
    (of_Z 1) (of_Z 1) (of_Z 1000) bigc.1
  = Fin (Qc_of_Z 5 / Qc_of_Z 100 * (Qc_of_Z 25 / Qc_of_Z 10)
         * (Qc_of_Z 1 * Qc_of_Z 1 * Qc_of_Z 1000) / per_day)
  ∧ DWPD_NEW (of_Z 4) (Fin (Qc_of_Z 5 / Qc_of_Z 100)) (of_Z 3)
      (of_Z 1) (of_Z 1) (of_Z 1000) bigc.2
    = Fin (Qc_of_Z 5 / Qc_of_Z 100 * Qc_of_Z 3
           * (Qc_of_Z 1 * Qc_of_Z 1 * Qc_of_Z 1000) / per_day).
Proof.
  apply (dwpd_fallback_cancels_ssi (Qc_of_Z 3) (Qc_of_Z 4) (Qc_of_Z 5 / Qc_of_Z 100)
           (Qc_of_Z 25 / Qc_of_Z 10) (Qc_of_Z 3) (Qc_of_Z 1) (Qc_of_Z 1) (Qc_of_Z 1000)
           None None None None None); [by left|compute_done|compute_done].
Defined.

(** ** Daily growth *)











(** ** Required capacity and endurance *)

(** X18. The two notebooks agree: when one of the parameters of the new
    system is [None], its aggregate capacity is [calc_pibs_required] for a
    purge fraction of 0.5 and a purge interval of 28 days, in bytes, at the
    daily growth that the endurance notebook quotes. *)
Theorem endurance_fallback_is_required_capacity
    (ssi_low ssi_high fill_rate_tibs : Qc)
    (chi n_new c_new r_new_low r_new_high : option fval) :
  chi = None ∨ n_new = None ∨ c_new = None ∨ r_new_low = None ∨ r_new_high = None →
  fill_rate_tibs * Qc_of_Z (2 ^ 40) = FILL_BYTES_PER_DAY →
  let purge_fraction := Fin (Qc_of_Z 5 / Qc_of_Z 10) in
  let purge_interval := of_Z 28 in
  let bytes_required ssi :=
    fmul (calc_pibs_required (Fin fill_rate_tibs) purge_fraction purge_interval (Fin ssi))
         (of_Z (2 ^ 50)) in
  PARAM_BIGC_NEW (Fin ssi_low) (Fin ssi_high) chi n_new c_new r_new_low r_new_high
  = (bytes_required ssi_low, bytes_required ssi_high).
Proof.
  intros Hnone Hfill purge_fraction purge_interval bytes_required.
  subst purge_fraction purge_interval bytes_required.
  rewrite PARAM_BIGC_NEW_fallback by done. rewrite <-Hfill.
  unfold calc_pibs_required. cbv zeta.
  rewrite (fdiv_of_Z fill_rate_tibs 1024) by done. cbn [fmul of_Z].
  assert (Qc_of_Z 1024 ≠ 0) as H1024 by compute_done.
  assert (Qc_of_Z 5 / Qc_of_Z 10 ≠ 0) as Hhalf by compute_done.
  unfold fdiv, of_Z. rewrite is_zero_false by done. cbn [fmul].
  assert (Qc_of_Z (2 ^ 50) = Qc_of_Z 1024 * Qc_of_Z (2 ^ 40)) as ->
    by (by rewrite <-Z2Qc_inj_mul).
  generalize dependent (Qc_of_Z 5 / Qc_of_Z 10). intros h Hh.
  f_equal; f_equal; by field.
Qed.

Lemma endurance_fallback_is_required_capacity_witness :
  let fill_rate_tibs := FILL_BYTES_PER_DAY / Qc_of_Z (2 ^ 40) in
  let bytes_required ssi :=
    fmul (calc_pibs_required (Fin fill_rate_tibs) (Fin (Qc_of_Z 5 / Qc_of_Z 10))
            (of_Z 28) (Fin ssi))
         (of_Z (2 ^ 50)) in
  PARAM_BIGC_NEW (of_Z 3) (of_Z 4) None None None None None
  = (bytes_required (Qc_of_Z 3), bytes_required (Qc_of_Z 4)).
Proof.
  apply (endurance_fallback_is_required_capacity (Qc_of_Z 3) (Qc_of_Z 4)
           (FILL_BYTES_PER_DAY / Qc_of_Z (2 ^ 40)) None None None None None);
    [by left|compute_done].
Defined.

(** ** Axis ticks of the directory histogram *)

Lemma draw_histo_first_tick series label :
  ∃ st, draw_histo_tick series (mk_ticks [] [] None None) 0 label = inr st
    ∧ ticks_after series [label] st.
Proof.
  eexists. split; [reflexivity|]. unfold ticks_after. cbn.
  split; [reflexivity|]. split; [by repeat constructor|]. split; [reflexivity|].
  exists 0%nat. split_and!; [done|lia|by left|]. intros i v Hi. lia.
Qed.

Lemma draw_histo_next_tick series done label st v :
  done ≠ [] → ticks_after series done st →
  series !! length done = Some v →
  ∃ st', draw_histo_tick series st (length done) label = inr st'
    ∧ ticks_after series (done ++ [label]) st'.
Proof.
  intros Hdone (Hticks & Hlabels & Hmin & hi & Hmax & Hhi & Hpos & Hlast) Hv.
  assert (0 < length done)%nat as Hlen by (destruct done; [done|simpl; lia]).
  destruct st as [ticks tick_labels mn mx].
  cbn [new_xticks new_labels min_x max_x] in Hticks, Hlabels, Hmin, Hmax.
  subst mn mx.
  assert (Forall2 (λ i l, (done ++ [label]) !! i = Some l) ticks tick_labels) as Hlabels'.
  { eapply Forall2_impl; [exact Hlabels|]. intros i l Hi. cbn in Hi.
    by apply lookup_app_l_Some. }
  unfold draw_histo_tick, update_limit, iloc.
  destruct (decide (length done mod 4 = 0)%nat) as [Hmod|Hmod];
    cbn [new_xticks new_labels min_x max_x]; rewrite Hv.
  all: rewrite (bool_decide_eq_false_2 (length done < 0)%nat) by lia.
  all: rewrite (bool_decide_eq_true_2 (hi < length done)%nat) by done.
  all: rewrite andb_false_r, andb_true_r.
  all: eexists; split; [reflexivity|].
  all: unfold ticks_after; cbn [new_xticks new_labels min_x max_x].
  all: rewrite length_app; cbn [length]; rewrite Nat.add_1_r.
  all: rewrite seq_S, filter_app, <-Hticks; cbn [Nat.add].
  all: split_and!; [| |done|].
  - by rewrite filter_cons_True, filter_nil by done.
  - apply Forall2_app; [done|]. repeat constructor.
    by rewrite lookup_app_r, Nat.sub_diag by done.
  - destruct (flt (Fin 0) v) eqn:Hflt.
    + exists (length done). split_and!; [done|lia|right; by exists v|].
      intros i w Hi _ _. lia.
    + exists hi. split_and!; [done|lia|done|].
      intros i w Hi Hw Hf. destruct (decide (i = length done)) as [->|Hne].
      * congruence.
      * apply (Hlast i w); [lia|done|done].
  - by rewrite filter_cons_False, filter_nil, app_nil_r by done.
  - done.
  - destruct (flt (Fin 0) v) eqn:Hflt.
    + exists (length done). split_and!; [done|lia|right; by exists v|].
      intros i w Hi _ _. lia.
    + exists hi. split_and!; [done|lia|done|].
      intros i w Hi Hw Hf. destruct (decide (i = length done)) as [->|Hne].
      * congruence.
      * apply (Hlast i w); [lia|done|done].
Qed.

Lemma draw_histo_loop_ok series done rest st :
  done ≠ [] → ticks_after series done st →
  (length done + length rest ≤ length series)%nat →
  ∃ st', draw_histo_loop series rest (length done) st = inr st'
    ∧ ticks_after series (done ++ rest) st'.
Proof.
  revert done st. induction rest as [|label rest IH]; intros done st Hdone Hst Hlen.
  { exists st. split; [done|]. by rewrite app_nil_r. }
  cbn [length] in Hlen.
  destruct (lookup_lt_is_Some_2 series (length done)) as [v Hv]; [lia|].
  destruct (draw_histo_next_tick series done label st v Hdone Hst Hv)
    as (st1 & Hst1 & Hafter).
  cbn [draw_histo_loop]. rewrite Hst1.
  destruct (IH (done ++ [label]) st1) as (st' & Hst' & Hafter').
  - by destruct done.
  - done.
  - rewrite length_app. cbn [length]. lia.
  - exists st'. rewrite length_app, Nat.add_1_r in Hst'.
    split; [done|]. by rewrite <-app_assoc in Hafter'.
Qed.

(** X19. With at least one tick label and a series with a value for every
    label, [draw_histo] keeps every fourth tick with its label, sets the
    left limit to -1 whatever the series holds ([min_x] is always 0), and
    sets the right limit 2 past the last index with a positive count, or
    past index 0 when there is none. *)
Theorem draw_histo_xaxis_limits (labels : list string) (series : list fval) :
  labels ≠ [] → (length labels ≤ length series)%nat →
  ∃ ticks tick_labels hi,
    draw_histo_xaxis labels series = inr (ticks, tick_labels, (-1, Z.of_nat hi + 2)%Z)
    ∧ ticks = filter (λ i, i mod 4 = 0)%nat (seq 0 (length labels))
    ∧ Forall2 (λ i label, labels !! i = Some label) ticks tick_labels
    ∧ (hi < length labels)%nat
    ∧ (hi = 0%nat ∨ ∃ v, series !! hi = Some v ∧ flt (Fin 0) v = true)
    ∧ ∀ i v, (i < length labels)%nat → series !! i = Some v →
             flt (Fin 0) v = true → (i ≤ hi)%nat.
Proof.
  intros Hlabels Hlen. destruct labels as [|label rest]; [done|].
  destruct (draw_histo_first_tick series label) as (st1 & Hst1 & Hafter1).
  destruct (draw_histo_loop_ok series [label] rest st1) as (st & Hst & Hafter);
    [done|done|cbn [length] in Hlen |- *; lia|].
  unfold draw_histo_xaxis. cbn [plot_bar draw_histo_loop]. rewrite Hst1.
  cbn [length] in Hst. rewrite Hst.
  destruct Hafter as (Hticks & Hlbl & Hmin & hi & Hmax & Hhi & Hpos & Hlast).
  rewrite Hmin, Hmax. exists (new_xticks st), (new_labels st), hi.
  split_and!; done.
Qed.

Lemma draw_histo_xaxis_limits_witness :
  ∃ ticks tick_labels hi,
    draw_histo_xaxis ["1"; "2"; "4"; "8"; "16"; "32"]
      (of_Z <$> [0; 0; 5; 3; 0; 0]%Z)
    = inr (ticks, tick_labels, (-1, Z.of_nat hi + 2)%Z)
    ∧ ticks = filter (λ i, i mod 4 = 0)%nat (seq 0 6)
    ∧ Forall2 (λ i label, ["1"; "2"; "4"; "8"; "16"; "32"] !! i = Some label)
        ticks tick_labels
    ∧ (hi < 6)%nat
    ∧ (hi = 0%nat
       ∨ ∃ v, (of_Z <$> [0; 0; 5; 3; 0; 0]%Z) !! hi = Some v ∧ flt (Fin 0) v = true)
    ∧ ∀ i v, (i < 6)%nat → (of_Z <$> [0; 0; 5; 3; 0; 0]%Z) !! i = Some v →
             flt (Fin 0) v = true → (i ≤ hi)%nat.
Proof.
  apply (draw_histo_xaxis_limits ["1"; "2"; "4"; "8"; "16"; "32"]
           (of_Z <$> [0; 0; 5; 3; 0; 0]%Z)); [done|simpl; lia].
Defined.

Lemma draw_histo_tick_index_error series st index label x :
  min_x st = Some x → series !! index = None →
  draw_histo_tick series st index label = inl IndexError.
Proof.
  intros Hmin Hnone. unfold draw_histo_tick, update_limit, iloc.
  destruct (decide (index mod 4 = 0)%nat); cbn [min_x]; by rewrite Hmin, Hnone.
Qed.

Lemma draw_histo_loop_app series l1 l2 index st :
  draw_histo_loop series (l1 ++ l2) index st
  = match draw_histo_loop series l1 index st with
    | inl e => inl e
    | inr st' => draw_histo_loop series l2 (index + length l1) st'
    end.
Proof.
  revert index st. induction l1 as [|label l1 IH]; intros index st.
  - cbn [app draw_histo_loop length]. by rewrite Nat.add_0_r.
  - cbn [app draw_histo_loop length].
    destruct (draw_histo_tick series st index label) as [e|st1]; [done|].
    rewrite IH. by rewrite Nat.add_succ_comm.
Qed.

(** X20. [draw_histo] fails with IndexError when there are two tick labels
    or more and the global series is shorter than the labels: the loop
    reads the series past its end. *)
Theorem draw_histo_xaxis_errors (labels : list string) (series : list fval) :
  (2 ≤ length labels)%nat → (length series < length labels)%nat →
  draw_histo_xaxis labels series = inl IndexError.
Proof.
  intros Hlabels Hseries.
  destruct labels as [|label rest]; [simpl in Hlabels; lia|].
  cbn [length] in Hlabels, Hseries.
  destruct (draw_histo_first_tick series label) as (st1 & Hst1 & Hafter1).
  unfold draw_histo_xaxis. cbn [plot_bar draw_histo_loop]. rewrite Hst1.
  rewrite <-(take_drop (length series - 1) rest), draw_histo_loop_app.
  assert (∃ st, draw_histo_loop series (take (length series - 1) rest) 1 st1 = inr st
            ∧ ticks_after series ([label] ++ take (length series - 1) rest) st)
    as (st & -> & Hafter).
  { destruct (decide (length series = 0)%nat) as [Hzero|Hpos].
    - rewrite Hzero. cbn [Nat.sub take draw_histo_loop]. by exists st1.
    - apply (draw_histo_loop_ok series [label]); [done|done|].
      cbn [length]. rewrite length_take. lia. }
  destruct (drop (length series - 1) rest) as [|next rest'] eqn:Hdrop.
  { apply (f_equal length) in Hdrop. rewrite length_drop in Hdrop.
    cbn [length] in Hdrop. lia. }
  cbn [draw_histo_loop].
  destruct Hafter as (_ & _ & Hmin & _).
  rewrite (draw_histo_tick_index_error _ _ _ _ 0%nat); [done|done|].
  apply lookup_ge_None. rewrite length_take. lia.
Qed.

Lemma draw_histo_xaxis_errors_witness :
  draw_histo_xaxis ["1"; "2"; "4"] (of_Z <$> [0; 5]%Z) = inl IndexError.
Proof.
  apply (draw_histo_xaxis_errors ["1"; "2"; "4"] (of_Z <$> [0; 5]%Z)); simpl; lia.
Defined.

(** ** Finite projections *)









(** ** Data on the MDT of a finite table *)






Section finite_projection.
Context (t : Qc) (index : list Z) (cs : list Qc).
Hypothesis Hbins : bins_ok index.
Hypothesis Hlen : length cs = length index.
Hypothesis Hcs : Forall (λ c, 0 ≤ c) cs.
Hypothesis Hsmin : 0 < totalq cs (emin_q index).
Hypothesis Ht : 0 < t.







End finite_projection.




(** ** Inode mass of the projection *)












Section inode_mass_dict.
Context (L : fval) (reference_df newfs_df : DataFrame).
Context (files extent : string → list fval) (tcol : string → string → list fval).
Hypothesis Hfiles : ∀ redux, redux ∈ REDUCTIONS →
  getcol newfs_df ("num_files_" +:+ redux) = Ok (files redux).
Hypothesis Htypes : ∀ redux itype, redux ∈ REDUCTIONS → itype ∈ NON_FILE_INODE_TYPES →
  getcol newfs_df ("num_" +:+ itype +:+ "_" +:+ redux) = Ok (tcol redux itype).
Hypothesis Hextent : ∀ redux, redux ∈ REDUCTIONS →
  getcol reference_df ("bin_extent_" +:+ redux) = Ok (extent redux).

End inode_mass_dict.






(** ** int64 count columns *)

Lemma totalq_of_Z (cs es : list Z) :
  totalq (Qc_of_Z <$> cs) (Qc_of_Z <$> es)
  = Qc_of_Z (foldr Z.add 0%Z (zip_with Z.mul cs es)).
Proof.
  unfold totalq, massq. revert es.
  induction cs as [|c cs IH]; intros [|e es]; [by cbn; rewrite Z2Qc_inj_0..|].
  rewrite !fmap_cons. cbn [zip_with sumq foldr].
  by rewrite IH, Z2Qc_inj_add, Z2Qc_inj_mul.
Qed.

Lemma massq_of_Z (cs es : list Z) :
  massq (Qc_of_Z <$> cs) (Qc_of_Z <$> es) = Qc_of_Z <$> zip_with Z.mul cs es.
Proof.
  unfold massq. revert es.
  induction cs as [|c cs IH]; intros [|e es]; [done..|].
  rewrite !fmap_cons. cbn [zip_with]. rewrite fmap_cons.
  by rewrite IH, Z2Qc_inj_mul.
Qed.

Lemma in_int64_of_Z (z : Z) : in_int64 (Qc_of_Z z) ↔ (- 2 ^ 63 ≤ z < 2 ^ 63)%Z.
Proof.
  unfold in_int64. rewrite <-Z2Qc_inj_opp, <-Z2Qc_inj_le, <-Z2Qc_inj_lt. done.
Qed.

(** int64 addition wraps once, however many times it is applied. *)
Lemma wrap64_add_l (a z : Z) : wrap64 (wrap64 a + z) = wrap64 (a + z).
Proof.
  unfold wrap64. f_equal.
  replace ((a + 2 ^ 63) `mod` 2 ^ 64 - 2 ^ 63 + z + 2 ^ 63)%Z
    with ((a + 2 ^ 63) `mod` 2 ^ 64 + z)%Z by lia.
  rewrite Zplus_mod_idemp_l. f_equal. lia.
Qed.

Lemma int64_sum_wrap (zs : list Z) (acc : Z) :
  foldl (λ acc z, wrap64 (acc + z)) (wrap64 acc) zs
  = wrap64 (acc + foldr Z.add 0%Z zs).
Proof.
  revert acc. induction zs as [|z zs IH]; intros acc.
  - cbn. f_equal. lia.
  - cbn [foldl foldr]. rewrite wrap64_add_l, IH. f_equal. lia.
Qed.

(** The int64 sum of a column is its exact sum, wrapped once. *)
Lemma int64_sum_spec (zs : list Z) : int64_sum zs = wrap64 (foldr Z.add 0%Z zs).
Proof.
  unfold int64_sum. change 0%Z with (wrap64 0) at 1. by rewrite int64_sum_wrap.
Qed.

Lemma sumq_of_Z (zs : list Z) : sumq (Qc_of_Z <$> zs) = Qc_of_Z (foldr Z.add 0%Z zs).
Proof.
  induction zs as [|z zs IH]; [by cbn; rewrite Z2Qc_inj_0|].
  rewrite fmap_cons. cbn [sumq foldr]. by rewrite IH, Z2Qc_inj_add.
Qed.

(** The total of an int64 column is the one of [mass_dist_sums] as soon as
    the exact total is within the int64 range. *)
Lemma int64_sum_exact (zs : list Z) :
  in_int64 (sumq (Qc_of_Z <$> zs)) →
  of_Z (int64_sum zs) = series_sum (of_Z <$> zs).
Proof.
  intros Hr. rewrite sumq_of_Z in Hr. apply (proj1 (in_int64_of_Z _)) in Hr.
  rewrite of_Z_fins, series_sum_fins, sumq_of_Z.
  by rewrite int64_sum_spec, wrap64_id by done.
Qed.

Lemma int64_mass_no_wrap (cs es : list Z) :
  Forall (λ m, (- 2 ^ 63 ≤ m < 2 ^ 63)%Z) (zip_with Z.mul cs es) →
  int64_mass cs es = zip_with Z.mul cs es.
Proof.
  unfold int64_mass. revert es.
  induction cs as [|c cs IH]; intros [|e es] Hr; [done..|].
  cbn [zip_with] in Hr |- *. apply Forall_cons in Hr as [Hm Hr].
  rewrite wrap64_id by done. f_equal. by apply IH.
Qed.

(** On an int64 count column and an int64 extent, the masses and their
    total are those of [mass_dist] and [mass_dist_sums] as soon as every
    exact mass and the exact total are within the int64 range. *)
Lemma int64_mass_exact (cs es : list Z) :
  int64_exact (Qc_of_Z <$> cs) (Qc_of_Z <$> es) →
  of_Z <$> int64_mass cs es = mass_col (of_Z <$> cs) (of_Z <$> es)
  ∧ of_Z (int64_sum (int64_mass cs es))
    = series_sum (mass_col (of_Z <$> cs) (of_Z <$> es)).
Proof.
  intros [Hmass Htotal].
  rewrite totalq_of_Z in Htotal. apply (proj1 (in_int64_of_Z _)) in Htotal.
  rewrite massq_of_Z in Hmass.
  assert (Forall (λ m, (- 2 ^ 63 ≤ m < 2 ^ 63)%Z) (zip_with Z.mul cs es)) as Hr.
  { apply Forall_lookup_2. intros i m Hm.
    apply (proj1 (in_int64_of_Z _)), (Forall_lookup_1 _ _ i _ Hmass).
    by rewrite list_lookup_fmap, Hm. }
  rewrite !of_Z_fins, series_sum_mass_col, mass_col_fins, totalq_of_Z, massq_of_Z.
  rewrite int64_mass_no_wrap by done. split; [done|].
  by rewrite int64_sum_spec, wrap64_id by done.
Qed.

Lemma sumq_ge_term (qs : list Qc) i q :
  Forall (λ q, 0 ≤ q) qs → qs !! i = Some q → q ≤ sumq qs.
Proof.
  intros Hqs. revert i. induction Hqs as [|r qs Hr Hqs IH]; intros i Hq; [done|].
  cbn [sumq]. destruct i as [|i].
  - injection Hq as ->. rewrite <-(Qcplus_0_r q) at 1.
    apply Qcplus_le_compat; [done|by apply sumq_nonneg].
  - rewrite <-(Qcplus_0_l q). apply Qcplus_le_compat; [done|by apply (IH i)].
Qed.

(** For non-negative counts and bins that are valid where they hold files,
    [no_overflow] keeps every mass and the total of the min and of the max
    reduction within the int64 range. *)
Lemma no_overflow_int64_exact (index : list Z) (cs : list Qc) :
  (2 ≤ length index)%nat → length cs = length index →
  Forall (λ c, 0 ≤ c) cs →
  populated_bins_ok index cs →
  no_overflow index cs →
  int64_exact cs (emin_q index) ∧ int64_exact cs (emax_q index).
Proof.
  intros Hlen2 Hlen Hcs Hpop Hfit.
  destruct (populated_totals_ordered index cs Hlen2 Hlen Hcs Hpop) as (T0 & T1 & T2).
  assert (- Qc_of_Z (2 ^ 63) ≤ 0) as Hneg.
  { rewrite <-Z2Qc_inj_opp, <-Z2Qc_inj_0. by apply Qc_of_Z_le. }
  assert (∀ i c lo hi, cs !! i = Some c → bin_extent_min index !! i = Some lo →
            index !! i = Some hi →
            0 ≤ c * Qc_of_Z lo ∧ 0 ≤ c * Qc_of_Z hi) as Hbin.
  { intros i c lo hi Hc Hlo Hhi.
    pose proof (Forall_lookup_1 _ _ _ _ Hcs Hc) as Hc0. cbn in Hc0.
    destruct (decide (c = 0)) as [->|Hne]; [by rewrite !Qcmult_0_l|].
    destruct (populated_bins_ok_lookup _ _ _ _ _ _ Hpop Hc Hlo Hhi Hne) as [Hr Hh].
    destruct (valid_bin_extents lo hi Hr Hh) as (H0 & H1 & H2 & _).
    split; apply Qcmult_nonneg_nonneg; try done.
    trans (Qc_of_Z lo); [done|]. by trans (Qc_of_Z (wrap64 (lo + hi)) / Qc_of_Z 2). }
  assert (Forall (λ m, 0 ≤ m) (massq cs (emin_q index))) as Nmin.
  { apply Forall_lookup_2. intros i m Hm. unfold massq, emin_q in Hm.
    apply lookup_zip_with_Some in Hm as (c & e & -> & Hc & He).
    rewrite list_lookup_fmap in He.
    destruct (bin_extent_min index !! i) as [lo|] eqn:Hlo; [|done].
    injection He as <-.
    destruct (lookup_lt_is_Some_2 index i) as [hi Hhi].
    { rewrite <-Hlen. by eapply lookup_lt_Some. }
    by destruct (Hbin i c lo hi). }
  assert (Forall (λ m, 0 ≤ m) (massq cs (emax_q index))) as Nmax.
  { apply Forall_lookup_2. intros i m Hm. unfold massq, emax_q, bin_extent_max in Hm.
    apply lookup_zip_with_Some in Hm as (c & e & -> & Hc & He).
    rewrite list_lookup_fmap in He.
    destruct (index !! i) as [hi|] eqn:Hhi; [|done].
    injection He as <-.
    destruct (lookup_lt_is_Some_2 (bin_extent_min index) i) as [lo Hlo].
    { rewrite length_bin_extent_min. apply lookup_lt_Some in Hc. lia. }
    by destruct (Hbin i c lo hi). }
  assert (totalq cs (emin_q index) < Qc_of_Z (2 ^ 63)) as Fmin.
  { eapply Qcle_lt_trans; [|exact Hfit]. by trans (totalq cs (eave_wrap_q index)). }
  unfold int64_exact, in_int64. split; (split; [|split]).
  - apply Forall_lookup_2. intros i m Hm.
    pose proof (Forall_lookup_1 _ _ _ _ Nmin Hm) as H0. cbn in H0.
    split; [by trans (Q2Qc 0)|].
    eapply Qcle_lt_trans; [|exact Fmin]. by apply (sumq_ge_term _ i).
  - by trans (Q2Qc 0).
  - done.
  - apply Forall_lookup_2. intros i m Hm.
    pose proof (Forall_lookup_1 _ _ _ _ Nmax Hm) as H0. cbn in H0.
    split; [by trans (Q2Qc 0)|].
    eapply Qcle_lt_trans; [|exact Hfit]. by apply (sumq_ge_term _ i).
  - trans (Q2Qc 0); [done|]. trans (totalq cs (emin_q index)); [done|].
    by trans (totalq cs (eave_wrap_q index)).
  - done.
Qed.

(** X23. An int64 count column gives the masses of a float64 one while
    nothing wraps: for at least two bins, non-negative int64 counts, bins
    that are valid where they hold files and a total mass under the max
    extents below 2^63, the int64 products of the counts with the min and
    with the max extents, and the int64 sums of these products, are the
    columns that [mass_dist] computes and the totals that [mass_dist_sums]
    computes. *)
Theorem no_overflow_exact (index cs : list Z) :
  (2 ≤ length index)%nat → length cs = length index →
  Forall (λ c, (0 ≤ c)%Z) cs →
  populated_bins_ok index (Qc_of_Z <$> cs) →
  no_overflow index (Qc_of_Z <$> cs) →
  let num_files := of_Z <$> cs in
  let extent_min := bin_extent_min index in
  let extent_max := bin_extent_max index in
  of_Z <$> int64_mass cs extent_min = mass_col num_files (of_Z <$> extent_min)
  ∧ of_Z (int64_sum (int64_mass cs extent_min))
    = series_sum (mass_col num_files (of_Z <$> extent_min))
  ∧ of_Z <$> int64_mass cs extent_max = mass_col num_files (of_Z <$> extent_max)
  ∧ of_Z (int64_sum (int64_mass cs extent_max))
    = series_sum (mass_col num_files (of_Z <$> extent_max)).
Proof.
  intros Hlen2 Hlen Hcs Hpop Hfit num_files extent_min extent_max.
  assert (Forall (λ c : Qc, 0 ≤ c) (Qc_of_Z <$> cs)) as Hcsq.
  { apply Forall_fmap. eapply Forall_impl; [exact Hcs|]. intros c Hc. cbn.
    rewrite <-Z2Qc_inj_0. by apply Qc_of_Z_le. }
  destruct (no_overflow_int64_exact index (Qc_of_Z <$> cs) Hlen2
              ltac:(by rewrite length_fmap) Hcsq Hpop Hfit) as [Emin Emax].
  destruct (int64_mass_exact cs extent_min Emin) as [M1 S1].
  destruct (int64_mass_exact cs extent_max Emax) as [M2 S2].
  done.
Qed.

Lemma no_overflow_exact_witness :
  let cs := [0; 2; 1; 0]%Z in
  let extent_min := bin_extent_min [2; 4; 8; 16]%Z in
  let extent_max := bin_extent_max [2; 4; 8; 16]%Z in
  of_Z <$> int64_mass cs extent_min = mass_col (of_Z <$> cs) (of_Z <$> extent_min)
  ∧ of_Z (int64_sum (int64_mass cs extent_min))
    = series_sum (mass_col (of_Z <$> cs) (of_Z <$> extent_min))
  ∧ of_Z <$> int64_mass cs extent_max = mass_col (of_Z <$> cs) (of_Z <$> extent_max)
  ∧ of_Z (int64_sum (int64_mass cs extent_max))
    = series_sum (mass_col (of_Z <$> cs) (of_Z <$> extent_max)).
Proof.
  apply (no_overflow_exact [2; 4; 8; 16]%Z [0; 2; 1; 0]%Z);
    [simpl; lia|reflexivity|compute_done|compute_done|compute_done].
Defined.

(** Past the range the int64 mass wraps around: 2^61 files in the second
    bin of the scenario weigh -2^63 under the max extent, which
    [no_overflow] excludes. *)
Example int64_mass_wraps :
  int64_mass [0; 2 ^ 61; 0; 0]%Z (bin_extent_max [2; 4; 8; 16]%Z)
  = [0; - 2 ^ 63; 0; 0]%Z
  ∧ int64_sum [0; - 2 ^ 63; 0; 0]%Z = (- 2 ^ 63)%Z
  ∧ ¬ no_overflow [2; 4; 8; 16]%Z (Qc_of_Z <$> [0; 2 ^ 61; 0; 0]%Z).
Proof. split_and!; compute_done. Qed.
